(** * Room lifecycle and broadcast engine of lan-text-web-chat

    A shallow embedding of [server/rooms.py] (classes [Room] and
    [RoomManager]) together with the constants of [server/constants.py]
    and the manager instantiation of [server/app.py].

    Modelling choices.
    - A [WebSocket] is an opaque handle compared by identity: a number.
    - A [Room] is a heap object; the manager's [rooms] dictionary holds
      references, so that "the same Room object" is a statement about
      references and so that a reference taken by a caller stays valid
      after the room identifier was removed from [rooms].
    - [Room.connections] is an insertion-ordered Python dict: an
      association list whose keys are unique ([Dict.wf]).
    - [rooms] and [deletion_timers] are dicts whose iteration order is
      never observed ([list_rooms] sorts): finite maps.  [lobby_clients]
      is a Python set: a finite set.
    - The network, the clock, the JSON encoder [jd] and the constant
      [ROOM_DELETION_DELAY] live outside [rooms.py]; they are section
      variables.  A send either returns or raises; the outcome is decided
      by the environment state [World].
    - The functions named after the methods run every coroutine from
      beginning to end, and the sends of one [asyncio.gather] in the
      order of the list.  The second part of the embedding cuts the same
      coroutines at their suspension points ([begin_...], [resume_task])
      and lets the event loop interleave them, their send tasks and the
      timer callbacks in any order ([sys_step], [interleaved]);
      [start_op_to_completion] relates the two.
    - Every attempted send and close is appended to [trace]; callbacks
      handed to [call_later] wait in [loop] until they are fired. *)

From stdpp Require Import gmap strings list fin_maps sorting pretty.

(** ** Python dicts with insertion order *)

Module Dict.
Section Dict.
Context {K V : Type} `{EqDecision K}.

Definition keys (d : list (K * V)) : list K := d.*1.
Definition values (d : list (K * V)) : list V := d.*2.

(** [d[k] = v]: an existing key keeps its position. *)
Fixpoint set (k : K) (v : V) (d : list (K * V)) : list (K * V) :=
  match d with
  | [] => [(k, v)]
  | (k', v') :: d' =>
      if decide (k' = k) then (k, v) :: d' else (k', v') :: set k v d'
  end.

(** [d.pop(k, None)], the popped value dropped. *)
Definition pop (k : K) (d : list (K * V)) : list (K * V) :=
  filter (λ kv, kv.1 ≠ k) d.

(** The keys of a dict are pairwise distinct. *)
Definition wf (d : list (K * V)) : Prop := NoDup (keys d).

End Dict.
End Dict.

(** ** Data model *)

Definition WebSocket := positive.
Definition RoomRef := positive.
Definition Handle := nat.

(** [server/constants.py] *)
Definition LOBBY_ID : string := "lobby".
Definition CLOSE_POLICY : Z := 1008.
Definition CLOSE_TOO_LARGE : Z := 1009.
Definition ERROR_CODES : gset string :=
  {[ "bad_room"; "room_exists"; "reserved"; "msg_too_large"; "bad_username" ]}.

(** class Room *)
Record Room := mkRoom {
  connections : list (WebSocket * string)
}.

(** [Room()] *)
Definition Room_init : Room := mkRoom [].

(** The three message shapes handed to [jd]. *)
Inductive Payload :=
  | PUsers (lst : list string)
  | PStatus (text : string) (ts : Z)
  | PRooms (lst : list string).

(** What the network saw: one entry per [ws.send_text] (with its
    outcome) and per [ws.close]. *)
Inductive Event :=
  | EvSend (ws : WebSocket) (message : string) (ok : bool)
  | EvClose (ws : WebSocket).

(** One entry of [asyncio.gather(..., return_exceptions=True)]. *)
Inductive GatherResult :=
  | GValue (b : bool)
  | GException.

(** [res is False or isinstance(res, Exception)] *)
Definition is_stale (res : GatherResult) : bool :=
  match res with
  | GValue false => true
  | GValue true => false
  | GException => true
  end.

(** The send attempts recorded in a run of events, in order. *)
Fixpoint attempts (evs : list Event) : list (WebSocket * bool) :=
  match evs with
  | [] => []
  | EvSend ws _ ok :: evs' => (ws, ok) :: attempts evs'
  | EvClose _ :: evs' => attempts evs'
  end.

(** The connections whose attempt failed. *)
Definition failed (evs : list Event) : list WebSocket :=
  (filter (λ a, a.2 = false) (attempts evs)).*1.

(** The connections whose attempt succeeded. *)
Definition delivered (evs : list Event) : list WebSocket :=
  (filter (λ a, a.2 = true) (attempts evs)).*1.

(** The connections on which [close] was called, in order. *)
Fixpoint closes (evs : list Event) : list WebSocket :=
  match evs with
  | [] => []
  | EvSend _ _ _ :: evs' => closes evs'
  | EvClose ws :: evs' => ws :: closes evs'
  end.

(** Every send in [evs] carries [message]. *)
Definition all_carry (message : string) (evs : list Event) : Prop :=
  Forall (λ e, match e with
               | EvSend _ m _ => m = message
               | EvClose _ => True
               end) evs.

(** What a subscript [d[k]] evaluates to. *)
Inductive Result (A : Type) :=
  | Ok (a : A)
  | KeyError (key : string).
Arguments Ok {A} a.
Arguments KeyError {A} key.

Definition getitem (d : gmap string RoomRef) (k : string) : Result RoomRef :=
  match d !! k with
  | Some r => Ok r
  | None => KeyError k
  end.

(** ** A concrete environment

    Used to run the model on examples: the connections listed in the
    environment are closed behind the scenes, so that a send to one of
    them raises; every other send returns. *)

Module Sample.

Definition World := list WebSocket.

Definition send_text (ws : WebSocket) (message : string) (w : World)
  : bool * World :=
  (bool_decide (ws ∉ w), w).

Definition close (ws : WebSocket) (w : World) : World := w.

Definition utc_ts (w : World) : Z := 1700000000.

Definition join_strings (l : list string) : string :=
  foldr (λ x acc, x +:+ ";" +:+ acc) "" l.

Definition jd (p : Payload) : string :=
  match p with
  | PUsers lst => "users:" +:+ join_strings lst
  | PStatus text ts => "status:" +:+ text
  | PRooms lst => "rooms:" +:+ join_strings lst
  end.

Definition ROOM_DELETION_DELAY : nat := 5.

End Sample.

(** ** Static files with a cache header ([server/app.py])

    [CachedStaticFiles] wraps the response of Starlette's [StaticFiles].
    Of that response the wrapper reads the status code and touches the
    headers; the headers are kept in Starlette's raw form: a list of
    name and value, the names in lower case. *)

Module CachedStaticFiles.

Record Response := mkResponse {
  status_code : Z;
  headers : list (string * string)
}.

Definition ascii_lower (c : Ascii.ascii) : Ascii.ascii :=
  let n := Ascii.N_of_ascii c in
  if (65 <=? n)%N && (n <=? 90)%N then Ascii.ascii_of_N (n + 32) else c.

(** [key.lower()] on a header name. *)
Fixpoint lower (s : string) : string :=
  match s with
  | EmptyString => EmptyString
  | String c s' => String (ascii_lower c) (lower s')
  end.

(** [headers.setdefault(key, value)]: a header of that name is kept as
    it is; otherwise the header is appended. *)
Definition setdefault (key value : string) (h : list (string * string))
  : list (string * string) :=
  if bool_decide (lower key ∈ h.*1) then h else h ++ [(lower key, value)].

(** [__init__]: the value of [self._cache_header]. *)
Definition cache_header (cache_seconds : Z) : option string :=
  if bool_decide (0 < cache_seconds)%Z
  then Some ("public, max-age=" +:+ pretty cache_seconds)
  else None.

(** The truth value of [self._cache_header]. *)
Definition truthy (h : option string) : bool :=
  match h with
  | Some v => bool_decide (v ≠ "")
  | None => false
  end.

(** [get_response], given the response of [super().get_response]. *)
Definition get_response (cache_seconds : Z) (response : Response) : Response :=
  if truthy (cache_header cache_seconds)
     && bool_decide (status_code response < 400)%Z
  then mkResponse (status_code response)
         (setdefault "Cache-Control"
            (default "" (cache_header cache_seconds)) (headers response))
  else response.

End CachedStaticFiles.

Section Manager.

(** The environment of [rooms.py]. *)
Context {World Delay : Type}.
(** [await ws.send_text(message)]: [true] when it returns, [false] when
    it raises. *)
Variable send_text : WebSocket → string → World → bool * World.
(** [await ws.close()]; whether it raises is swallowed by the caller. *)
Variable close : WebSocket → World → World.
(** [server.config.utc_ts] *)
Variable utc_ts : World → Z.
(** [server.config.jd] *)
Variable jd : Payload → string.
(** [server.config.ROOM_DELETION_DELAY] *)
Variable ROOM_DELETION_DELAY : Delay.

(** class RoomManager *)
Record RoomManager := mkManager {
  lobby_id : string;
  rooms : gmap string RoomRef;
  lobby_clients : gset WebSocket;
  deletion_timers : gmap string Handle;
  deletion_delay : Delay
}.

(** A callback registered with [call_later]:
    [lambda: asyncio.create_task(self._delayed_delete(room_id))]. *)
Record Timer := mkTimer {
  t_handle : Handle;
  t_delay : Delay;
  t_room : string
}.

(** The manager, the Room objects it or its callers reference, the
    event loop's pending callbacks, and the environment. *)
Record State := mkState {
  mgr : RoomManager;
  heap : gmap RoomRef Room;
  loop : list Timer;
  next_handle : Handle;
  world : World;
  trace : list Event
}.

Definition set_mgr (m : RoomManager) (s : State) : State :=
  mkState m (heap s) (loop s) (next_handle s) (world s) (trace s).

Definition set_rooms (rs : gmap string RoomRef) (m : RoomManager) : RoomManager :=
  mkManager (lobby_id m) rs (lobby_clients m) (deletion_timers m) (deletion_delay m).

Definition set_lobby_clients (lc : gset WebSocket) (m : RoomManager) : RoomManager :=
  mkManager (lobby_id m) (rooms m) lc (deletion_timers m) (deletion_delay m).

Definition set_deletion_timers (ts : gmap string Handle) (m : RoomManager) : RoomManager :=
  mkManager (lobby_id m) (rooms m) (lobby_clients m) ts (deletion_delay m).

Definition set_heap (h : gmap RoomRef Room) (s : State) : State :=
  mkState (mgr s) h (loop s) (next_handle s) (world s) (trace s).

(** [r.connections] for the object at [r]. *)
Definition conns (r : RoomRef) (s : State) : list (WebSocket * string) :=
  match heap s !! r with
  | Some room => connections room
  | None => []
  end.

(** Allocation of a new [Room()] object. *)
Definition new_Room (s : State) : RoomRef * State :=
  let r := fresh (dom (heap s)) in
  (r, set_heap (<[r := Room_init]> (heap s)) s).

(** [RoomManager.__init__] on an empty heap. *)
Definition RoomManager_init (lobby : string) (w : World) : State :=
  let r : RoomRef := fresh (∅ : gset RoomRef) in
  mkState
    (mkManager lobby {[lobby := r]} ∅ ∅ ROOM_DELETION_DELAY)
    {[r := Room_init]} [] 0%nat w [].

(** [rm = RoomManager(LOBBY_ID)] of [create_app]. *)
Definition create_app (w : World) : State := RoomManager_init LOBBY_ID w.

(** ** Room administration *)

Definition exists_ (m : RoomManager) (room_id : string) : bool :=
  bool_decide (is_Some (rooms m !! room_id)).

(** [None] stands for a missing identifier (Python's [None]), which
    [not room_id] treats like the empty string. *)
Definition create_error (m : RoomManager) (room_id : option string) : option string :=
  match room_id with
  | None => Some "bad_room"
  | Some id =>
      if decide (id = "") then Some "bad_room"
      else if decide (id = lobby_id m) then Some "reserved"
      else if exists_ m id then Some "room_exists"
      else None
  end.

Definition create (room_id : string) (s : State) : bool * State :=
  if bool_decide (room_id = lobby_id (mgr s))
     || bool_decide (is_Some (rooms (mgr s) !! room_id))
  then (false, s)
  else
    let '(r, s1) := new_Room s in
    (true, set_mgr (set_rooms (<[room_id := r]> (rooms (mgr s1))) (mgr s1)) s1).

Definition delete_ (room_id : string) (s : State) : State :=
  if bool_decide (room_id ≠ lobby_id (mgr s))
     && bool_decide (is_Some (rooms (mgr s) !! room_id))
  then set_mgr (set_rooms (delete room_id (rooms (mgr s))) (mgr s)) s
  else s.

(** Python's [sorted] on strings: the lexicographic order [String.le]. *)
Definition list_rooms (m : RoomManager) : list string :=
  merge_sort String.le
    (filter (λ r, r ≠ lobby_id m) (map_to_list (rooms m)).*1).


(** ** Sending *)

(** The environment moves to [w] and [evs] are recorded. *)
Definition record_io (evs : list Event) (w : World) (s : State) : State :=
  mkState (mgr s) (heap s) (loop s) (next_handle s) w (trace s ++ evs).

Definition safe_send_text (ws : WebSocket) (message : string) (s : State)
  : bool * State :=
  let '(ok, w) := send_text ws message (world s) in
  if ok then (true, record_io [EvSend ws message true] w s)
  else (false, record_io [EvSend ws message false; EvClose ws] (close ws w) s).

(** [asyncio.gather] over [safe_send_text(ws, message) for ws in sockets],
    with [return_exceptions=True]. *)
Fixpoint gather (sockets : list WebSocket) (message : string) (s : State)
  : list GatherResult * State :=
  match sockets with
  | [] => ([], s)
  | ws :: rest =>
      let '(res, s1) := safe_send_text ws message s in
      let '(results, s2) := gather rest message s1 in
      (GValue res :: results, s2)
  end.

Definition send_multi (targets : list WebSocket) (message : string) (s : State)
  : list WebSocket * State :=
  match targets with
  | [] => ([], s)
  | _ =>
      let sockets := targets in
      let '(results, s1) := gather sockets message s in
      ((filter (λ p, is_stale p.2 = true) (zip sockets results)).*1, s1)
  end.

(** ** Payloads *)

Definition users_payload (room_id : string) (s : State) : string :=
  let lst :=
    match rooms (mgr s) !! room_id with
    | Some rr => Dict.values (conns rr s)
    | None => []
    end in
  jd (PUsers lst).

Definition status (text : string) (s : State) : string :=
  jd (PStatus text (utc_ts (world s))).

(** ** Broadcast *)

(** [self.lobby_clients.discard(ws)] *)
Definition discard_lobby_client (s : State) (ws : WebSocket) : State :=
  set_mgr (set_lobby_clients (lobby_clients (mgr s) ∖ {[ws]}) (mgr s)) s.

Definition broadcast_rooms (s : State) : State :=
  let msg := jd (PRooms (list_rooms (mgr s))) in
  let '(stale, s1) := send_multi (elements (lobby_clients (mgr s))) msg s in
  foldl discard_lobby_client s1 stale.

(** [r.connections.pop(ws, None)] on the object at [r]. *)
Definition pop_connection (r : RoomRef) (s : State) (ws : WebSocket) : State :=
  set_heap (alter (λ room, mkRoom (Dict.pop ws (connections room))) r (heap s)) s.

(** [asyncio.get_event_loop().call_later(delay, callback)] where the
    callback starts [_delayed_delete(room_id)]. *)
Definition call_later (delay : Delay) (room_id : string) (s : State)
  : Handle * State :=
  let h := next_handle s in
  (h, mkState (mgr s) (heap s) (loop s ++ [mkTimer h delay room_id]) (S h)
        (world s) (trace s)).

Definition broadcast_room (room_id message : string)
    (exclude : option WebSocket) (s : State) : State :=
  match rooms (mgr s) !! room_id with
  | None => s
  | Some r =>
      let targets := filter (λ c, exclude ≠ Some c) (Dict.keys (conns r s)) in
      let '(stale, s1) := send_multi targets message s in
      let s2 := foldl (pop_connection r) s1 stale in
      if bool_decide (conns r s2 = [])
         && bool_decide (room_id ≠ lobby_id (mgr s2))
      then
        if bool_decide (is_Some (deletion_timers (mgr s2) !! room_id)) then s2
        else
          let '(h, s3) := call_later (deletion_delay (mgr s2)) room_id s2 in
          set_mgr (set_deletion_timers
                     (<[room_id := h]> (deletion_timers (mgr s3))) (mgr s3)) s3
      else s2
  end.

Definition announce_users (room_id : string) (s : State) : State :=
  broadcast_room room_id (users_payload room_id s) None s.

Definition announce_status (room_id text : string)
    (exclude : option WebSocket) (s : State) : State :=
  broadcast_room room_id (status text s) exclude s.

(** ** Deferred deletion *)

(** [if room_id in self.deletion_timers: del self.deletion_timers[room_id]] *)
Definition forget_timer (room_id : string) (s : State) : State :=
  if bool_decide (is_Some (deletion_timers (mgr s) !! room_id))
  then set_mgr (set_deletion_timers
                  (delete room_id (deletion_timers (mgr s))) (mgr s)) s
  else s.

(** The three statements of [_delayed_delete], in program order. *)
Definition _delayed_delete_body (room_id : string) : list (State → State) :=
  [forget_timer room_id; delete_ room_id; broadcast_rooms].

(** The state after the first [n] statements. *)
Definition _delayed_delete_upto (n : nat) (room_id : string) (s : State) : State :=
  foldl (λ st stmt, stmt st) s (take n (_delayed_delete_body room_id)).

Definition _delayed_delete (room_id : string) (s : State) : State :=
  _delayed_delete_upto 3 room_id s.

(** The event loop takes the pending callback at position [i]. *)
Definition dequeue (i : nat) (s : State) : State :=
  mkState (mgr s) (heap s) (delete i (loop s)) (next_handle s)
    (world s) (trace s).

(** The event loop runs the pending callback at position [i]. *)
Definition fire (i : nat) (s : State) : State :=
  match loop s !! i with
  | None => s
  | Some t => _delayed_delete (t_room t) (dequeue i s)
  end.

(** ** Get-or-create and departure *)

Definition ensure_room (room_id : string) (s : State) : Result RoomRef * State :=
  match rooms (mgr s) !! room_id with
  | Some r => (Ok r, s)
  | None =>
      if decide (room_id = lobby_id (mgr s)) then
        let '(r, s1) := new_Room s in
        let s2 :=
          set_mgr (set_rooms (<[lobby_id (mgr s1) := r]> (rooms (mgr s1))) (mgr s1)) s1 in
        (getitem (rooms (mgr s2)) (lobby_id (mgr s2)), s2)
      else
        let '(_, s1) := create room_id s in
        let s2 := broadcast_rooms s1 in
        (getitem (rooms (mgr s2)) room_id, s2)
  end.

Definition user_left (room_id : string) (ws : WebSocket) (username : string)
    (s : State) : State :=
  match rooms (mgr s) !! room_id with
  | None => s
  | Some r =>
      let s1 := pop_connection r s ws in
      let s2 := announce_status room_id (username +:+ " 已离开") None s1 in
      if bool_decide (conns r s2 ≠ [])
      then broadcast_rooms (announce_users room_id s2)
      else s2
  end.

(** ** What the gateway does with the manager *)

(** Modelled from the spec: the gateway's join ([server/routes.py] is not
    among the sources).  Section 6: join is the gateway inserting the
    connection into [ensure_room(id).connections]. *)
Definition join (room_id : string) (ws : WebSocket) (username : string)
    (s : State) : State :=
  match ensure_room room_id s with
  | (Ok r, s1) =>
      set_heap
        (alter (λ room, mkRoom (Dict.set ws username (connections room))) r
           (heap s1)) s1
  | (KeyError _, s1) => s1
  end.

(** Modelled from the spec: the gateway's subscription of a connection to
    the room-directory feed ([server/routes.py] is not among the sources).
    Section 3: [lobby_clients] is the set of connections currently
    receiving the feed. *)
Definition subscribe (ws : WebSocket) (s : State) : State :=
  set_mgr (set_lobby_clients ({[ws]} ∪ lobby_clients (mgr s)) (mgr s)) s.

(** Modelled from the spec: the gateway's removal of a connection from
    the room-directory feed ([server/routes.py] is not among the
    sources). *)
Definition unsubscribe (ws : WebSocket) (s : State) : State :=
  discard_lobby_client s ws.

(** One atomic action on the system: a manager operation called by the
    gateway, a gateway action, a pending timer firing, or the environment
    changing on its own (connections die, time passes). *)
Inductive Op :=
  | OpCreate (room_id : string)
  | OpDelete (room_id : string)
  | OpEnsureRoom (room_id : string)
  | OpBroadcastRoom (room_id message : string) (exclude : option WebSocket)
  | OpBroadcastRooms
  | OpAnnounceUsers (room_id : string)
  | OpAnnounceStatus (room_id text : string) (exclude : option WebSocket)
  | OpUserLeft (room_id : string) (ws : WebSocket) (username : string)
  | OpJoin (room_id : string) (ws : WebSocket) (username : string)
  | OpSubscribe (ws : WebSocket)
  | OpUnsubscribe (ws : WebSocket)
  | OpFire (i : nat)
  | OpEnvironment (w : World).

Definition run (op : Op) (s : State) : State :=
  match op with
  | OpCreate room_id => (create room_id s).2
  | OpDelete room_id => delete_ room_id s
  | OpEnsureRoom room_id => (ensure_room room_id s).2
  | OpBroadcastRoom room_id message exclude =>
      broadcast_room room_id message exclude s
  | OpBroadcastRooms => broadcast_rooms s
  | OpAnnounceUsers room_id => announce_users room_id s
  | OpAnnounceStatus room_id text exclude =>
      announce_status room_id text exclude s
  | OpUserLeft room_id ws username => user_left room_id ws username s
  | OpJoin room_id ws username => join room_id ws username s
  | OpSubscribe ws => subscribe ws s
  | OpUnsubscribe ws => unsubscribe ws s
  | OpFire i => fire i s
  | OpEnvironment w => record_io [] w s
  end.

Definition run_all (ops : list Op) (s : State) : State :=
  foldl (λ st op, run op st) s ops.

(** An explicit [delete] request. *)
Definition is_delete (op : Op) : bool :=
  match op with
  | OpDelete _ => true
  | _ => false
  end.

(** A pending timer firing. *)
Definition is_fire (op : Op) : bool :=
  match op with
  | OpFire _ => true
  | _ => false
  end.

(** The states the application reaches from [create_app] with actions
    that satisfy [allowed]. *)
Inductive reachable (allowed : Op → Prop) : State → Prop :=
  | reachable_init w : reachable allowed (create_app w)
  | reachable_step op s :
      reachable allowed s → allowed op → reachable allowed (run op s).

(** A room identifier with a timer record but no room. *)
Definition orphan_timer (room_id : string) (s : State) : Prop :=
  rooms (mgr s) !! room_id = None
  ∧ is_Some (deletion_timers (mgr s) !! room_id).

(** ** Relations between states used in the statements *)

(** [s'] differs from [s] by input/output only: the events [evs] were
    appended to the trace and the environment moved on. *)
Definition io_only (s s' : State) (evs : list Event) : Prop :=
  mgr s' = mgr s ∧ heap s' = heap s ∧ loop s' = loop s
  ∧ next_handle s' = next_handle s ∧ trace s' = trace s ++ evs.

(** The network replayed along a run of events from the environment [w]:
    every recorded send is asked of [send_text] again and must get the
    recorded outcome, every recorded close is a call of [close].  The
    result is the environment the run ends in, or [None] when a recorded
    outcome is not the one [send_text] gives. *)
Fixpoint replay (w : World) (evs : list Event) : option World :=
  match evs with
  | [] => Some w
  | EvSend ws message ok :: evs' =>
      let '(ok', w1) := send_text ws message w in
      if bool_decide (ok' = ok) then replay w1 evs' else None
  | EvClose ws :: evs' => replay (close ws w) evs'
  end.

(** Every registry on the heap is a dict. *)
Definition registries_wf (s : State) : Prop := ∀ r, Dict.wf (conns r s).

(** The lobby exists and has no timer, and the timer records are
    exactly the rooms with a pending callback, one callback per room. *)
Definition timers_consistent (s : State) : Prop :=
  is_Some (rooms (mgr s) !! lobby_id (mgr s))
  ∧ NoDup (t_room <$> loop s)
  ∧ (∀ k, is_Some (deletion_timers (mgr s) !! k) ↔ k ∈ t_room <$> loop s)
  ∧ deletion_timers (mgr s) !! lobby_id (mgr s) = None.

(** From [s] to [s'] the lobby was kept, and the timer records and the
    pending callbacks either did not change or grew by one callback for
    a room other than the lobby that had no record. *)
Definition benign (s s' : State) : Prop :=
  lobby_id (mgr s') = lobby_id (mgr s)
  ∧ (is_Some (rooms (mgr s) !! lobby_id (mgr s)) →
     is_Some (rooms (mgr s') !! lobby_id (mgr s)))
  ∧ ((deletion_timers (mgr s') = deletion_timers (mgr s) ∧ loop s' = loop s)
     ∨ ∃ k h d,
         k ≠ lobby_id (mgr s)
         ∧ deletion_timers (mgr s) !! k = None
         ∧ deletion_timers (mgr s') = <[k := h]> (deletion_timers (mgr s))
         ∧ loop s' = loop s ++ [mkTimer h d k]).

(** Every room is bound to a Room object of the heap, and no two
    identifiers are bound to the same object. *)
Definition rooms_distinct (s : State) : Prop :=
  (∀ k r, rooms (mgr s) !! k = Some r → is_Some (heap s !! r))
  ∧ (∀ k1 k2 r, rooms (mgr s) !! k1 = Some r → rooms (mgr s) !! k2 = Some r →
                k1 = k2).

(** Every identifier with a timer record names a room. *)
Definition timers_within_rooms (s : State) : Prop :=
  ∀ k, is_Some (deletion_timers (mgr s) !! k) → is_Some (rooms (mgr s) !! k).

(** From [s] to [s'] no room was removed, and a timer record was added
    only for an identifier that names a room. *)
Definition extends (s s' : State) : Prop :=
  lobby_id (mgr s') = lobby_id (mgr s)
  ∧ (∀ k, is_Some (rooms (mgr s) !! k) → is_Some (rooms (mgr s') !! k))
  ∧ (∀ k, is_Some (deletion_timers (mgr s') !! k) →
          is_Some (deletion_timers (mgr s) !! k)
          ∨ is_Some (rooms (mgr s') !! k)).

(** ** Coroutines at their suspension points

    A coroutine of the manager gives up control in one place only: in
    [send_multi], where it waits in [asyncio.gather] for one
    [safe_send_text] task per target.  While it waits the event loop runs
    the send tasks, other coroutines and timer callbacks.  With no target
    [send_multi] returns at once and the coroutine goes on without a
    suspension.  This part of the embedding cuts every coroutine at these
    points; the functions above are the same coroutines run from
    beginning to end with nothing in between. *)

(** One [safe_send_text] task of a gather: before [await ws.send_text],
    before [await ws.close()] after a failed send, or returned. *)
Inductive Child :=
  | ChildSend (ws : WebSocket)
  | ChildClose (ws : WebSocket)
  | ChildDone (ws : WebSocket) (res : bool).

(** What the caller of [broadcast_room] does when it returns: nothing
    more, or the rest of [user_left] after [announce_status] (with the
    Room [r] that [user_left] looked up) or after [announce_users]. *)
Inductive AfterRoom :=
  | ReturnFromRoom
  | UserLeftStatus (room_id : string) (r : RoomRef)
  | UserLeftUsers.

(** What the caller of [broadcast_rooms] does when it returns: nothing
    more, or the last line of [ensure_room], followed for a join by the
    gateway's insertion of the connection. *)
Inductive AfterRooms :=
  | ReturnFromRooms
  | EnsureRoomReturn (room_id : string) (joining : option (WebSocket * string)).

(** The coroutine that waits: [broadcast_rooms] at line 90, or
    [broadcast_room] at line 102 with its local variable [r]. *)
Inductive Waiter :=
  | InBroadcastRooms (k : AfterRooms)
  | InBroadcastRoom (room_id : string) (r : RoomRef) (k : AfterRoom).

(** A coroutine suspended in [asyncio.gather]: the message, the send
    tasks in the order of [sockets], and who waits for them. *)
Record Task := mkTask {
  task_message : string;
  task_children : list Child;
  task_waiter : Waiter
}.

(** Where a coroutine stands after running up to its next suspension:
    the state, the gather it waits in (if it did not finish), and the
    keys of the [KeyError]s it raised. *)
Record Outcome := mkOutcome {
  o_state : State;
  o_task : option Task;
  o_raised : list string
}.

Definition finished (s : State) : Outcome := mkOutcome s None [].

Definition suspended (t : Task) (s : State) : Outcome := mkOutcome s (Some t) [].

(** One step of a [safe_send_text] task. *)
Definition child_step (message : string) (c : Child) (s : State) : Child * State :=
  match c with
  | ChildSend ws =>
      let '(ok, w) := send_text ws message (world s) in
      if ok then (ChildDone ws true, record_io [EvSend ws message true] w s)
      else (ChildClose ws, record_io [EvSend ws message false] w s)
  | ChildClose ws =>
      (ChildDone ws false, record_io [EvClose ws] (close ws (world s)) s)
  | ChildDone _ _ => (c, s)
  end.

Definition is_done (c : Child) : bool :=
  match c with
  | ChildDone _ _ => true
  | _ => false
  end.

(** Lines 135-139 of [send_multi] on the finished send tasks. *)
Definition stale_of (children : list Child) : list WebSocket :=
  omap (λ c, match c with
             | ChildDone ws false => Some ws
             | _ => None
             end) children.

(** [send_multi] up to its [await]: with no target it returns [[]] to
    [continue]; otherwise the send tasks are created and [waiter] is
    suspended. *)
Definition begin_send_multi (targets : list WebSocket) (message : string)
    (waiter : Waiter) (continue : list WebSocket → State → Outcome)
    (s : State) : Outcome :=
  match targets with
  | [] => continue [] s
  | _ => suspended (mkTask message (ChildSend <$> targets) waiter) s
  end.

(** Lines 91-92 of [broadcast_rooms]. *)
Definition broadcast_rooms_resume (stale : list WebSocket) (s : State) : State :=
  foldl discard_lobby_client s stale.

(** Lines 103-109 of [broadcast_room]. *)
Definition broadcast_room_resume (room_id : string) (r : RoomRef)
    (stale : list WebSocket) (s : State) : State :=
  let s2 := foldl (pop_connection r) s stale in
  if bool_decide (conns r s2 = [])
     && bool_decide (room_id ≠ lobby_id (mgr s2))
  then
    if bool_decide (is_Some (deletion_timers (mgr s2) !! room_id)) then s2
    else
      let '(h, s3) := call_later (deletion_delay (mgr s2)) room_id s2 in
      set_mgr (set_deletion_timers
                 (<[room_id := h]> (deletion_timers (mgr s3))) (mgr s3)) s3
  else s2.

(** Modelled from the spec: the gateway's insertion of a joining
    connection into the Room that [ensure_room] returned. *)
Definition joined (r : RoomRef) (joining : option (WebSocket * string))
    (s : State) : State :=
  match joining with
  | Some (ws, username) =>
      set_heap
        (alter (λ room, mkRoom (Dict.set ws username (connections room))) r
           (heap s)) s
  | None => s
  end.

(** [return self.rooms[room_id]] *)
Definition ensure_room_resume (room_id : string)
    (joining : option (WebSocket * string)) (s : State) : Outcome :=
  match getitem (rooms (mgr s)) room_id with
  | Ok r => finished (joined r joining s)
  | KeyError key => mkOutcome s None [key]
  end.

Definition after_broadcast_rooms (k : AfterRooms) (stale : list WebSocket)
    (s : State) : Outcome :=
  let s1 := broadcast_rooms_resume stale s in
  match k with
  | ReturnFromRooms => finished s1
  | EnsureRoomReturn room_id joining => ensure_room_resume room_id joining s1
  end.

Definition begin_broadcast_rooms (k : AfterRooms) (s : State) : Outcome :=
  let msg := jd (PRooms (list_rooms (mgr s))) in
  begin_send_multi (elements (lobby_clients (mgr s))) msg
    (InBroadcastRooms k) (after_broadcast_rooms k) s.

(** [broadcast_room] up to its [await]; [continue] is what its caller
    does when it returns. *)
Definition begin_broadcast_room (room_id message : string)
    (exclude : option WebSocket) (k : AfterRoom) (continue : State → Outcome)
    (s : State) : Outcome :=
  match rooms (mgr s) !! room_id with
  | None => continue s
  | Some r =>
      let targets := filter (λ c, exclude ≠ Some c) (Dict.keys (conns r s)) in
      begin_send_multi targets message (InBroadcastRoom room_id r k)
        (λ stale s', continue (broadcast_room_resume room_id r stale s')) s
  end.

(** Line 162 of [user_left]. *)
Definition user_left_after_users (s : State) : Outcome :=
  begin_broadcast_rooms ReturnFromRooms s.

(** Lines 160-162 of [user_left]. *)
Definition user_left_after_status (room_id : string) (r : RoomRef) (s : State)
  : Outcome :=
  if bool_decide (conns r s ≠ [])
  then begin_broadcast_room room_id (users_payload room_id s) None
         UserLeftUsers user_left_after_users s
  else finished s.

Definition after_broadcast_room (k : AfterRoom) (s : State) : Outcome :=
  match k with
  | ReturnFromRoom => finished s
  | UserLeftStatus room_id r => user_left_after_status room_id r s
  | UserLeftUsers => user_left_after_users s
  end.

(** The suspended coroutine goes on after its gather. *)
Definition resume_task (t : Task) (s : State) : Outcome :=
  let stale := stale_of (task_children t) in
  match task_waiter t with
  | InBroadcastRooms k => after_broadcast_rooms k stale s
  | InBroadcastRoom room_id r k =>
      after_broadcast_room k (broadcast_room_resume room_id r stale s)
  end.

(** [ensure_room] up to its [await]. *)
Definition begin_ensure_room (room_id : string)
    (joining : option (WebSocket * string)) (s : State) : Outcome :=
  match rooms (mgr s) !! room_id with
  | Some r => finished (joined r joining s)
  | None =>
      if decide (room_id = lobby_id (mgr s)) then
        let '(r, s1) := new_Room s in
        let s2 :=
          set_mgr (set_rooms (<[lobby_id (mgr s1) := r]> (rooms (mgr s1))) (mgr s1)) s1 in
        ensure_room_resume (lobby_id (mgr s2)) joining s2
      else
        let '(_, s1) := create room_id s in
        begin_broadcast_rooms (EnsureRoomReturn room_id joining) s1
  end.

(** [user_left] up to its first [await]. *)
Definition begin_user_left (room_id : string) (ws : WebSocket)
    (username : string) (s : State) : Outcome :=
  match rooms (mgr s) !! room_id with
  | None => finished s
  | Some r =>
      let s1 := pop_connection r s ws in
      begin_broadcast_room room_id (status (username +:+ " 已离开") s1) None
        (UserLeftStatus room_id r) (user_left_after_status room_id r) s1
  end.

(** [_delayed_delete] up to its [await]. *)
Definition begin_delayed_delete (room_id : string) (s : State) : Outcome :=
  begin_broadcast_rooms ReturnFromRooms (delete_ room_id (forget_timer room_id s)).

(** An action starts and runs up to its first suspension. *)
Definition start_op (op : Op) (s : State) : Outcome :=
  match op with
  | OpCreate room_id => finished (create room_id s).2
  | OpDelete room_id => finished (delete_ room_id s)
  | OpEnsureRoom room_id => begin_ensure_room room_id None s
  | OpBroadcastRoom room_id message exclude =>
      begin_broadcast_room room_id message exclude ReturnFromRoom finished s
  | OpBroadcastRooms => begin_broadcast_rooms ReturnFromRooms s
  | OpAnnounceUsers room_id =>
      begin_broadcast_room room_id (users_payload room_id s) None
        ReturnFromRoom finished s
  | OpAnnounceStatus room_id text exclude =>
      begin_broadcast_room room_id (status text s) exclude
        ReturnFromRoom finished s
  | OpUserLeft room_id ws username => begin_user_left room_id ws username s
  | OpJoin room_id ws username =>
      begin_ensure_room room_id (Some (ws, username)) s
  | OpSubscribe ws => finished (subscribe ws s)
  | OpUnsubscribe ws => finished (unsubscribe ws s)
  | OpFire i =>
      match loop s !! i with
      | None => finished s
      | Some t => begin_delayed_delete (t_room t) (dequeue i s)
      end
  | OpEnvironment w => finished (record_io [] w s)
  end.

(** The manager with its suspended coroutines and the [KeyError]s that
    reached the callers. *)
Record Sys := mkSys {
  st : State;
  tasks : list Task;
  raised : list string
}.

(** What the event loop does next: start an action, run the send task
    [j] of the suspended coroutine [i] up to its next [await], or resume
    the coroutine [i] once all its send tasks returned. *)
Inductive Step :=
  | Start (op : Op)
  | Advance (i j : nat)
  | Resume (i : nat).

Definition settle (o : Outcome) (pool : list Task) (errors : list string) : Sys :=
  mkSys (o_state o) (pool ++ option_list (o_task o)) (errors ++ o_raised o).

Definition sys_step (x : Step) (sys : Sys) : Sys :=
  match x with
  | Start op => settle (start_op op (st sys)) (tasks sys) (raised sys)
  | Advance i j =>
      match tasks sys !! i with
      | None => sys
      | Some t =>
          match task_children t !! j with
          | None => sys
          | Some c =>
              let '(c', s') := child_step (task_message t) c (st sys) in
              mkSys s'
                (<[i := mkTask (task_message t) (<[j := c']> (task_children t))
                          (task_waiter t)]> (tasks sys))
                (raised sys)
          end
      end
  | Resume i =>
      match tasks sys !! i with
      | None => sys
      | Some t =>
          if forallb is_done (task_children t)
          then settle (resume_task t (st sys)) (delete i (tasks sys)) (raised sys)
          else sys
      end
  end.

Definition sys_steps (xs : list Step) (sys : Sys) : Sys :=
  foldl (λ y x, sys_step x y) sys xs.

(** The application as [create_app] leaves it. *)
Definition sys_init (w : World) : Sys := mkSys (create_app w) [] [].

(** What the application reaches from [create_app] by steps that
    satisfy [allowed] in the state they are taken in. *)
Inductive interleaved (allowed : Step → Sys → Prop) : Sys → Prop :=
  | interleaved_init w : interleaved allowed (sys_init w)
  | interleaved_step x sys :
      interleaved allowed sys → allowed x sys →
      interleaved allowed (sys_step x sys).

(** The coroutine [t] is a broadcast to [room_id] suspended at line 102. *)
Definition awaits_room (room_id : string) (t : Task) : bool :=
  match task_waiter t with
  | InBroadcastRoom id _ _ => bool_decide (id = room_id)
  | InBroadcastRooms _ => false
  end.

(** The step removes the room [room_id]: the room is there and is not
    the lobby, and the step is [delete(room_id)] or a timer of [room_id]
    firing. *)
Definition removes (room_id : string) (x : Step) (sys : Sys) : bool :=
  bool_decide (room_id ≠ lobby_id (mgr (st sys)))
  && bool_decide (is_Some (rooms (mgr (st sys)) !! room_id))
  && match x with
     | Start (OpDelete id) => bool_decide (id = room_id)
     | Start (OpFire i) =>
         bool_decide (t_room <$> loop (st sys) !! i = Some room_id)
     | _ => false
     end.

(** The two ways in which [room_id] can be left with a timer record and
    no room: the room is removed by [delete(room_id)] while it has a
    timer record, or it is removed, by [delete(room_id)] or by its timer
    firing, while a broadcast to it is suspended in its sends (the
    broadcast may schedule a deletion when it resumes). *)
Definition overtakes (room_id : string) (x : Step) (sys : Sys) : bool :=
  removes room_id x sys
  && (match x with
      | Start (OpDelete _) =>
          bool_decide (is_Some (deletion_timers (mgr (st sys)) !! room_id))
      | _ => false
      end
      || existsb (awaits_room room_id) (tasks sys)).

(** Every step of [xs] is allowed in the state it is taken in. *)
Fixpoint all_allowed (allowed : Step → Sys → Prop) (xs : list Step) (sys : Sys)
  : Prop :=
  match xs with
  | [] => True
  | x :: xs' => allowed x sys ∧ all_allowed allowed xs' (sys_step x sys)
  end.

(** A timer record of [k] comes with a room, and so does a broadcast to
    [k] that is suspended. *)
Definition settled (k : string) (sys : Sys) : Prop :=
  (is_Some (deletion_timers (mgr (st sys)) !! k) →
   is_Some (rooms (mgr (st sys)) !! k))
  ∧ Forall (λ t, awaits_room k t = true → is_Some (rooms (mgr (st sys)) !! k))
      (tasks sys).

(** From [s] to [s'] the identifier [k] was not removed from [rooms],
    and it got a timer record only if it names a room. *)
Definition keeps (k : string) (s s' : State) : Prop :=
  (is_Some (rooms (mgr s) !! k) → is_Some (rooms (mgr s') !! k))
  ∧ (is_Some (deletion_timers (mgr s') !! k) →
     is_Some (deletion_timers (mgr s) !! k) ∨ is_Some (rooms (mgr s') !! k)).

(** The coroutine run from [s] kept [k], and if it now waits in a
    broadcast to [k] then [k] names a room. *)
Definition keeps_room (k : string) (s : State) (o : Outcome) : Prop :=
  keeps k s (o_state o)
  ∧ ∀ t, o_task o = Some t → awaits_room k t = true →
         is_Some (rooms (mgr (o_state o)) !! k).




(** The lobby identifier is [l] and the timers are consistent. *)
Definition stable (l : string) (s : State) : Prop :=
  lobby_id (mgr s) = l ∧ timers_consistent s.

(** ** Coroutines run without interruption *)

(** A send task run until it returns. *)
Definition run_child (message : string) (c : Child) (s : State) : Child * State :=
  let '(c1, s1) := child_step message c s in child_step message c1 s1.

(** The send tasks run one after the other, each until it returns. *)
Fixpoint run_children (message : string) (children : list Child) (s : State)
  : list Child * State :=
  match children with
  | [] => ([], s)
  | c :: rest =>
      let '(c', s1) := run_child message c s in
      let '(rest', s2) := run_children message rest s1 in
      (c' :: rest', s2)
  end.

(** A suspended coroutine whose send tasks run at once and which then
    resumes. *)
Definition run_task (t : Task) (s : State) : Outcome :=
  let '(children, s1) := run_children (task_message t) (task_children t) s in
  resume_task (mkTask (task_message t) children (task_waiter t)) s1.

Definition run_on (o : Outcome) : Outcome :=
  match o_task o with
  | None => o
  | Some t =>
      let o' := run_task t (o_state o) in
      mkOutcome (o_state o') (o_task o') (o_raised o ++ o_raised o')
  end.

(** No coroutine of the manager suspends more than three times. *)
Definition to_completion (o : Outcome) : Outcome := run_on (run_on (run_on o)).

(** * Properties *)

(** ** Room administration *)

Lemma exists_true (m : RoomManager) (room_id : string) :
  exists_ m room_id = true ↔ is_Some (rooms m !! room_id).
Proof. unfold exists_. apply bool_decide_eq_true. Qed.

Lemma exists_false (m : RoomManager) (room_id : string) :
  exists_ m room_id = false ↔ rooms m !! room_id = None.
Proof.
  unfold exists_. rewrite bool_decide_eq_false, eq_None_not_Some. done.
Qed.

(** C6: [create_error] checks, in this order, for an empty or missing
    identifier ([bad_room]), for the lobby identifier ([reserved]), for
    an identifier already in [rooms] ([room_exists]); otherwise it
    reports no error. *)
Theorem create_error_precedence (m : RoomManager) (room_id : option string) :
  (room_id = None ∨ room_id = Some "" →
     create_error m room_id = Some "bad_room")
  ∧ (∀ id, room_id = Some id → id ≠ "" →
       (id = lobby_id m → create_error m room_id = Some "reserved")
       ∧ (id ≠ lobby_id m → is_Some (rooms m !! id) →
            create_error m room_id = Some "room_exists")
       ∧ (id ≠ lobby_id m → rooms m !! id = None →
            create_error m room_id = None)).
Proof.
  split.
  - intros [-> | ->]; reflexivity.
  - intros id -> Hne. unfold create_error.
    destruct (decide (id = "")) as [|_]; [done|].
    repeat split.
    + intros Hl. destruct (decide (id = lobby_id m)); done.
    + intros Hl Hin. destruct (decide (id = lobby_id m)); [done|].
      apply exists_true in Hin. by rewrite Hin.
    + intros Hl Hout. destruct (decide (id = lobby_id m)); [done|].
      apply exists_false in Hout. by rewrite Hout.
Qed.

(** With a non-empty lobby identifier, [reserved] is the answer for the
    lobby identifier and for nothing else. *)
Lemma create_error_reserved (m : RoomManager) (r : string) :
  lobby_id m ≠ "" →
  create_error m (Some r) = Some "reserved" ↔ r = lobby_id m.
Proof.
  intros Hlobby. unfold create_error.
  destruct (decide (r = "")) as [->|Hr].
  - split; [done|]. intros Heq. by destruct Hlobby.
  - destruct (decide (r = lobby_id m)) as [|Hne]; [done|].
    destruct (exists_ m r); split; done.
Qed.

(** C8: [create(lobby_id)] fails and changes nothing; for [x] that is
    neither the lobby nor a key of [rooms], [create(x)] succeeds, binds
    [x] to a newly allocated empty Room, changes nothing else, and
    [exists(x)] holds afterwards. *)
Theorem create_lobby_fails_novel_succeeds (s : State) :
  create (lobby_id (mgr s)) s = (false, s)
  ∧ ∀ x, x ≠ lobby_id (mgr s) → rooms (mgr s) !! x = None →
      ∃ r s',
        create x s = (true, s')
        ∧ heap s !! r = None
        ∧ heap s' = <[r := Room_init]> (heap s)
        ∧ conns r s' = []
        ∧ rooms (mgr s') = <[x := r]> (rooms (mgr s))
        ∧ exists_ (mgr s') x = true
        ∧ lobby_id (mgr s') = lobby_id (mgr s)
        ∧ lobby_clients (mgr s') = lobby_clients (mgr s)
        ∧ deletion_timers (mgr s') = deletion_timers (mgr s)
        ∧ loop s' = loop s
        ∧ trace s' = trace s.
Proof.
  split.
  - unfold create. by rewrite bool_decide_eq_true_2.
  - intros x Hx Hnone. unfold create.
    rewrite bool_decide_eq_false_2 by done.
    rewrite bool_decide_eq_false_2 by (rewrite Hnone; by intros [? ?]).
    simpl. eexists _, _. split; [reflexivity|]. simpl.
    repeat split.
    + apply not_elem_of_dom, is_fresh.
    + unfold conns. simpl. by rewrite lookup_insert_eq.
    + apply exists_true. simpl. rewrite lookup_insert_eq. by eexists.
Qed.

(** C10: for a room identifier that is not a key of [rooms],
    [broadcast_room] returns the state it was given: nothing is sent,
    [rooms], [lobby_clients] and [deletion_timers] are unchanged and no
    callback is scheduled. *)
Theorem broadcast_room_absent_noop (s : State) (room_id message : string)
    (exclude : option WebSocket) :
  rooms (mgr s) !! room_id = None →
  broadcast_room room_id message exclude s = s
  ∧ trace (broadcast_room room_id message exclude s) = trace s
  ∧ rooms (mgr (broadcast_room room_id message exclude s)) = rooms (mgr s)
  ∧ lobby_clients (mgr (broadcast_room room_id message exclude s))
    = lobby_clients (mgr s)
  ∧ deletion_timers (mgr (broadcast_room room_id message exclude s))
    = deletion_timers (mgr s)
  ∧ loop (broadcast_room room_id message exclude s) = loop s.
Proof.
  intros Hnone.
  assert (broadcast_room room_id message exclude s = s) as ->; [|done].
  unfold broadcast_room. by rewrite Hnone.
Qed.

(** C9: for [x] already in [rooms], two successive calls of
    [ensure_room(x)] return the same Room object, and the second call
    leaves the whole state (the trace of sends included) as it was. *)
Theorem ensure_room_twice_same_room (s : State) (x : string) (r : RoomRef) :
  rooms (mgr s) !! x = Some r →
  (ensure_room x s).1 = Ok r
  ∧ (ensure_room x (ensure_room x s).2).1 = Ok r
  ∧ (ensure_room x (ensure_room x s).2).2 = (ensure_room x s).2
  ∧ trace (ensure_room x (ensure_room x s).2).2 = trace (ensure_room x s).2.
Proof.
  intros Hx.
  assert (ensure_room x s = (Ok r, s)) as Hcall.
  { unfold ensure_room. by rewrite Hx. }
  rewrite !Hcall. simpl. rewrite !Hcall. done.
Qed.

(** ** Fan-out *)

Lemma io_only_refl (s : State) : io_only s s [].
Proof. unfold io_only. by rewrite app_nil_r. Qed.

Lemma io_only_trans (s1 s2 s3 : State) (e1 e2 : list Event) :
  io_only s1 s2 e1 → io_only s2 s3 e2 → io_only s1 s3 (e1 ++ e2).
Proof.
  intros (Hm1 & Hh1 & Hl1 & Hn1 & Ht1) (Hm2 & Hh2 & Hl2 & Hn2 & Ht2).
  unfold io_only. rewrite Hm2, Hh2, Hl2, Hn2, Ht2, Ht1, app_assoc. done.
Qed.

Lemma attempts_app (e1 e2 : list Event) :
  attempts (e1 ++ e2) = attempts e1 ++ attempts e2.
Proof.
  induction e1 as [|[ws m ok|ws] e1 IH]; simpl; [done| |done].
  by rewrite IH.
Qed.

Lemma all_carry_app (message : string) (e1 e2 : list Event) :
  all_carry message e1 → all_carry message e2 → all_carry message (e1 ++ e2).
Proof. unfold all_carry. apply Forall_app_2. Qed.

Lemma elem_of_failed (ws : WebSocket) (evs : list Event) :
  ws ∈ failed evs ↔ (ws, false) ∈ attempts evs.
Proof.
  unfold failed. split.
  - intros Hin. apply list_elem_of_fmap in Hin as ([ws' ok] & -> & Hin).
    apply list_elem_of_filter in Hin as [Hok Hin]. simpl in *. by subst.
  - intros Hin. apply list_elem_of_fmap. exists (ws, false). split; [done|].
    by apply list_elem_of_filter.
Qed.

Lemma elem_of_delivered (ws : WebSocket) (evs : list Event) :
  ws ∈ delivered evs ↔ (ws, true) ∈ attempts evs.
Proof.
  unfold delivered. split.
  - intros Hin. apply list_elem_of_fmap in Hin as ([ws' ok] & -> & Hin).
    apply list_elem_of_filter in Hin as [Hok Hin]. simpl in *. by subst.
  - intros Hin. apply list_elem_of_fmap. exists (ws, true). split; [done|].
    by apply list_elem_of_filter.
Qed.

(** One guarded send: one attempt on [ws], whatever its outcome, and the
    outcome is what is returned. *)
Lemma safe_send_text_spec (ws : WebSocket) (message : string) (s : State) :
  ∃ evs,
    io_only s (safe_send_text ws message s).2 evs
    ∧ all_carry message evs
    ∧ attempts evs = [(ws, (safe_send_text ws message s).1)].
Proof.
  unfold safe_send_text.
  destruct (send_text ws message (world s)) as [[|] w]; simpl.
  - exists [EvSend ws message true]. repeat split.
    by repeat constructor.
  - exists [EvSend ws message false; EvClose ws]. repeat split.
    by repeat constructor.
Qed.

Lemma gather_spec (sockets : list WebSocket) (message : string) (s : State) :
  ∃ evs,
    io_only s (gather sockets message s).2 evs
    ∧ all_carry message evs
    ∧ (attempts evs).*1 = sockets
    ∧ (gather sockets message s).1 = (λ a, GValue a.2) <$> attempts evs.
Proof.
  revert s. induction sockets as [|ws rest IH]; intros s; simpl.
  - exists []. split; [apply io_only_refl|]. by repeat split; try constructor.
  - destruct (safe_send_text_spec ws message s) as (e1 & Hio1 & Hc1 & Ha1).
    destruct (safe_send_text ws message s) as [res s1]; simpl in *.
    destruct (IH s1) as (e2 & Hio2 & Hc2 & Ha2 & Hres).
    destruct (gather rest message s1) as [results s2]; simpl in *.
    exists (e1 ++ e2). split; [by eapply io_only_trans|].
    split; [by apply all_carry_app|].
    rewrite attempts_app, Ha1. cbn [app fmap list_fmap fst snd].
    change (list_fmap _ _ fst (attempts e2)) with ((attempts e2).*1).
    by rewrite Ha2, Hres.
Qed.

(** Filtering the gathered results for staleness selects the attempts
    that failed. *)
Lemma stale_of_attempts (A : list (WebSocket * bool)) :
  (filter (λ p, is_stale p.2 = true) (zip A.*1 ((λ a, GValue a.2) <$> A))).*1
  = (filter (λ a, a.2 = false) A).*1.
Proof.
  induction A as [|[ws ok] A IH]; [done|].
  rewrite !fmap_cons. cbn [zip zip_with fst snd].
  rewrite !filter_cons. cbn [fst snd].
  destruct ok; simpl; [apply IH|].
  f_equal. apply IH.
Qed.

Lemma send_multi_spec (targets : list WebSocket) (message : string) (s : State) :
  ∃ evs,
    io_only s (send_multi targets message s).2 evs
    ∧ all_carry message evs
    ∧ (attempts evs).*1 = targets
    ∧ (send_multi targets message s).1 = failed evs.
Proof.
  destruct targets as [|ws rest].
  - exists []. simpl. split; [apply io_only_refl|].
    by repeat split; try constructor.
  - unfold send_multi.
    destruct (gather_spec (ws :: rest) message s) as (evs & Hio & Hc & Ha & Hres).
    destruct (gather (ws :: rest) message s) as [results s1]. simpl in Hio, Hres.
    exists evs. cbn [fst snd]. do 3 (split; [done|]).
    rewrite Hres, <- Ha. apply stale_of_attempts.
Qed.

(** The recorded run of a guarded send is what the network did. *)
Lemma replay_app (w : World) (e1 e2 : list Event) :
  replay w (e1 ++ e2) = replay w e1 ≫= λ w1, replay w1 e2.
Proof.
  revert w. induction e1 as [|[ws m ok|ws] e1 IH]; intros w; simpl; [done| |].
  - destruct (send_text ws m w) as [ok' w1].
    by destruct (bool_decide (ok' = ok)).
  - apply IH.
Qed.

Lemma safe_send_text_replay (ws : WebSocket) (message : string) (s : State) :
  ∃ evs,
    trace (safe_send_text ws message s).2 = trace s ++ evs
    ∧ replay (world s) evs = Some (world (safe_send_text ws message s).2).
Proof.
  unfold safe_send_text.
  destruct (send_text ws message (world s)) as [[|] w] eqn:Hsend; simpl.
  - exists [EvSend ws message true]. split; [done|]. simpl. by rewrite Hsend.
  - exists [EvSend ws message false; EvClose ws]. split; [done|]. simpl.
    by rewrite Hsend.
Qed.

Lemma gather_replay (sockets : list WebSocket) (message : string) (s : State) :
  ∃ evs,
    trace (gather sockets message s).2 = trace s ++ evs
    ∧ replay (world s) evs = Some (world (gather sockets message s).2).
Proof.
  revert s. induction sockets as [|ws rest IH]; intros s; simpl.
  - exists []. by rewrite app_nil_r.
  - destruct (safe_send_text_replay ws message s) as (e1 & Ht1 & Hr1).
    destruct (safe_send_text ws message s) as [res s1]; simpl in *.
    destruct (IH s1) as (e2 & Ht2 & Hr2).
    destruct (gather rest message s1) as [results s2]; simpl in *.
    exists (e1 ++ e2). rewrite Ht2, Ht1, app_assoc. split; [done|].
    rewrite replay_app, Hr1. simpl. done.
Qed.

Lemma send_multi_replay (targets : list WebSocket) (message : string) (s : State) :
  ∃ evs,
    trace (send_multi targets message s).2 = trace s ++ evs
    ∧ replay (world s) evs = Some (world (send_multi targets message s).2).
Proof.
  destruct targets as [|ws rest].
  - exists []. simpl. by rewrite app_nil_r.
  - unfold send_multi.
    destruct (gather_replay (ws :: rest) message s) as (evs & Ht & Hr).
    destruct (gather (ws :: rest) message s) as [results s1]. by exists evs.
Qed.

(** In a replayed run every recorded outcome is an answer of
    [send_text]. *)
Lemma replay_attempt (w w' : World) (evs : list Event) (message : string)
    (ws : WebSocket) (ok : bool) :
  replay w evs = Some w' →
  all_carry message evs →
  (ws, ok) ∈ attempts evs →
  ∃ w1 w2, send_text ws message w1 = (ok, w2).
Proof.
  revert w. induction evs as [|[ws0 m ok0|ws0] evs IH]; intros w Hr Hc Hin;
    simpl in *.
  - by apply elem_of_nil in Hin.
  - apply Forall_cons in Hc as [-> Hc].
    destruct (send_text ws0 message w) as [ok' w1] eqn:Hsend.
    destruct (bool_decide (ok' = ok0)) eqn:Hok; [|done].
    apply bool_decide_eq_true in Hok. subst ok'.
    apply elem_of_cons in Hin as [[= -> ->]|Hin]; [by exists w, w1|].
    by apply (IH w1).
  - apply Forall_cons in Hc as [_ Hc]. by apply (IH (close ws0 w)).
Qed.

(** C5: [send_multi] attempts one send per given connection, in the
    order given and whatever the outcome of the other sends, and returns
    exactly the connections whose own send failed; it touches nothing
    but the network.  The recorded outcomes are the answers of
    [send_text]: with the fan-out run without interruption, replaying
    the network along the recorded run leads from the environment before
    the call to the environment after it. *)
Theorem send_multi_returns_exactly_failed (targets : list WebSocket)
    (message : string) (s : State) :
  ∃ evs,
    io_only s (send_multi targets message s).2 evs
    ∧ replay (world s) evs = Some (world (send_multi targets message s).2)
    ∧ all_carry message evs
    ∧ (attempts evs).*1 = targets
    ∧ (send_multi targets message s).1 = failed evs
    ∧ (∀ ws, ws ∈ (send_multi targets message s).1
             ↔ (ws, false) ∈ attempts evs)
    ∧ (∀ ws ok, (ws, ok) ∈ attempts evs →
                ∃ w w', send_text ws message w = (ok, w')).
Proof.
  destruct (send_multi_spec targets message s) as (evs & H1 & H2 & H3 & H4).
  destruct (send_multi_replay targets message s) as (evs' & Ht & Hr).
  assert (evs' = evs) as ->.
  { destruct H1 as (_ & _ & _ & _ & Ht'). rewrite Ht' in Ht.
    by apply app_inv_head in Ht. }
  exists evs. do 5 (split; [done|]). split.
  - intros ws. rewrite H4. apply elem_of_failed.
  - intros ws ok Hin. by eapply replay_attempt.
Qed.

(** ** Room broadcast *)

Lemma conns_pop_connection (r : RoomRef) (s : State) (ws : WebSocket) :
  conns r (pop_connection r s ws) = Dict.pop ws (conns r s).
Proof.
  unfold conns, pop_connection. simpl. rewrite lookup_alter_eq.
  by destruct (heap s !! r).
Qed.

Lemma heap_pop_connection_ne (r r' : RoomRef) (s : State) (ws : WebSocket) :
  r' ≠ r → heap (pop_connection r s ws) !! r' = heap s !! r'.
Proof. intros Hne. unfold pop_connection. simpl. by rewrite lookup_alter_ne. Qed.

(** [for ws in stale: r.connections.pop(ws, None)] *)
Lemma pop_connections_spec (r : RoomRef) (stale : list WebSocket) (s : State) :
  mgr (foldl (pop_connection r) s stale) = mgr s
  ∧ loop (foldl (pop_connection r) s stale) = loop s
  ∧ next_handle (foldl (pop_connection r) s stale) = next_handle s
  ∧ world (foldl (pop_connection r) s stale) = world s
  ∧ trace (foldl (pop_connection r) s stale) = trace s
  ∧ conns r (foldl (pop_connection r) s stale)
    = filter (λ kv, kv.1 ∉ stale) (conns r s)
  ∧ (∀ r', r' ≠ r → heap (foldl (pop_connection r) s stale) !! r' = heap s !! r').
Proof.
  revert s. induction stale as [|ws rest IH]; intros s; simpl.
  - do 5 (split; [done|]). split; [|done].
    induction (conns r s) as [|kv l IHl]; [done|].
    rewrite filter_cons_True by apply not_elem_of_nil. by rewrite <- IHl.
  - destruct (IH (pop_connection r s ws)) as (Hm & Hl & Hn & Hw & Ht & Hc & Hh).
    rewrite Hm, Hl, Hn, Hw, Ht, Hc. do 5 (split; [done|]). split.
    + rewrite conns_pop_connection. unfold Dict.pop.
      rewrite list_filter_filter. apply list_filter_iff. intros kv.
      rewrite not_elem_of_cons. tauto.
    + intros r' Hne. rewrite Hh by done. by apply heap_pop_connection_ne.
Qed.

(** What one call of [broadcast_room] on an existing room does. *)
Lemma broadcast_room_spec (s : State) (room_id message : string)
    (exclude : option WebSocket) (r : RoomRef) :
  rooms (mgr s) !! room_id = Some r →
  ∃ evs,
    trace (broadcast_room room_id message exclude s) = trace s ++ evs
    ∧ all_carry message evs
    ∧ (attempts evs).*1
      = filter (λ c, exclude ≠ Some c) (Dict.keys (conns r s))
    ∧ conns r (broadcast_room room_id message exclude s)
      = filter (λ kv, kv.1 ∉ failed evs) (conns r s)
    ∧ (∀ r', r' ≠ r →
         heap (broadcast_room room_id message exclude s) !! r' = heap s !! r')
    ∧ lobby_id (mgr (broadcast_room room_id message exclude s)) = lobby_id (mgr s)
    ∧ rooms (mgr (broadcast_room room_id message exclude s)) = rooms (mgr s)
    ∧ lobby_clients (mgr (broadcast_room room_id message exclude s))
      = lobby_clients (mgr s)
    ∧ deletion_delay (mgr (broadcast_room room_id message exclude s))
      = deletion_delay (mgr s)
    ∧ ((deletion_timers (mgr (broadcast_room room_id message exclude s))
          = deletion_timers (mgr s)
        ∧ loop (broadcast_room room_id message exclude s) = loop s
        ∧ next_handle (broadcast_room room_id message exclude s) = next_handle s
        ∧ ¬ (conns r (broadcast_room room_id message exclude s) = []
             ∧ room_id ≠ lobby_id (mgr s)
             ∧ deletion_timers (mgr s) !! room_id = None))
       ∨ (conns r (broadcast_room room_id message exclude s) = []
          ∧ room_id ≠ lobby_id (mgr s)
          ∧ deletion_timers (mgr s) !! room_id = None
          ∧ deletion_timers (mgr (broadcast_room room_id message exclude s))
            = <[room_id := next_handle s]> (deletion_timers (mgr s))
          ∧ loop (broadcast_room room_id message exclude s)
            = loop s ++ [mkTimer (next_handle s) (deletion_delay (mgr s)) room_id]
          ∧ next_handle (broadcast_room room_id message exclude s)
            = S (next_handle s))).
Proof.
  intros Hr. unfold broadcast_room. rewrite Hr.
  destruct (send_multi_spec
              (filter (λ c, exclude ≠ Some c) (Dict.keys (conns r s))) message s)
    as (evs & (Hm1 & Hh1 & Hl1 & Hn1 & Ht1) & Hc & Ha & Hst).
  destruct (send_multi _ message s) as [stale s1]. simpl in *. subst stale.
  destruct (pop_connections_spec r (failed evs) s1)
    as (Hm2 & Hl2 & Hn2 & Hw2 & Ht2 & Hc2 & Hh2).
  assert (conns r s1 = conns r s) as Hcs by (unfold conns; by rewrite Hh1).
  rewrite Hcs in Hc2.
  set (s2 := foldl (pop_connection r) s1 (failed evs)) in *.
  exists evs.
  destruct (bool_decide (conns r s2 = [])) eqn:Hempty; simpl;
    [destruct (bool_decide (room_id ≠ lobby_id (mgr s2))) eqn:Hlobby; simpl;
      [destruct (bool_decide (is_Some (deletion_timers (mgr s2) !! room_id)))
         eqn:Htimer; simpl|]|].
  all: rewrite ?Ht2, ?Ht1, ?Hm2, ?Hm1, ?Hl2, ?Hl1, ?Hn2, ?Hn1.
  all: do 3 (split; [done|]).
  all: split; [exact Hc2|].
  all: split; [intros r' Hne; rewrite Hh2 by done; by rewrite Hh1|].
  all: do 4 (split; [done|]).
  - left. do 3 (split; [done|]). intros (_ & _ & Hnone).
    apply bool_decide_eq_true in Htimer. rewrite Hm2, Hm1, Hnone in Htimer.
    by destruct Htimer.
  - right. apply bool_decide_eq_true in Hempty, Hlobby.
    apply bool_decide_eq_false in Htimer. rewrite Hm2, Hm1 in Hlobby, Htimer.
    split; [exact Hempty|]. split; [done|].
    split; [by apply eq_None_not_Some|]. done.
  - left. do 3 (split; [done|]). intros (_ & Hne & _).
    apply bool_decide_eq_false in Hlobby. rewrite Hm2, Hm1 in Hlobby. done.
  - left. do 3 (split; [done|]). intros (He & _).
    apply bool_decide_eq_false in Hempty. done.
Qed.

Lemma NoDup_fst_functional {A B : Type} (l : list (A * B)) (x : A) (y1 y2 : B) :
  NoDup l.*1 → (x, y1) ∈ l → (x, y2) ∈ l → y1 = y2.
Proof.
  induction l as [|[a b] l IH]; intros Hnd H1 H2.
  - by apply elem_of_nil in H1.
  - rewrite fmap_cons in Hnd. apply NoDup_cons in Hnd as [Hnotin Hnd].
    apply elem_of_cons in H1 as [H1|H1], H2 as [H2|H2]; simplify_eq.
    + done.
    + destruct Hnotin. by apply (list_elem_of_fmap_2 fst) in H2.
    + destruct Hnotin. by apply (list_elem_of_fmap_2 fst) in H1.
    + by apply IH.
Qed.

Lemma attempt_outcome (ws : WebSocket) (evs : list Event) :
  ws ∈ (attempts evs).*1 → ws ∈ delivered evs ∨ ws ∈ failed evs.
Proof.
  intros Hin. apply list_elem_of_fmap in Hin as ([ws' [|]] & -> & Hin).
  - left. by apply elem_of_delivered.
  - right. by apply elem_of_failed.
Qed.

Lemma failed_attempted (ws : WebSocket) (evs : list Event) :
  ws ∈ failed evs → ws ∈ (attempts evs).*1.
Proof.
  intros Hin. apply elem_of_failed in Hin.
  by apply (list_elem_of_fmap_2 fst) in Hin.
Qed.

(** C1: after [broadcast_room] on an existing room whose registry is a
    dict, every connection of the registry that was excluded from the
    fan-out or whose send succeeded is still a key of the registry, and
    every connection whose send failed is no longer one.  Every
    connection that was not excluded got exactly one send. *)
Theorem broadcast_room_keeps_delivered_drops_failed (s : State)
    (room_id message : string) (exclude : option WebSocket) (r : RoomRef) :
  rooms (mgr s) !! room_id = Some r →
  Dict.wf (conns r s) →
  ∃ evs,
    trace (broadcast_room room_id message exclude s) = trace s ++ evs
    ∧ all_carry message evs
    ∧ rooms (mgr (broadcast_room room_id message exclude s)) !! room_id = Some r
    ∧ (attempts evs).*1
      = filter (λ c, exclude ≠ Some c) (Dict.keys (conns r s))
    ∧ conns r (broadcast_room room_id message exclude s)
      = filter (λ kv, kv.1 ∉ failed evs) (conns r s)
    ∧ ∀ ws, ws ∈ Dict.keys (conns r s) →
        (exclude = Some ws ∨ ws ∈ delivered evs ∨ ws ∈ failed evs)
        ∧ (exclude = Some ws ∨ ws ∈ delivered evs →
             ws ∈ Dict.keys (conns r (broadcast_room room_id message exclude s)))
        ∧ (ws ∈ failed evs →
             ws ∉ Dict.keys (conns r (broadcast_room room_id message exclude s))).
Proof.
  intros Hr Hwf.
  destruct (broadcast_room_spec s room_id message exclude r Hr)
    as (evs & Ht & Hcarry & Ha & Hc & _ & _ & Hrooms & _).
  exists evs. do 2 (split; [done|]). split; [by rewrite Hrooms|].
  do 2 (split; [done|]).
  assert (NoDup (attempts evs).*1) as Hnd.
  { rewrite Ha. by apply NoDup_filter. }
  intros ws Hin. rewrite Hc. unfold Dict.keys in *.
  assert (ws ∉ failed evs → ws ∈ (filter (λ kv, kv.1 ∉ failed evs) (conns r s)).*1)
    as Hkept.
  { intros Hnf. apply list_elem_of_fmap in Hin as ([ws' name] & -> & Hin).
    apply list_elem_of_fmap. exists (ws', name). split; [done|].
    by apply list_elem_of_filter. }
  split; [|split].
  - destruct (decide (exclude = Some ws)) as [|Hne]; [by left|right].
    apply attempt_outcome. rewrite Ha. by apply list_elem_of_filter.
  - intros [Hex|Hdel]; apply Hkept; intros Hf.
    + apply failed_attempted in Hf. rewrite Ha in Hf.
      by apply list_elem_of_filter in Hf as [Hf _].
    + apply elem_of_delivered in Hdel. apply elem_of_failed in Hf.
      by pose proof (NoDup_fst_functional _ _ _ _ Hnd Hdel Hf).
  - intros Hf Hkey. apply list_elem_of_fmap in Hkey as ([ws' name] & -> & Hkey).
    by apply list_elem_of_filter in Hkey as [Hkey _].
Qed.

(** ** Room directory *)

Lemma elem_of_list_rooms (m : RoomManager) (x : string) :
  x ∈ list_rooms m ↔ x ≠ lobby_id m ∧ is_Some (rooms m !! x).
Proof.
  unfold list_rooms. rewrite merge_sort_Permutation.
  rewrite list_elem_of_filter, list_elem_of_fmap.
  split.
  - intros [Hne ([k r] & -> & Hin)]. split; [done|].
    apply elem_of_map_to_list in Hin. by eexists.
  - intros [Hne [r Hr]]. split; [done|].
    exists (x, r). split; [done|]. by apply elem_of_map_to_list.
Qed.

Lemma list_rooms_sorted (m : RoomManager) : Sorted String.le (list_rooms m).
Proof. unfold list_rooms. apply (Sorted_merge_sort String.le). Qed.

(** [for ws in stale: self.lobby_clients.discard(ws)] *)
Lemma discard_lobby_clients_spec (stale : list WebSocket) (s : State) :
  lobby_id (mgr (foldl discard_lobby_client s stale)) = lobby_id (mgr s)
  ∧ rooms (mgr (foldl discard_lobby_client s stale)) = rooms (mgr s)
  ∧ deletion_timers (mgr (foldl discard_lobby_client s stale))
    = deletion_timers (mgr s)
  ∧ deletion_delay (mgr (foldl discard_lobby_client s stale))
    = deletion_delay (mgr s)
  ∧ heap (foldl discard_lobby_client s stale) = heap s
  ∧ loop (foldl discard_lobby_client s stale) = loop s
  ∧ next_handle (foldl discard_lobby_client s stale) = next_handle s
  ∧ trace (foldl discard_lobby_client s stale) = trace s
  ∧ lobby_clients (mgr (foldl discard_lobby_client s stale))
    = lobby_clients (mgr s) ∖ list_to_set stale.
Proof.
  revert s. induction stale as [|ws rest IH]; intros s; cbn [foldl].
  - do 8 (split; [done|]). by rewrite list_to_set_nil, difference_empty_L.
  - destruct (IH (discard_lobby_client s ws))
      as (H1 & H2 & H3 & H4 & H5 & H6 & H7 & H8 & H9).
    rewrite H1, H2, H3, H4, H5, H6, H7, H8, H9.
    do 8 (split; [done|]). cbn [discard_lobby_client set_mgr mgr
      set_lobby_clients lobby_clients].
    by rewrite list_to_set_cons, difference_difference_l_L.
Qed.

(** What one call of [broadcast_rooms] does: the directory of the
    moment goes to every lobby subscriber, and the subscribers whose
    send failed are dropped. *)
Lemma broadcast_rooms_spec (s : State) :
  ∃ evs,
    trace (broadcast_rooms s) = trace s ++ evs
    ∧ all_carry (jd (PRooms (list_rooms (mgr s)))) evs
    ∧ (attempts evs).*1 = elements (lobby_clients (mgr s))
    ∧ lobby_clients (mgr (broadcast_rooms s))
      = lobby_clients (mgr s) ∖ list_to_set (failed evs)
    ∧ lobby_id (mgr (broadcast_rooms s)) = lobby_id (mgr s)
    ∧ rooms (mgr (broadcast_rooms s)) = rooms (mgr s)
    ∧ deletion_timers (mgr (broadcast_rooms s)) = deletion_timers (mgr s)
    ∧ deletion_delay (mgr (broadcast_rooms s)) = deletion_delay (mgr s)
    ∧ heap (broadcast_rooms s) = heap s
    ∧ loop (broadcast_rooms s) = loop s
    ∧ next_handle (broadcast_rooms s) = next_handle s.
Proof.
  unfold broadcast_rooms.
  destruct (send_multi_spec (elements (lobby_clients (mgr s)))
              (jd (PRooms (list_rooms (mgr s)))) s)
    as (evs & (Hm & Hh & Hl & Hn & Ht) & Hc & Ha & Hst).
  destruct (send_multi _ _ s) as [stale s1]. simpl in *. subst stale.
  destruct (discard_lobby_clients_spec (failed evs) s1)
    as (H1 & H2 & H3 & H4 & H5 & H6 & H7 & H8 & H9).
  exists evs. rewrite H1, H2, H3, H4, H5, H6, H7, H8, H9, Hm, Hh, Hl, Hn, Ht.
  done.
Qed.

(** ** Deferred deletion *)

Lemma forget_timer_spec (room_id : string) (s : State) :
  deletion_timers (mgr (forget_timer room_id s))
  = delete room_id (deletion_timers (mgr s))
  ∧ lobby_id (mgr (forget_timer room_id s)) = lobby_id (mgr s)
  ∧ rooms (mgr (forget_timer room_id s)) = rooms (mgr s)
  ∧ lobby_clients (mgr (forget_timer room_id s)) = lobby_clients (mgr s)
  ∧ heap (forget_timer room_id s) = heap s
  ∧ loop (forget_timer room_id s) = loop s
  ∧ trace (forget_timer room_id s) = trace s.
Proof.
  unfold forget_timer. case_bool_decide as Hin; simpl; [done|].
  split; [|done]. symmetry. apply delete_id. by apply eq_None_not_Some.
Qed.

Lemma delete_spec (room_id : string) (s : State) :
  room_id ≠ lobby_id (mgr s) →
  rooms (mgr (delete_ room_id s)) = delete room_id (rooms (mgr s))
  ∧ lobby_id (mgr (delete_ room_id s)) = lobby_id (mgr s)
  ∧ deletion_timers (mgr (delete_ room_id s)) = deletion_timers (mgr s)
  ∧ lobby_clients (mgr (delete_ room_id s)) = lobby_clients (mgr s)
  ∧ heap (delete_ room_id s) = heap s
  ∧ loop (delete_ room_id s) = loop s
  ∧ trace (delete_ room_id s) = trace s.
Proof.
  intros Hne. unfold delete_. rewrite bool_decide_eq_true_2 by done. simpl.
  case_bool_decide as Hin; simpl; [done|].
  split; [|done]. symmetry. apply delete_id. by apply eq_None_not_Some.
Qed.

(** C2: when the pending timer of a non-lobby room fires, the three
    statements of [_delayed_delete] take effect in this order: first the
    record of the room leaves [deletion_timers] (with [rooms] and the
    trace untouched), then the room identifier leaves [rooms] whatever
    the registry of the room holds (nothing is sent yet), then the
    directory, which no longer lists the room, is sent to every lobby
    subscriber. *)
Theorem timer_fire_order (s : State) (i : nat) (t : Timer) :
  loop s !! i = Some t →
  t_room t ≠ lobby_id (mgr s) →
  fire i s = _delayed_delete_upto 3 (t_room t) (dequeue i s)
  ∧ (deletion_timers (mgr (_delayed_delete_upto 1 (t_room t) (dequeue i s)))
       = delete (t_room t) (deletion_timers (mgr s))
     ∧ rooms (mgr (_delayed_delete_upto 1 (t_room t) (dequeue i s)))
       = rooms (mgr s)
     ∧ trace (_delayed_delete_upto 1 (t_room t) (dequeue i s)) = trace s)
  ∧ (deletion_timers (mgr (_delayed_delete_upto 2 (t_room t) (dequeue i s)))
       = delete (t_room t) (deletion_timers (mgr s))
     ∧ rooms (mgr (_delayed_delete_upto 2 (t_room t) (dequeue i s)))
       = delete (t_room t) (rooms (mgr s))
     ∧ heap (_delayed_delete_upto 2 (t_room t) (dequeue i s)) = heap s
     ∧ trace (_delayed_delete_upto 2 (t_room t) (dequeue i s)) = trace s)
  ∧ (∃ evs,
       trace (fire i s) = trace s ++ evs
       ∧ all_carry
           (jd (PRooms (list_rooms
                          (mgr (_delayed_delete_upto 2 (t_room t) (dequeue i s))))))
           evs
       ∧ (attempts evs).*1 = elements (lobby_clients (mgr s))
       ∧ (t_room t
          ∉ list_rooms (mgr (_delayed_delete_upto 2 (t_room t) (dequeue i s))))
       ∧ deletion_timers (mgr (fire i s))
         = delete (t_room t) (deletion_timers (mgr s))
       ∧ rooms (mgr (fire i s)) = delete (t_room t) (rooms (mgr s))
       ∧ loop (fire i s) = delete i (loop s)).
Proof.
  intros Hi Hne.
  assert (fire i s = _delayed_delete_upto 3 (t_room t) (dequeue i s)) as Hfire.
  { unfold fire. by rewrite Hi. }
  set (s0 := dequeue i s) in *.
  destruct (forget_timer_spec (t_room t) s0) as (F1 & F2 & F3 & F4 & F5 & F6 & F7).
  assert (t_room t ≠ lobby_id (mgr (forget_timer (t_room t) s0))) as Hne'
    by (by rewrite F2).
  destruct (delete_spec (t_room t) (forget_timer (t_room t) s0) Hne')
    as (D1 & D2 & D3 & D4 & D5 & D6 & D7).
  destruct (broadcast_rooms_spec (delete_ (t_room t) (forget_timer (t_room t) s0)))
    as (evs & B1 & B2 & B3 & B4 & B5 & B6 & B7 & B8 & B9 & B10 & B11).
  split; [done|]. rewrite Hfire.
  unfold _delayed_delete_upto, _delayed_delete_body. cbn [take foldl].
  split; [done|]. split.
  { rewrite D1, D3, D5, D7, F1, F3, F5, F7. done. }
  exists evs. rewrite B1, B7, B6, B10, D1, D3, D6, D7, F1, F3, F6, F7.
  do 2 (split; [done|]). split; [by rewrite B3, D4, F4|].
  split; [|done].
  rewrite elem_of_list_rooms, D1, F3. intros [_ [r Hr]].
  by rewrite lookup_delete_eq in Hr.
Qed.

(** ** Departure *)



Lemma keys_filter_subseteq {V : Type} (P : WebSocket * V → Prop)
    `{!∀ kv, Decision (P kv)} (d : list (WebSocket * V)) (c : WebSocket) :
  c ∈ Dict.keys (filter P d) → c ∈ Dict.keys d.
Proof.
  unfold Dict.keys. intros Hin.
  apply list_elem_of_fmap in Hin as (kv & -> & Hin).
  apply list_elem_of_filter in Hin as [_ Hin].
  by apply list_elem_of_fmap_2.
Qed.


Lemma broadcast_rooms_conns (r : RoomRef) (s : State) :
  conns r (broadcast_rooms s) = conns r s.
Proof.
  destruct (broadcast_rooms_spec s) as (evs & _ & _ & _ & _ & _ & _ & _ & _ & Hh & _).
  unfold conns. by rewrite Hh.
Qed.


(** ** Invariants of the reachable states *)

Lemma extends_same_mgr (s s' : State) : mgr s' = mgr s → extends s s'.
Proof. intros Hm. unfold extends. rewrite Hm. auto. Qed.

Lemma extends_refl (s : State) : extends s s.
Proof. by apply extends_same_mgr. Qed.

Lemma extends_trans (s1 s2 s3 : State) :
  extends s1 s2 → extends s2 s3 → extends s1 s3.
Proof.
  intros (Hl1 & Hr1 & Ht1) (Hl2 & Hr2 & Ht2). split; [congruence|]. split.
  - auto.
  - intros k Hk. destruct (Ht2 k Hk) as [Hk2|]; [|by right].
    destruct (Ht1 k Hk2); auto.
Qed.

Lemma extends_invariant (s s' : State) :
  extends s s' → timers_within_rooms s → timers_within_rooms s'.
Proof.
  intros (_ & Hr & Ht) Hinv k Hk. destruct (Ht k Hk); auto.
Qed.

Lemma broadcast_rooms_extends (s : State) : extends s (broadcast_rooms s).
Proof.
  destruct (broadcast_rooms_spec s)
    as (evs & _ & _ & _ & _ & Hlobby & Hrooms & Htimers & _).
  unfold extends. rewrite Hlobby, Hrooms, Htimers. auto.
Qed.

Lemma broadcast_room_extends (s : State) (room_id message : string)
    (exclude : option WebSocket) :
  extends s (broadcast_room room_id message exclude s).
Proof.
  destruct (rooms (mgr s) !! room_id) as [r|] eqn:Hr.
  - destruct (broadcast_room_spec s room_id message exclude r Hr)
      as (evs & _ & _ & _ & _ & _ & Hlobby & Hrooms & _ & _ & Hcases).
    unfold extends. rewrite Hlobby, Hrooms. do 2 (split; [auto|]).
    intros k Hk. destruct Hcases as [(Ht & _)|(_ & _ & _ & Ht & _)].
    + left. by rewrite <- Ht.
    + rewrite Ht in Hk. destruct (decide (k = room_id)) as [->|Hne].
      * right. by eexists.
      * left. by rewrite lookup_insert_ne in Hk.
  - unfold broadcast_room. rewrite Hr. apply extends_refl.
Qed.

Lemma create_extends (room_id : string) (s : State) :
  extends s (create room_id s).2.
Proof.
  unfold create.
  destruct (bool_decide (room_id = lobby_id (mgr s))
            || bool_decide (is_Some (rooms (mgr s) !! room_id))); simpl.
  - apply extends_refl.
  - unfold extends. simpl. split; [done|]. split; [|auto].
    intros k Hk. destruct (decide (k = room_id)) as [->|Hne].
    + rewrite lookup_insert_eq. by eexists.
    + by rewrite lookup_insert_ne.
Qed.

Lemma ensure_room_extends (room_id : string) (s : State) :
  extends s (ensure_room room_id s).2.
Proof.
  unfold ensure_room.
  destruct (rooms (mgr s) !! room_id) as [r|] eqn:Hr; [apply extends_refl|].
  destruct (decide (room_id = lobby_id (mgr s))) as [->|Hne]; simpl.
  - unfold extends. simpl. split; [done|]. split; [|auto].
    intros k Hk. destruct (decide (k = lobby_id (mgr s))) as [->|Hne].
    + rewrite lookup_insert_eq. by eexists.
    + by rewrite lookup_insert_ne.
  - pose proof (create_extends room_id s) as Hc.
    destruct (create room_id s) as [b s1]. simpl in *.
    eapply extends_trans; [exact Hc|]. apply broadcast_rooms_extends.
Qed.

Lemma user_left_extends (room_id : string) (ws : WebSocket) (username : string)
    (s : State) :
  extends s (user_left room_id ws username s).
Proof.
  unfold user_left.
  destruct (rooms (mgr s) !! room_id) as [r|]; [|apply extends_refl].
  eapply extends_trans; [apply (extends_same_mgr s (pop_connection r s ws)); done|].
  unfold announce_status, announce_users.
  case_bool_decide.
  - eapply extends_trans; [apply broadcast_room_extends|].
    eapply extends_trans; [apply broadcast_room_extends|].
    apply broadcast_rooms_extends.
  - apply broadcast_room_extends.
Qed.

Lemma join_extends (room_id : string) (ws : WebSocket) (username : string)
    (s : State) :
  extends s (join room_id ws username s).
Proof.
  unfold join. pose proof (ensure_room_extends room_id s) as He.
  destruct (ensure_room room_id s) as [[r|k] s1]; simpl in *; [|done].
  eapply extends_trans; [exact He|]. by apply extends_same_mgr.
Qed.

(** What [delete] does to the manager, in general. *)
Lemma delete_frame (room_id : string) (s : State) :
  lobby_id (mgr (delete_ room_id s)) = lobby_id (mgr s)
  ∧ deletion_timers (mgr (delete_ room_id s)) = deletion_timers (mgr s)
  ∧ ∀ k, k ≠ room_id →
      rooms (mgr (delete_ room_id s)) !! k = rooms (mgr s) !! k.
Proof.
  unfold delete_.
  destruct (bool_decide (room_id ≠ lobby_id (mgr s))
            && bool_decide (is_Some (rooms (mgr s) !! room_id))); simpl.
  - do 2 (split; [done|]). intros k Hk. by rewrite lookup_delete_ne.
  - done.
Qed.

Lemma delayed_delete_frame (room_id : string) (s : State) :
  lobby_id (mgr (_delayed_delete room_id s)) = lobby_id (mgr s)
  ∧ deletion_timers (mgr (_delayed_delete room_id s))
    = delete room_id (deletion_timers (mgr s))
  ∧ ∀ k, k ≠ room_id →
      rooms (mgr (_delayed_delete room_id s)) !! k = rooms (mgr s) !! k.
Proof.
  unfold _delayed_delete, _delayed_delete_upto, _delayed_delete_body.
  cbn [take foldl].
  destruct (forget_timer_spec room_id s) as (F1 & F2 & F3 & _).
  destruct (delete_frame room_id (forget_timer room_id s)) as (D1 & D2 & D3).
  destruct (broadcast_rooms_spec (delete_ room_id (forget_timer room_id s)))
    as (evs & _ & _ & _ & _ & B1 & B2 & B3 & _).
  rewrite B1, B2, B3, D1, D2, F1, F2. do 2 (split; [done|]).
  intros k Hk. by rewrite D3, F3.
Qed.

Lemma fire_frame (i : nat) (s : State) :
  lobby_id (mgr (fire i s)) = lobby_id (mgr s)
  ∧ (timers_within_rooms s → timers_within_rooms (fire i s)).
Proof.
  unfold fire. destruct (loop s !! i) as [t|]; [|done].
  destruct (delayed_delete_frame (t_room t) (dequeue i s)) as (Hl & Ht & Hr).
  split; [done|]. intros Hinv k Hk. rewrite Ht in Hk.
  destruct (decide (k = t_room t)) as [->|Hne].
  - rewrite lookup_delete_eq in Hk. by destruct Hk.
  - rewrite lookup_delete_ne in Hk by done. rewrite Hr by done. by apply Hinv.
Qed.

(** Every action other than an explicit [delete] and a timer firing
    only extends the manager. *)
Lemma run_extends (op : Op) (s : State) :
  is_delete op = false → is_fire op = false → extends s (run op s).
Proof.
  intros Hd Hf. destruct op; simpl in *; try done.
  - apply create_extends.
  - apply ensure_room_extends.
  - apply broadcast_room_extends.
  - apply broadcast_rooms_extends.
  - apply broadcast_room_extends.
  - apply broadcast_room_extends.
  - apply user_left_extends.
  - apply join_extends.
  - unfold extends. simpl. auto.
  - unfold extends. simpl. auto.
  - by apply extends_same_mgr.
Qed.

Lemma run_lobby_id (op : Op) (s : State) :
  lobby_id (mgr (run op s)) = lobby_id (mgr s).
Proof.
  destruct (is_delete op) eqn:Hd.
  - destruct op; try done. simpl. apply delete_frame.
  - destruct (is_fire op) eqn:Hf.
    + destruct op; try done. simpl. apply fire_frame.
    + by apply run_extends.
Qed.

Lemma run_timers_within_rooms (op : Op) (s : State) :
  is_delete op = false →
  timers_within_rooms s → timers_within_rooms (run op s).
Proof.
  intros Hd Hinv.
  destruct (is_fire op) eqn:Hf.
  - destruct op; try done. simpl. by apply fire_frame.
  - eapply extends_invariant; [|done]. by apply run_extends.
Qed.

Lemma reachable_lobby_id (allowed : Op → Prop) (s : State) :
  reachable allowed s → lobby_id (mgr s) = LOBBY_ID.
Proof.
  induction 1 as [w|op s Hs IH Hop]; [done|]. by rewrite run_lobby_id.
Qed.

(** ** Registries stay dicts *)

Lemma wf_filter {V : Type} (P : WebSocket * V → Prop)
    `{!∀ kv, Decision (P kv)} (d : list (WebSocket * V)) :
  Dict.wf d → Dict.wf (filter P d).
Proof.
  unfold Dict.wf, Dict.keys. induction d as [|[k v] d IH]; [done|].
  rewrite fmap_cons. intros [Hnotin Hnd]%NoDup_cons.
  rewrite filter_cons. destruct (decide (P (k, v))); [|by apply IH].
  rewrite fmap_cons. apply NoDup_cons. split; [|by apply IH].
  intros Hin. apply Hnotin. by apply (keys_filter_subseteq P).
Qed.

Lemma keys_set {V : Type} (k : WebSocket) (v : V) (d : list (WebSocket * V)) :
  Dict.keys (Dict.set k v d)
  = if bool_decide (k ∈ Dict.keys d) then Dict.keys d else Dict.keys d ++ [k].
Proof.
  unfold Dict.keys. induction d as [|[k' v'] d IH]; [done|].
  cbn [Dict.set]. destruct (decide (k' = k)) as [->|Hne].
  - rewrite !fmap_cons. cbn [fst].
    rewrite bool_decide_eq_true_2 by (apply elem_of_cons; by left). done.
  - rewrite !fmap_cons. cbn [fst]. rewrite IH. case_bool_decide as Hin.
    + rewrite bool_decide_eq_true_2 by (apply elem_of_cons; by right). done.
    + rewrite bool_decide_eq_false_2; [done|].
      intros [?|?]%elem_of_cons; [by destruct Hne|done].
Qed.

Lemma wf_set {V : Type} (k : WebSocket) (v : V) (d : list (WebSocket * V)) :
  Dict.wf d → Dict.wf (Dict.set k v d).
Proof.
  unfold Dict.wf. rewrite keys_set. case_bool_decide as Hin; [done|].
  intros Hnd. apply NoDup_app. split; [done|]. split.
  - intros x Hx ->%list_elem_of_singleton. done.
  - apply NoDup_singleton.
Qed.

Lemma registries_wf_same_heap (s s' : State) :
  heap s' = heap s → registries_wf s → registries_wf s'.
Proof. intros Hh Hwf r. unfold conns. rewrite Hh. apply Hwf. Qed.

Lemma new_Room_registries_wf (s : State) :
  registries_wf s → registries_wf (new_Room s).2.
Proof.
  intros Hwf r. unfold conns, new_Room. simpl.
  destruct (decide (r = fresh (dom (heap s)))) as [->|Hne].
  - rewrite lookup_insert_eq. apply NoDup_nil. done.
  - rewrite lookup_insert_ne by done. apply Hwf.
Qed.

Lemma create_registries_wf (room_id : string) (s : State) :
  registries_wf s → registries_wf (create room_id s).2.
Proof.
  intros Hwf. unfold create.
  destruct (bool_decide (room_id = lobby_id (mgr s))
            || bool_decide (is_Some (rooms (mgr s) !! room_id))); [done|].
  simpl. by apply (new_Room_registries_wf s).
Qed.

Lemma broadcast_rooms_registries_wf (s : State) :
  registries_wf s → registries_wf (broadcast_rooms s).
Proof.
  intros Hwf. eapply registries_wf_same_heap; [|done].
  by destruct (broadcast_rooms_spec s) as (evs & _ & _ & _ & _ & _ & _ & _ & _ & Hh & _).
Qed.

Lemma broadcast_room_registries_wf (s : State) (room_id message : string)
    (exclude : option WebSocket) :
  registries_wf s → registries_wf (broadcast_room room_id message exclude s).
Proof.
  intros Hwf.
  destruct (rooms (mgr s) !! room_id) as [r|] eqn:Hr.
  - destruct (broadcast_room_spec s room_id message exclude r Hr)
      as (evs & _ & _ & _ & Hc & Hother & _).
    intros r'. destruct (decide (r' = r)) as [->|Hne].
    + rewrite Hc. by apply wf_filter.
    + unfold conns. rewrite Hother by done. apply Hwf.
  - unfold broadcast_room. by rewrite Hr.
Qed.

Lemma pop_connection_registries_wf (r : RoomRef) (s : State) (ws : WebSocket) :
  registries_wf s → registries_wf (pop_connection r s ws).
Proof.
  intros Hwf r'. destruct (decide (r' = r)) as [->|Hne].
  - rewrite conns_pop_connection. by apply wf_filter.
  - unfold conns. rewrite heap_pop_connection_ne by done. apply Hwf.
Qed.

Lemma ensure_room_registries_wf (room_id : string) (s : State) :
  registries_wf s → registries_wf (ensure_room room_id s).2.
Proof.
  intros Hwf. unfold ensure_room.
  destruct (rooms (mgr s) !! room_id) as [r|]; [done|].
  destruct (decide (room_id = lobby_id (mgr s))); simpl.
  - by apply (new_Room_registries_wf s).
  - pose proof (create_registries_wf room_id s Hwf) as Hc.
    destruct (create room_id s) as [b s1]. simpl in *.
    by apply broadcast_rooms_registries_wf.
Qed.

Lemma join_registries_wf (room_id : string) (ws : WebSocket) (username : string)
    (s : State) :
  registries_wf s → registries_wf (join room_id ws username s).
Proof.
  intros Hwf. unfold join.
  pose proof (ensure_room_registries_wf room_id s Hwf) as He.
  destruct (ensure_room room_id s) as [[r|k] s1]; simpl in *; [|done].
  intros r'. unfold conns. simpl.
  destruct (decide (r' = r)) as [->|Hne].
  - rewrite lookup_alter_eq. specialize (He r). unfold conns in He.
    destruct (heap s1 !! r) as [[d]|]; simpl in *; [by apply wf_set|done].
  - rewrite lookup_alter_ne by done. apply He.
Qed.

Lemma user_left_registries_wf (room_id : string) (ws : WebSocket)
    (username : string) (s : State) :
  registries_wf s → registries_wf (user_left room_id ws username s).
Proof.
  intros Hwf. unfold user_left.
  destruct (rooms (mgr s) !! room_id) as [r|]; [|done].
  unfold announce_status, announce_users. case_bool_decide.
  - apply broadcast_rooms_registries_wf.
    do 2 apply broadcast_room_registries_wf.
    by apply pop_connection_registries_wf.
  - apply broadcast_room_registries_wf. by apply pop_connection_registries_wf.
Qed.

Lemma fire_registries_wf (i : nat) (s : State) :
  registries_wf s → registries_wf (fire i s).
Proof.
  intros Hwf. unfold fire. destruct (loop s !! i) as [t|]; [|done].
  unfold _delayed_delete, _delayed_delete_upto, _delayed_delete_body.
  cbn [take foldl]. apply broadcast_rooms_registries_wf.
  eapply registries_wf_same_heap; [|exact Hwf].
  unfold delete_, forget_timer.
  repeat case_bool_decide; simpl; try done;
    destruct (bool_decide _ && bool_decide _); done.
Qed.

(** In every state of the application the registries are dicts. *)
Lemma reachable_registries_wf (allowed : Op → Prop) (s : State) :
  reachable allowed s → registries_wf s.
Proof.
  induction 1 as [w|op s Hs IH Hop].
  - intros r. unfold conns, create_app, RoomManager_init. simpl.
    destruct (decide (r = fresh (∅ : gset RoomRef))) as [->|Hne].
    + rewrite lookup_singleton_eq. apply NoDup_nil. done.
    + rewrite lookup_singleton_ne by done. apply NoDup_nil. done.
  - destruct op; simpl.
    + by apply create_registries_wf.
    + eapply registries_wf_same_heap; [|exact IH].
      unfold delete_. by destruct (bool_decide _ && bool_decide _).
    + by apply ensure_room_registries_wf.
    + by apply broadcast_room_registries_wf.
    + by apply broadcast_rooms_registries_wf.
    + by apply broadcast_room_registries_wf.
    + by apply broadcast_room_registries_wf.
    + by apply user_left_registries_wf.
    + by apply join_registries_wf.
    + done.
    + done.
    + by apply fire_registries_wf.
    + done.
Qed.

(** In every state of the application, whose lobby identifier is the
    constant [LOBBY_ID], [create_error] answers [reserved] for the lobby
    identifier and for no other identifier. *)
Lemma create_error_reserved_in_application (allowed : Op → Prop) (s : State)
    (r : string) :
  reachable allowed s →
  create_error (mgr s) (Some r) = Some "reserved" ↔ r = lobby_id (mgr s).
Proof.
  intros Hs. apply create_error_reserved.
  by rewrite (reachable_lobby_id allowed s Hs).
Qed.

(** C7 (amended): for every manager and every room identifier [r],
    [create_error] answers [reserved] exactly when [r] is the lobby
    identifier, unless [r] and the lobby identifier are both the empty
    string; in that one case the equivalence fails (the answer is
    [bad_room]). *)
Theorem create_error_reserved_iff_lobby (m : RoomManager) (r : string) :
  (create_error m (Some r) = Some "reserved" ↔ r = lobby_id m)
  ↔ ¬ (r = "" ∧ lobby_id m = "").
Proof.
  unfold create_error. split.
  - intros Hiff [-> Hl]. rewrite decide_True in Hiff by done.
    by pose proof (proj2 Hiff (eq_sym Hl)).
  - intros Hnot. destruct (decide (r = "")) as [->|Hr].
    + split; [done|]. intros Heq. destruct Hnot. by split.
    + destruct (decide (r = lobby_id m)) as [|Hne]; [done|].
      destruct (exists_ m r); split; done.
Qed.

Lemma create_app_timers_within_rooms (w : World) :
  timers_within_rooms (create_app w).
Proof.
  intros k [h Hk]. unfold create_app, RoomManager_init in Hk. simpl in Hk.
  by rewrite lookup_empty in Hk.
Qed.

Lemma reachable_run_all (allowed : Op → Prop) (ops : list Op) (s : State) :
  reachable allowed s → Forall allowed ops → reachable allowed (run_all ops s).
Proof.
  intros Hs Hops. revert s Hs. unfold run_all.
  induction Hops as [|op ops Hop Hops IH]; intros s Hs; [done|].
  simpl. apply IH. by constructor.
Qed.

(** * Further properties of the room manager *)

(** ** Validation and creation *)

(** X1: Every code [create_error] reports is one of [ERROR_CODES]. *)
Theorem create_error_in_ERROR_CODES (m : RoomManager) (room_id : option string) :
  create_error m room_id = None
  ∨ ∃ code, create_error m room_id = Some code
            ∧ code ∈ ERROR_CODES
            ∧ code ∈ ["bad_room"; "reserved"; "room_exists"].
Proof.
  unfold create_error. destruct room_id as [id|].
  - destruct (decide (id = "")); [right; exists "bad_room"|].
    { split; [done|]. split; apply (bool_decide_unpack _); vm_compute; exact I. }
    destruct (decide (id = lobby_id m)); [right; exists "reserved"|].
    { split; [done|]. split; apply (bool_decide_unpack _); vm_compute; exact I. }
    destruct (exists_ m id); [right; exists "room_exists"|by left].
    split; [done|]. split; apply (bool_decide_unpack _); vm_compute; exact I.
  - right. exists "bad_room".
    split; [done|]. split; apply (bool_decide_unpack _); vm_compute; exact I.
Qed.

Lemma create_result (room_id : string) (s : State) :
  (create room_id s).1 = true
  ↔ room_id ≠ lobby_id (mgr s) ∧ rooms (mgr s) !! room_id = None.
Proof.
  unfold create.
  destruct (decide (room_id = lobby_id (mgr s))) as [Heq|Hne].
  - rewrite bool_decide_eq_true_2 by done. simpl. split; [done|]. by intros [? _].
  - rewrite bool_decide_eq_false_2 by done. simpl.
    destruct (rooms (mgr s) !! room_id) as [r|] eqn:Hr.
    + rewrite bool_decide_eq_true_2 by (by eexists). simpl.
      split; [done|]. by intros [_ ?].
    + rewrite bool_decide_eq_false_2 by (by intros [? ?]). simpl. done.
Qed.

(** X2: [create] succeeds exactly for an identifier that is neither the
    lobby nor in [rooms]; for a non-empty identifier that is exactly
    when [create_error] reports nothing.  The empty identifier is
    refused by [create_error] only: [create] does not look at it. *)
Theorem create_agrees_with_create_error (room_id : string) (s : State) :
  ((create room_id s).1 = true
   ↔ room_id ≠ lobby_id (mgr s) ∧ rooms (mgr s) !! room_id = None)
  ∧ (room_id ≠ "" →
     ((create room_id s).1 = true
      ↔ create_error (mgr s) (Some room_id) = None))
  ∧ (create_error (mgr s) (Some room_id) = None → (create room_id s).1 = true).
Proof.
  split; [apply create_result|].
  assert (room_id ≠ "" →
          ((create room_id s).1 = true
           ↔ create_error (mgr s) (Some room_id) = None)) as Hiff.
  { intros Hne. rewrite create_result. unfold create_error.
    destruct (decide (room_id = "")); [done|].
    destruct (decide (room_id = lobby_id (mgr s))) as [Heq|Hl].
    { split; [by intros [? _]|done]. }
    destruct (exists_ (mgr s) room_id) eqn:He.
    - apply exists_true in He. split; [|done].
      intros [_ Hnone]. rewrite Hnone in He. by destruct He.
    - apply exists_false in He. done. }
  split; [done|].
  intros Hnone. destruct (decide (room_id = "")) as [->|Hne].
  - by unfold create_error in Hnone.
  - by apply Hiff.
Qed.

(** ** Explicit deletion *)

(** X3: [delete] refuses the lobby and ignores an unknown identifier; for
    any other identifier it unbinds exactly that identifier.  It sends
    nothing (the directory feed is not told), keeps the Room object
    and its registry on the heap, and leaves [deletion_timers] and the
    pending callbacks alone.  Deleting twice is deleting once. *)
Theorem delete_unbinds_only_that_room (room_id : string) (s : State) :
  delete_ (lobby_id (mgr s)) s = s
  ∧ (rooms (mgr s) !! room_id = None → delete_ room_id s = s)
  ∧ (room_id ≠ lobby_id (mgr s) →
     rooms (mgr (delete_ room_id s)) = delete room_id (rooms (mgr s))
     ∧ exists_ (mgr (delete_ room_id s)) room_id = false)
  ∧ heap (delete_ room_id s) = heap s
  ∧ deletion_timers (mgr (delete_ room_id s)) = deletion_timers (mgr s)
  ∧ lobby_clients (mgr (delete_ room_id s)) = lobby_clients (mgr s)
  ∧ loop (delete_ room_id s) = loop s
  ∧ trace (delete_ room_id s) = trace s
  ∧ delete_ room_id (delete_ room_id s) = delete_ room_id s.
Proof.
  split.
  { unfold delete_. by rewrite bool_decide_eq_false_2 by (by intros ?). }
  split.
  { intros Hnone. unfold delete_.
    rewrite (bool_decide_eq_false_2 (is_Some _)) by (rewrite Hnone; by intros [? ?]).
    by rewrite andb_false_r. }
  split.
  { intros Hne. destruct (delete_spec room_id s Hne) as (Hrooms & _).
    split; [done|]. apply exists_false. by rewrite Hrooms, lookup_delete_eq. }
  unfold delete_.
  destruct (bool_decide (room_id ≠ lobby_id (mgr s))) eqn:Hl; simpl;
    [|by rewrite Hl].
  destruct (bool_decide (is_Some (rooms (mgr s) !! room_id))) eqn:Hin;
    simpl; [|by rewrite Hl, Hin].
  do 5 (split; [done|]). rewrite Hl. simpl.
  by rewrite bool_decide_eq_false_2
    by (rewrite lookup_delete_eq; by intros [? ?]).
Qed.

(** ** The room directory *)

(** X4: [list_rooms] is sorted, has no duplicate, and lists exactly the
    keys of [rooms] other than the lobby. *)
Theorem list_rooms_sorted_exact (m : RoomManager) :
  StronglySorted String.le (list_rooms m)
  ∧ NoDup (list_rooms m)
  ∧ ∀ x, x ∈ list_rooms m ↔ x ≠ lobby_id m ∧ is_Some (rooms m !! x).
Proof.
  split; [|split].
  - unfold list_rooms. apply (StronglySorted_merge_sort String.le).
  - unfold list_rooms. rewrite merge_sort_Permutation.
    apply NoDup_filter, NoDup_fst_map_to_list.
  - apply elem_of_list_rooms.
Qed.

(** X5: [broadcast_rooms] sends the directory of the moment once to every
    lobby subscriber; afterwards the subscribers are exactly the old
    ones whose send succeeded.  Rooms, registries, timer records and
    pending callbacks are untouched. *)
Theorem broadcast_rooms_keeps_delivered_subscribers (s : State) :
  ∃ evs,
    trace (broadcast_rooms s) = trace s ++ evs
    ∧ all_carry (jd (PRooms (list_rooms (mgr s)))) evs
    ∧ (attempts evs).*1 = elements (lobby_clients (mgr s))
    ∧ (∀ ws, ws ∈ lobby_clients (mgr (broadcast_rooms s))
             ↔ ws ∈ lobby_clients (mgr s) ∧ ws ∈ delivered evs)
    ∧ (∀ ws, ws ∈ failed evs →
             ws ∈ lobby_clients (mgr s)
             ∧ ws ∉ lobby_clients (mgr (broadcast_rooms s)))
    ∧ rooms (mgr (broadcast_rooms s)) = rooms (mgr s)
    ∧ deletion_timers (mgr (broadcast_rooms s)) = deletion_timers (mgr s)
    ∧ heap (broadcast_rooms s) = heap s
    ∧ loop (broadcast_rooms s) = loop s.
Proof.
  destruct (broadcast_rooms_spec s)
    as (evs & Ht & Hc & Ha & Hlc & _ & Hr & Hti & _ & Hh & Hl & _).
  exists evs. do 3 (split; [done|]).
  assert (NoDup (attempts evs).*1) as Hnd by (rewrite Ha; apply NoDup_elements).
  assert (∀ ws, ws ∈ failed evs → ws ∈ lobby_clients (mgr s)) as Hfin.
  { intros ws Hf. apply failed_attempted in Hf. rewrite Ha in Hf.
    by apply elem_of_elements in Hf. }
  split; [|split; [|done]].
  - intros ws. rewrite Hlc, elem_of_difference, elem_of_list_to_set. split.
    + intros [Hin Hnf]. split; [done|].
      apply elem_of_elements in Hin. rewrite <- Ha in Hin.
      by destruct (attempt_outcome ws evs Hin).
    + intros [Hin Hd]. split; [done|]. intros Hf.
      apply elem_of_delivered in Hd. apply elem_of_failed in Hf.
      by pose proof (NoDup_fst_functional _ _ _ _ Hnd Hd Hf).
  - intros ws Hf. split; [by apply Hfin|].
    rewrite Hlc, elem_of_difference, elem_of_list_to_set. by intros [_ ?].
Qed.

(** ** Failed sends close the connection *)

Lemma closes_app (e1 e2 : list Event) : closes (e1 ++ e2) = closes e1 ++ closes e2.
Proof.
  induction e1 as [|[ws m ok|ws] e1 IH]; simpl; [done|done|]. by rewrite IH.
Qed.

Lemma failed_app (e1 e2 : list Event) : failed (e1 ++ e2) = failed e1 ++ failed e2.
Proof. unfold failed. by rewrite attempts_app, filter_app, fmap_app. Qed.

Lemma safe_send_text_closes (ws : WebSocket) (message : string) (s : State) :
  ∃ evs,
    trace (safe_send_text ws message s).2 = trace s ++ evs
    ∧ closes evs = failed evs.
Proof.
  unfold safe_send_text.
  destruct (send_text ws message (world s)) as [[|] w]; simpl.
  - by exists [EvSend ws message true].
  - by exists [EvSend ws message false; EvClose ws].
Qed.

Lemma gather_closes (sockets : list WebSocket) (message : string) (s : State) :
  ∃ evs,
    trace (gather sockets message s).2 = trace s ++ evs
    ∧ closes evs = failed evs.
Proof.
  revert s. induction sockets as [|ws rest IH]; intros s; simpl.
  - exists []. by rewrite app_nil_r.
  - destruct (safe_send_text_closes ws message s) as (e1 & Ht1 & Hc1).
    destruct (safe_send_text ws message s) as [res s1]; simpl in *.
    destruct (IH s1) as (e2 & Ht2 & Hc2).
    destruct (gather rest message s1) as [results s2]; simpl in *.
    exists (e1 ++ e2). rewrite Ht2, Ht1, app_assoc. split; [done|].
    by rewrite closes_app, failed_app, Hc1, Hc2.
Qed.

(** X6: In one fan-out, [close] is called once for every send that
    failed and for no other connection, in whatever order: the closed
    connections are, up to their order, the connections whose send
    failed, and these are the ones [send_multi] returns.  With the
    fan-out run without interruption, the sends and closes are the calls
    of [send_text] and [close] that lead from the environment before the
    call to the one after it.  When no connection is given twice, a
    connection whose send succeeded is not closed. *)
Theorem send_multi_closes_exactly_failed (targets : list WebSocket)
    (message : string) (s : State) :
  ∃ evs,
    trace (send_multi targets message s).2 = trace s ++ evs
    ∧ replay (world s) evs = Some (world (send_multi targets message s).2)
    ∧ closes evs ≡ₚ failed evs
    ∧ (send_multi targets message s).1 ≡ₚ closes evs
    ∧ (∀ ws, ws ∈ delivered evs → ws ∈ targets)
    ∧ (∀ ws, ws ∈ closes evs → ws ∈ targets)
    ∧ (NoDup targets → ∀ ws, ws ∈ delivered evs → ws ∉ closes evs).
Proof.
  destruct (send_multi_spec targets message s)
    as (evs & (_ & _ & _ & _ & Ht) & _ & Ha & Hst).
  exists evs. split; [done|].
  assert (closes evs = failed evs) as Hcl.
  { destruct targets as [|ws rest].
    - simpl in Ht. apply (f_equal length) in Ht.
      rewrite length_app in Ht. destruct evs; [done|simpl in Ht; lia].
    - unfold send_multi in Ht.
      destruct (gather_closes (ws :: rest) message s) as (evs' & Ht' & Hc').
      destruct (gather (ws :: rest) message s) as [results s1]. simpl in *.
      rewrite Ht' in Ht. apply app_inv_head in Ht. by subst. }
  split.
  { destruct (send_multi_replay targets message s) as (evs' & Ht' & Hr).
    rewrite Ht in Ht'. apply app_inv_head in Ht'. by subst. }
  split; [by rewrite Hcl|]. split; [by rewrite Hcl, Hst|]. split; [|split].
  - intros ws Hd. apply elem_of_delivered in Hd.
    apply (list_elem_of_fmap_2 fst) in Hd. by rewrite Ha in Hd.
  - intros ws Hc. rewrite Hcl in Hc. apply failed_attempted in Hc.
    by rewrite Ha in Hc.
  - intros Hnd ws Hd Hc. rewrite Hcl in Hc.
    apply elem_of_delivered in Hd. apply elem_of_failed in Hc.
    rewrite <- Ha in Hnd.
    by pose proof (NoDup_fst_functional _ _ _ _ Hnd Hd Hc).
Qed.

(** ** Scheduling of the deferred deletion *)

(** X7: A broadcast to an existing room schedules a deletion exactly when,
    after the failed connections were pruned, the registry is empty,
    the room is not the lobby and no timer record exists for it.  Then
    one callback for the room is queued with the manager's delay and its
    handle is recorded; otherwise neither the records nor the queue
    change. *)
Theorem broadcast_room_schedules_deletion (s : State) (room_id message : string)
    (exclude : option WebSocket) (r : RoomRef) :
  rooms (mgr s) !! room_id = Some r →
  (conns r (broadcast_room room_id message exclude s) = []
   ∧ room_id ≠ lobby_id (mgr s)
   ∧ deletion_timers (mgr s) !! room_id = None →
   deletion_timers (mgr (broadcast_room room_id message exclude s))
   = <[room_id := next_handle s]> (deletion_timers (mgr s))
   ∧ loop (broadcast_room room_id message exclude s)
     = loop s ++ [mkTimer (next_handle s) (deletion_delay (mgr s)) room_id]
   ∧ next_handle (broadcast_room room_id message exclude s) = S (next_handle s))
  ∧ (¬ (conns r (broadcast_room room_id message exclude s) = []
        ∧ room_id ≠ lobby_id (mgr s)
        ∧ deletion_timers (mgr s) !! room_id = None) →
     deletion_timers (mgr (broadcast_room room_id message exclude s))
     = deletion_timers (mgr s)
     ∧ loop (broadcast_room room_id message exclude s) = loop s
     ∧ next_handle (broadcast_room room_id message exclude s) = next_handle s).
Proof.
  intros Hr.
  destruct (broadcast_room_spec s room_id message exclude r Hr)
    as (evs & _ & _ & _ & _ & _ & _ & _ & _ & _ & Hcases).
  destruct Hcases as [(Ht & Hl & Hn & Hnot)|(He & Hne & Hnone & Ht & Hl & Hn)].
  - split; [by intros ?|done].
  - split; [done|]. intros Hnot. by destruct Hnot.
Qed.

(** ** Get-or-create *)

(** Run from beginning to end with nothing else running while it waits
    for the directory broadcast, [ensure_room] returns the Room bound to
    the identifier in the state it leaves.  An unknown identifier other
    than the lobby gets a newly allocated empty Room, and the directory
    that now lists it is sent to every lobby subscriber; re-creating a
    missing lobby sends nothing. *)
Lemma ensure_room_uninterrupted (room_id : string) (s : State) :
  ∃ r,
    (ensure_room room_id s).1 = Ok r
    ∧ rooms (mgr (ensure_room room_id s).2) !! room_id = Some r
    ∧ (rooms (mgr s) !! room_id = None →
       heap s !! r = None ∧ conns r (ensure_room room_id s).2 = [])
    ∧ (rooms (mgr s) !! room_id = None → room_id ≠ lobby_id (mgr s) →
       ∃ evs,
         trace (ensure_room room_id s).2 = trace s ++ evs
         ∧ all_carry
             (jd (PRooms (list_rooms (mgr (ensure_room room_id s).2)))) evs
         ∧ (attempts evs).*1 = elements (lobby_clients (mgr s))
         ∧ room_id ∈ list_rooms (mgr (ensure_room room_id s).2))
    ∧ (room_id = lobby_id (mgr s) →
       trace (ensure_room room_id s).2 = trace s).
Proof.
  unfold ensure_room.
  destruct (rooms (mgr s) !! room_id) as [r|] eqn:Hr.
  { exists r. simpl. rewrite Hr. by repeat split. }
  destruct (decide (room_id = lobby_id (mgr s))) as [Heq|Hne]; simpl.
  - exists (fresh (dom (heap s))). unfold getitem. simpl.
    rewrite lookup_insert_eq. split; [done|]. rewrite Heq.
    split; [by rewrite lookup_insert_eq|]. split; [|done].
    intros _. split; [apply not_elem_of_dom, is_fresh|].
    unfold conns. simpl. by rewrite lookup_insert_eq.
  - unfold create. rewrite bool_decide_eq_false_2 by done.
    rewrite bool_decide_eq_false_2 by (rewrite Hr; by intros [? ?]).
    simpl.
    set (s1 := set_mgr _ (set_heap _ s)).
    destruct (broadcast_rooms_spec s1)
      as (evs & Ht & Hc & Ha & _ & Hlobby & Hrooms & _ & _ & Hh & _).
    exists (fresh (dom (heap s))). unfold getitem.
    rewrite Hrooms. subst s1. simpl. rewrite lookup_insert_eq.
    do 2 (split; [done|]). split; [|split; [|done]].
    + intros _. split; [apply not_elem_of_dom, is_fresh|].
      unfold conns. rewrite Hh. simpl. by rewrite lookup_insert_eq.
    + intros _ _. exists evs. split; [done|].
      assert (list_rooms (mgr (broadcast_rooms
                (set_mgr (set_rooms (<[room_id:=fresh (dom (heap s))]> (rooms (mgr s)))
                            (mgr s))
                   (set_heap (<[fresh (dom (heap s)):=Room_init]> (heap s)) s))))
              = list_rooms (set_rooms (<[room_id:=fresh (dom (heap s))]> (rooms (mgr s)))
                              (mgr s))) as Hlist.
      { unfold list_rooms. by rewrite Hrooms, Hlobby. }
      rewrite Hlist. split; [done|]. split; [done|].
      apply elem_of_list_rooms. simpl. split; [done|].
      rewrite lookup_insert_eq. by eexists.
Qed.

(** ** Departure of a connection that is in the room *)

Lemma not_elem_of_failed_app (c : WebSocket) (e1 e2 : list Event) :
  (c ∉ failed (e1 ++ e2)) ↔ (c ∉ failed e1) ∧ (c ∉ failed e2).
Proof. rewrite failed_app, not_elem_of_app. done. Qed.

(** X9: After [user_left] on an existing room the connection is no longer
    in the registry, nothing was added to the registry, and every other
    connection stays unless one of the sends to it failed during the
    call.  [rooms] is unchanged. *)
Theorem user_left_removes_connection (s : State) (room_id : string)
    (ws : WebSocket) (username : string) (r : RoomRef) :
  rooms (mgr s) !! room_id = Some r →
  (ws ∉ Dict.keys (conns r (user_left room_id ws username s)))
  ∧ (∀ c, c ∈ Dict.keys (conns r (user_left room_id ws username s)) →
          c ∈ Dict.keys (conns r s) ∧ c ≠ ws)
  ∧ (∃ evs,
       trace (user_left room_id ws username s) = trace s ++ evs
       ∧ ∀ c, c ∈ Dict.keys (conns r s) → c ≠ ws → c ∉ failed evs →
              c ∈ Dict.keys (conns r (user_left room_id ws username s)))
  ∧ rooms (mgr (user_left room_id ws username s)) = rooms (mgr s)
  ∧ lobby_id (mgr (user_left room_id ws username s)) = lobby_id (mgr s).
Proof.
  intros Hr. unfold user_left. rewrite Hr.
  set (s1 := pop_connection r s ws).
  assert (rooms (mgr s1) !! room_id = Some r) as Hr1 by done.
  unfold announce_status, announce_users.
  destruct (broadcast_room_spec s1 room_id (status (username +:+ " 已离开") s1)
              None r Hr1)
    as (e1 & Ht1 & _ & _ & Hc1 & _ & Hl1 & Hrooms1 & _).
  set (s2 := broadcast_room room_id (status (username +:+ " 已离开") s1) None s1) in *.
  assert (rooms (mgr s2) !! room_id = Some r) as Hr2 by (by rewrite Hrooms1).
  destruct (broadcast_room_spec s2 room_id (users_payload room_id s2) None r Hr2)
    as (e2 & Ht2 & _ & _ & Hc2 & _ & Hl2 & Hrooms2 & _).
  destruct (broadcast_rooms_spec
              (broadcast_room room_id (users_payload room_id s2) None s2))
    as (e3 & Ht3 & _ & _ & _ & Hl3 & Hrooms3 & _).
  assert (conns r s1 = Dict.pop ws (conns r s)) as Hpop
    by apply conns_pop_connection.
  assert (∀ c, c ∈ Dict.keys (conns r s1) →
               c ∈ Dict.keys (conns r s) ∧ c ≠ ws) as Hsub.
  { intros c Hin.
    rewrite Hpop in Hin. unfold Dict.pop, Dict.keys in *.
    apply list_elem_of_fmap in Hin as ([c' name] & -> & Hin).
    apply list_elem_of_filter in Hin as [Hne Hin]. split; [|done].
    by apply (list_elem_of_fmap_2 fst) in Hin. }
  assert (∀ c name, (c, name) ∈ conns r s → c ≠ ws → (c, name) ∈ conns r s1)
    as Hstay.
  { intros c name Hin Hne. rewrite Hpop. by apply list_elem_of_filter. }
  case_bool_decide.
  - rewrite broadcast_rooms_conns, Hrooms3, Hrooms2, Hrooms1, Hl3, Hl2, Hl1.
    rewrite Hc2, Hc1. split; [|split; [|split; [|done]]].
    + intros Hin. do 2 apply keys_filter_subseteq in Hin.
      apply Hsub in Hin. by destruct Hin.
    + intros c Hin. do 2 apply keys_filter_subseteq in Hin.
      by apply Hsub in Hin.
    + exists (e1 ++ e2 ++ e3). split.
      { rewrite Ht3, Ht2, Ht1. by rewrite <- !app_assoc. }
      intros c Hin Hne Hnf.
      apply not_elem_of_failed_app in Hnf as [Hnf1 Hnf].
      apply not_elem_of_failed_app in Hnf as [Hnf2 _].
      unfold Dict.keys in *.
      apply list_elem_of_fmap in Hin as ([c' name] & -> & Hin).
      apply list_elem_of_fmap. exists (c', name). split; [done|].
      apply list_elem_of_filter. split; [done|].
      apply list_elem_of_filter. split; [done|]. by apply Hstay.
  - rewrite Hrooms1, Hl1, Hc1. split; [|split; [|split; [|done]]].
    + intros Hin. apply keys_filter_subseteq in Hin.
      apply Hsub in Hin. by destruct Hin.
    + intros c Hin. apply keys_filter_subseteq in Hin. by apply Hsub in Hin.
    + exists e1. split; [done|]. intros c Hin Hne Hnf.
      unfold Dict.keys in *.
      apply list_elem_of_fmap in Hin as ([c' name] & -> & Hin).
      apply list_elem_of_fmap. exists (c', name). split; [done|].
      apply list_elem_of_filter. split; [done|]. by apply Hstay.
Qed.

(** A broadcast to a room with an empty registry sends nothing. *)
Lemma broadcast_room_empty_registry (s : State) (room_id message : string)
    (exclude : option WebSocket) (r : RoomRef) :
  rooms (mgr s) !! room_id = Some r →
  conns r s = [] →
  trace (broadcast_room room_id message exclude s) = trace s
  ∧ world (broadcast_room room_id message exclude s) = world s
  ∧ heap (broadcast_room room_id message exclude s) = heap s
  ∧ lobby_clients (mgr (broadcast_room room_id message exclude s))
    = lobby_clients (mgr s)
  ∧ rooms (mgr (broadcast_room room_id message exclude s)) = rooms (mgr s).
Proof.
  intros Hr Hempty. unfold broadcast_room. rewrite Hr, Hempty. simpl.
  rewrite Hempty. rewrite (bool_decide_eq_true_2 ([] = [])) by done. simpl.
  destruct (bool_decide (room_id ≠ lobby_id (mgr s))); simpl; [|done].
  destruct (bool_decide (is_Some (deletion_timers (mgr s) !! room_id))); done.
Qed.

(** X10: When the connection that leaves is the only one in the registry,
    [user_left] sends nothing at all (no status line, no user list, no
    directory), leaves the subscribers alone, empties the registry, and
    schedules the deletion of the room unless it is the lobby or
    already has a timer record. *)
Theorem user_left_last_occupant_is_silent (s : State) (room_id : string)
    (ws : WebSocket) (username : string) (r : RoomRef) :
  rooms (mgr s) !! room_id = Some r →
  (∀ c, c ∈ Dict.keys (conns r s) → c = ws) →
  trace (user_left room_id ws username s) = trace s
  ∧ world (user_left room_id ws username s) = world s
  ∧ lobby_clients (mgr (user_left room_id ws username s)) = lobby_clients (mgr s)
  ∧ rooms (mgr (user_left room_id ws username s)) = rooms (mgr s)
  ∧ conns r (user_left room_id ws username s) = []
  ∧ (room_id ≠ lobby_id (mgr s) → deletion_timers (mgr s) !! room_id = None →
     deletion_timers (mgr (user_left room_id ws username s))
     = <[room_id := next_handle s]> (deletion_timers (mgr s))
     ∧ loop (user_left room_id ws username s)
       = loop s ++ [mkTimer (next_handle s) (deletion_delay (mgr s)) room_id])
  ∧ (room_id = lobby_id (mgr s) ∨ is_Some (deletion_timers (mgr s) !! room_id) →
     deletion_timers (mgr (user_left room_id ws username s))
     = deletion_timers (mgr s)
     ∧ loop (user_left room_id ws username s) = loop s).
Proof.
  intros Hr Honly. unfold user_left. rewrite Hr.
  set (s1 := pop_connection r s ws).
  assert (rooms (mgr s1) !! room_id = Some r) as Hr1 by done.
  assert (conns r s1 = []) as Hempty.
  { subst s1. rewrite conns_pop_connection. unfold Dict.pop.
    destruct (filter _ (conns r s)) as [|[c name] l] eqn:Hf; [done|].
    assert ((c, name) ∈ filter (λ kv : WebSocket * string, kv.1 ≠ ws) (conns r s))
      as Hin by (rewrite Hf; apply elem_of_cons; by left).
    apply list_elem_of_filter in Hin as [Hne Hin]. destruct Hne.
    apply Honly. by apply (list_elem_of_fmap_2 fst) in Hin. }
  unfold announce_status.
  destruct (broadcast_room_empty_registry s1 room_id
              (status (username +:+ " 已离开") s1) None r Hr1 Hempty)
    as (Ht & Hw & Hh & Hlc & Hrooms).
  destruct (broadcast_room_spec s1 room_id (status (username +:+ " 已离开") s1)
              None r Hr1)
    as (evs & _ & _ & _ & Hc & _ & _ & _ & _ & _ & Hcases).
  set (s2 := broadcast_room room_id (status (username +:+ " 已离开") s1) None s1) in *.
  assert (conns r s2 = []) as Hempty2 by (by rewrite Hc, Hempty).
  rewrite bool_decide_eq_false_2 by (by intros ?).
  do 4 (split; [done|]). split; [done|].
  destruct Hcases as [(Hti & Hl & _ & Hnot)|(_ & Hne & Hnone & Hti & Hl & _)].
  - split; [|done]. intros Hne Hnone. by destruct Hnot.
  - split; [done|]. intros [Heq|[h Hsome]]; [done|].
    change (deletion_timers (mgr s1)) with (deletion_timers (mgr s)) in Hnone.
    by rewrite Hsome in Hnone.
Qed.

(** ** The lobby and the timers in the reachable states *)

Lemma benign_consistent (s s' : State) :
  benign s s' → timers_consistent s → timers_consistent s'.
Proof.
  intros (Hl & Hlobby & Hcases) (I1 & I2 & I3 & I4).
  unfold timers_consistent. rewrite Hl.
  split; [by apply Hlobby|].
  destruct Hcases as [[Ht Hloop]|(k & h & d & Hne & Hnone & Ht & Hloop)].
  - by rewrite Ht, Hloop.
  - rewrite Ht, Hloop, fmap_app. simpl.
    assert (k ∉ t_room <$> loop s) as Hfresh.
    { intros Hin. apply I3 in Hin. rewrite Hnone in Hin. by destruct Hin. }
    split; [|split].
    + apply NoDup_app. split; [done|]. split; [|apply NoDup_singleton].
      intros x Hx ->%list_elem_of_singleton. done.
    + intros k'. rewrite lookup_insert_is_Some', elem_of_app,
        list_elem_of_singleton, I3. split; intros [?|?]; auto.
    + by rewrite lookup_insert_ne.
Qed.

Lemma benign_same (s s' : State) :
  lobby_id (mgr s') = lobby_id (mgr s) →
  rooms (mgr s') = rooms (mgr s) →
  deletion_timers (mgr s') = deletion_timers (mgr s) →
  loop s' = loop s →
  benign s s'.
Proof. intros Hl Hr Ht Hloop. unfold benign. rewrite Hl, Hr. auto. Qed.

Lemma broadcast_rooms_benign (s : State) : benign s (broadcast_rooms s).
Proof.
  destruct (broadcast_rooms_spec s)
    as (evs & _ & _ & _ & _ & Hl & Hr & Ht & _ & _ & Hloop & _).
  by apply benign_same.
Qed.

Lemma broadcast_room_benign (s : State) (room_id message : string)
    (exclude : option WebSocket) :
  benign s (broadcast_room room_id message exclude s).
Proof.
  destruct (rooms (mgr s) !! room_id) as [r|] eqn:Hr.
  - destruct (broadcast_room_spec s room_id message exclude r Hr)
      as (evs & _ & _ & _ & _ & _ & Hl & Hrooms & _ & _ & Hcases).
    unfold benign. rewrite Hl, Hrooms. do 2 (split; [done|]).
    destruct Hcases as [(Ht & Hloop & _)|(_ & Hne & Hnone & Ht & Hloop & _)].
    + by left.
    + right. by eexists _, _, _.
  - unfold broadcast_room. rewrite Hr. by apply benign_same.
Qed.

Lemma create_benign (room_id : string) (s : State) :
  benign s (create room_id s).2.
Proof.
  unfold create.
  destruct (bool_decide (room_id = lobby_id (mgr s))
            || bool_decide (is_Some (rooms (mgr s) !! room_id))); simpl.
  - by apply benign_same.
  - unfold benign. simpl. split; [done|]. split; [|by left].
    intros Hin. apply lookup_insert_is_Some'. by right.
Qed.

Lemma delete_benign (room_id : string) (s : State) :
  benign s (delete_ room_id s).
Proof.
  unfold delete_.
  destruct (bool_decide (room_id ≠ lobby_id (mgr s))) eqn:Hne; simpl;
    [|by apply benign_same].
  destruct (bool_decide (is_Some (rooms (mgr s) !! room_id))); simpl;
    [|by apply benign_same].
  apply bool_decide_eq_true in Hne.
  unfold benign. simpl. split; [done|]. split; [|by left].
  intros Hin. by rewrite lookup_delete_ne.
Qed.

Lemma ensure_room_consistent (room_id : string) (s : State) :
  timers_consistent s → timers_consistent (ensure_room room_id s).2.
Proof.
  intros Hinv. unfold ensure_room.
  destruct (rooms (mgr s) !! room_id) as [r|]; [done|].
  destruct (decide (room_id = lobby_id (mgr s))); simpl.
  - eapply benign_consistent; [|exact Hinv].
    unfold benign. simpl. split; [done|]. split; [|by left].
    intros _. rewrite lookup_insert_eq. by eexists.
  - pose proof (create_benign room_id s) as Hc.
    destruct (create room_id s) as [b s1]. simpl in *.
    eapply benign_consistent; [apply broadcast_rooms_benign|].
    by eapply benign_consistent.
Qed.

Lemma user_left_consistent (room_id : string) (ws : WebSocket)
    (username : string) (s : State) :
  timers_consistent s → timers_consistent (user_left room_id ws username s).
Proof.
  intros Hinv. unfold user_left.
  destruct (rooms (mgr s) !! room_id) as [r|]; [|done].
  assert (timers_consistent (pop_connection r s ws)) as H1
    by (eapply benign_consistent; [by apply benign_same|done]).
  unfold announce_status, announce_users. case_bool_decide.
  - eapply benign_consistent; [apply broadcast_rooms_benign|].
    eapply benign_consistent; [apply broadcast_room_benign|].
    eapply benign_consistent; [apply broadcast_room_benign|done].
  - eapply benign_consistent; [apply broadcast_room_benign|done].
Qed.

Lemma join_consistent (room_id : string) (ws : WebSocket) (username : string)
    (s : State) :
  timers_consistent s → timers_consistent (join room_id ws username s).
Proof.
  intros Hinv. unfold join.
  pose proof (ensure_room_consistent room_id s Hinv) as He.
  destruct (ensure_room room_id s) as [[r|k] s1]; simpl in *; [|done].
  eapply benign_consistent; [|exact He]. by apply benign_same.
Qed.

Lemma elem_of_delete_NoDup {A : Type} (l : list A) (i : nat) (x y : A) :
  NoDup l → l !! i = Some x → y ∈ delete i l ↔ y ∈ l ∧ y ≠ x.
Proof.
  intros Hnd Hi. rewrite delete_take_drop.
  rewrite <- (take_drop_middle l i x Hi) in Hnd at 1.
  rewrite <- (take_drop_middle l i x Hi) at 3.
  apply NoDup_app in Hnd as (_ & Hdisj & Hnd).
  apply NoDup_cons in Hnd as [Hnotin _].
  rewrite !elem_of_app, elem_of_cons. split.
  - intros [Hin|Hin].
    + split; [by left|]. intros ->. apply (Hdisj x Hin). by left.
    + split; [by right; right|]. by intros ->.
  - intros [[Hin|[->|Hin]] Hne]; [by left|done|by right].
Qed.

Lemma delayed_delete_loop (room_id : string) (s : State) :
  loop (_delayed_delete room_id s) = loop s.
Proof.
  unfold _delayed_delete, _delayed_delete_upto, _delayed_delete_body.
  cbn [take foldl].
  destruct (broadcast_rooms_spec (delete_ room_id (forget_timer room_id s)))
    as (evs & _ & _ & _ & _ & _ & _ & _ & _ & _ & Hloop & _).
  rewrite Hloop. unfold delete_, forget_timer.
  repeat case_bool_decide; simpl; try done;
    destruct (bool_decide _ && bool_decide _); done.
Qed.

Lemma fire_consistent (i : nat) (s : State) :
  timers_consistent s → timers_consistent (fire i s).
Proof.
  intros (I1 & I2 & I3 & I4). unfold fire.
  destruct (loop s !! i) as [t|] eqn:Hi; [|done].
  destruct (delayed_delete_frame (t_room t) (dequeue i s)) as (Hl & Ht & Hr).
  pose proof (delayed_delete_loop (t_room t) (dequeue i s)) as Hloop.
  simpl in Hl, Ht, Hr, Hloop.
  assert ((t_room <$> loop s) !! i = Some (t_room t)) as Hi'
    by (by rewrite list_lookup_fmap, Hi).
  assert (t_room t ≠ lobby_id (mgr s)) as Hne.
  { intros Heq. apply list_elem_of_lookup_2 in Hi'. apply I3 in Hi'.
    rewrite Heq, I4 in Hi'. by destruct Hi'. }
  unfold timers_consistent. rewrite Hl, Ht, Hloop, list_fmap_delete.
  split; [by rewrite Hr|]. split; [|split].
  - eapply sublist_NoDup; [exact I2|apply sublist_delete].
  - intros k. rewrite lookup_delete_is_Some, I3.
    rewrite (elem_of_delete_NoDup _ i (t_room t)) by done.
    split; intros [? ?]; split; done.
  - apply lookup_delete_None. by right.
Qed.

Lemma run_consistent (op : Op) (s : State) :
  timers_consistent s → timers_consistent (run op s).
Proof.
  intros Hinv. destruct op; simpl.
  - eapply benign_consistent; [apply create_benign|done].
  - eapply benign_consistent; [apply delete_benign|done].
  - by apply ensure_room_consistent.
  - eapply benign_consistent; [apply broadcast_room_benign|done].
  - eapply benign_consistent; [apply broadcast_rooms_benign|done].
  - eapply benign_consistent; [apply broadcast_room_benign|done].
  - eapply benign_consistent; [apply broadcast_room_benign|done].
  - by apply user_left_consistent.
  - by apply join_consistent.
  - eapply benign_consistent; [by apply benign_same|done].
  - eapply benign_consistent; [by apply benign_same|done].
  - by apply fire_consistent.
  - eapply benign_consistent; [by apply benign_same|done].
Qed.

Lemma reachable_consistent (allowed : Op → Prop) (s : State) :
  reachable allowed s → timers_consistent s.
Proof.
  induction 1 as [w|op s Hs IH Hop]; [|by apply run_consistent].
  unfold timers_consistent, create_app, RoomManager_init. simpl.
  split; [rewrite lookup_singleton_eq; by eexists|].
  split; [apply NoDup_nil; done|]. split; [|done].
  intros k. rewrite lookup_empty. split; [by intros [? ?]|].
  by intros ?%elem_of_nil.
Qed.

(** X11: In every state of the application, whatever the gateway called
    (explicit deletes and timer firings included), the lobby room
    exists, its identifier is the one of [constants.py], it has no timer
    record and no pending deletion, and the directory never lists it. *)
Theorem lobby_always_exists (allowed : Op → Prop) (s : State) :
  reachable allowed s →
  lobby_id (mgr s) = LOBBY_ID
  ∧ exists_ (mgr s) LOBBY_ID = true
  ∧ deletion_timers (mgr s) !! LOBBY_ID = None
  ∧ (∀ t, t ∈ loop s → t_room t ≠ LOBBY_ID)
  ∧ (LOBBY_ID ∉ list_rooms (mgr s)).
Proof.
  intros Hs. destruct (reachable_consistent allowed s Hs) as (I1 & I2 & I3 & I4).
  rewrite (reachable_lobby_id allowed s Hs) in *.
  split; [done|]. split; [by apply exists_true|]. split; [done|]. split.
  - intros t Hin Heq. apply (list_elem_of_fmap_2 t_room) in Hin.
    apply I3 in Hin. rewrite Heq, I4 in Hin. by destruct Hin.
  - rewrite elem_of_list_rooms, (reachable_lobby_id allowed s Hs).
    by intros [? _].
Qed.

(** X12: In every state of the application no room has two pending deletion
    callbacks, and [deletion_timers] records exactly the rooms that have
    one: a record is never left behind by a callback that ran, and a
    callback is never pending without its record. *)
Theorem one_pending_timer_per_room (allowed : Op → Prop) (s : State) :
  reachable allowed s →
  NoDup (t_room <$> loop s)
  ∧ ∀ k, is_Some (deletion_timers (mgr s) !! k) ↔ k ∈ t_room <$> loop s.
Proof.
  intros Hs. by destruct (reachable_consistent allowed s Hs) as (_ & I2 & I3 & _).
Qed.

(** ** Rooms do not share their registry *)

Lemma rooms_distinct_same (s s' : State) :
  rooms (mgr s') = rooms (mgr s) →
  (∀ r, is_Some (heap s !! r) → is_Some (heap s' !! r)) →
  rooms_distinct s → rooms_distinct s'.
Proof.
  intros Hr Hh [I1 I2]. unfold rooms_distinct. rewrite Hr. split; [|done].
  intros k r Hk. apply Hh. by eapply I1.
Qed.

Lemma rooms_distinct_bind_fresh (k : string) (s s' : State) :
  rooms (mgr s') = <[k := fresh (dom (heap s))]> (rooms (mgr s)) →
  heap s' = <[fresh (dom (heap s)) := Room_init]> (heap s) →
  rooms_distinct s → rooms_distinct s'.
Proof.
  intros Hr Hh [I1 I2]. unfold rooms_distinct. rewrite Hr, Hh.
  assert (∀ k', rooms (mgr s) !! k' ≠ Some (fresh (dom (heap s)))) as Hfresh.
  { intros k' Hk'. apply I1 in Hk'. apply elem_of_dom in Hk'.
    by apply is_fresh in Hk'. }
  split.
  - intros k' r [[-> <-]|[Hne Hk']]%lookup_insert_Some.
    + rewrite lookup_insert_eq. by eexists.
    + apply lookup_insert_is_Some'. right. by eapply I1.
  - intros k1 k2 r [[-> <-]|[Hne1 Hk1]]%lookup_insert_Some
                   [[-> Heq]|[Hne2 Hk2]]%lookup_insert_Some.
    + done.
    + by destruct (Hfresh k2).
    + subst r. by destruct (Hfresh k1).
    + by eapply I2.
Qed.

Lemma rooms_distinct_unbind (s s' : State) :
  (∀ k r, rooms (mgr s') !! k = Some r → rooms (mgr s) !! k = Some r) →
  heap s' = heap s →
  rooms_distinct s → rooms_distinct s'.
Proof.
  intros Hr Hh [I1 I2]. unfold rooms_distinct. rewrite Hh. split.
  - intros k r Hk. eapply I1. by apply Hr.
  - intros k1 k2 r Hk1 Hk2. eapply I2; by apply Hr.
Qed.

Lemma pop_connections_heap_dom (r : RoomRef) (stale : list WebSocket)
    (s : State) (r' : RoomRef) :
  is_Some (heap s !! r') →
  is_Some (heap (foldl (pop_connection r) s stale) !! r').
Proof.
  revert s. induction stale as [|ws rest IH]; intros s Hin; [done|].
  simpl. apply IH. unfold pop_connection. simpl.
  by apply lookup_alter_is_Some.
Qed.

Lemma broadcast_room_heap_dom (s : State) (room_id message : string)
    (exclude : option WebSocket) (r' : RoomRef) :
  is_Some (heap s !! r') →
  is_Some (heap (broadcast_room room_id message exclude s) !! r').
Proof.
  intros Hin. unfold broadcast_room.
  destruct (rooms (mgr s) !! room_id) as [r|]; [|done].
  destruct (send_multi_spec
              (filter (λ c, exclude ≠ Some c) (Dict.keys (conns r s))) message s)
    as (evs & (_ & Hh & _) & _).
  destruct (send_multi _ message s) as [stale s1]. simpl in *.
  rewrite <- Hh in Hin.
  pose proof (pop_connections_heap_dom r stale s1 r' Hin) as Hin2.
  destruct (bool_decide _ && bool_decide _); [|done].
  destruct (bool_decide _); done.
Qed.

Lemma broadcast_room_distinct (s : State) (room_id message : string)
    (exclude : option WebSocket) :
  rooms_distinct s → rooms_distinct (broadcast_room room_id message exclude s).
Proof.
  apply rooms_distinct_same.
  - destruct (rooms (mgr s) !! room_id) as [r|] eqn:Hr.
    + by destruct (broadcast_room_spec s room_id message exclude r Hr)
        as (evs & _ & _ & _ & _ & _ & _ & Hrooms & _).
    + unfold broadcast_room. by rewrite Hr.
  - intros r. apply broadcast_room_heap_dom.
Qed.

Lemma broadcast_rooms_distinct (s : State) :
  rooms_distinct s → rooms_distinct (broadcast_rooms s).
Proof.
  destruct (broadcast_rooms_spec s)
    as (evs & _ & _ & _ & _ & _ & Hr & _ & _ & Hh & _).
  apply rooms_distinct_same; [done|]. by rewrite Hh.
Qed.

Lemma create_distinct (room_id : string) (s : State) :
  rooms_distinct s → rooms_distinct (create room_id s).2.
Proof.
  unfold create.
  destruct (bool_decide (room_id = lobby_id (mgr s))
            || bool_decide (is_Some (rooms (mgr s) !! room_id))); [done|].
  simpl. by apply (rooms_distinct_bind_fresh room_id).
Qed.

Lemma delete_distinct (room_id : string) (s : State) :
  rooms_distinct s → rooms_distinct (delete_ room_id s).
Proof.
  unfold delete_. destruct (bool_decide _ && bool_decide _); [|done].
  apply rooms_distinct_unbind; [|done]. simpl.
  intros k r Hk. by apply lookup_delete_Some in Hk as [_ ?].
Qed.

Lemma ensure_room_distinct (room_id : string) (s : State) :
  rooms_distinct s → rooms_distinct (ensure_room room_id s).2.
Proof.
  intros Hinv. unfold ensure_room.
  destruct (rooms (mgr s) !! room_id) as [r|]; [done|].
  destruct (decide (room_id = lobby_id (mgr s))); simpl.
  - by apply (rooms_distinct_bind_fresh (lobby_id (mgr s)) s).
  - pose proof (create_distinct room_id s Hinv) as Hc.
    destruct (create room_id s) as [b s1]. simpl in *.
    by apply broadcast_rooms_distinct.
Qed.

Lemma pop_connection_distinct (r : RoomRef) (s : State) (ws : WebSocket) :
  rooms_distinct s → rooms_distinct (pop_connection r s ws).
Proof.
  apply rooms_distinct_same; [done|]. intros r' Hin.
  unfold pop_connection. simpl. by apply lookup_alter_is_Some.
Qed.

Lemma user_left_distinct (room_id : string) (ws : WebSocket)
    (username : string) (s : State) :
  rooms_distinct s → rooms_distinct (user_left room_id ws username s).
Proof.
  intros Hinv. unfold user_left.
  destruct (rooms (mgr s) !! room_id) as [r|]; [|done].
  unfold announce_status, announce_users. case_bool_decide.
  - apply broadcast_rooms_distinct. do 2 apply broadcast_room_distinct.
    by apply pop_connection_distinct.
  - apply broadcast_room_distinct. by apply pop_connection_distinct.
Qed.

Lemma join_distinct (room_id : string) (ws : WebSocket) (username : string)
    (s : State) :
  rooms_distinct s → rooms_distinct (join room_id ws username s).
Proof.
  intros Hinv. unfold join.
  pose proof (ensure_room_distinct room_id s Hinv) as He.
  destruct (ensure_room room_id s) as [[r|k] s1]; simpl in *; [|done].
  revert He. apply rooms_distinct_same; [done|]. intros r' Hin. simpl.
  by apply lookup_alter_is_Some.
Qed.

Lemma delayed_delete_heap (room_id : string) (s : State) :
  heap (_delayed_delete room_id s) = heap s.
Proof.
  unfold _delayed_delete, _delayed_delete_upto, _delayed_delete_body.
  cbn [take foldl].
  destruct (broadcast_rooms_spec (delete_ room_id (forget_timer room_id s)))
    as (evs & _ & _ & _ & _ & _ & _ & _ & _ & Hh & _).
  rewrite Hh. unfold delete_, forget_timer.
  repeat case_bool_decide; simpl; try done;
    destruct (bool_decide _ && bool_decide _); done.
Qed.

Lemma delete_rooms_sub (room_id : string) (s : State) (k : string) (r : RoomRef) :
  rooms (mgr (delete_ room_id s)) !! k = Some r → rooms (mgr s) !! k = Some r.
Proof.
  unfold delete_. destruct (bool_decide _ && bool_decide _); [|done].
  simpl. intros Hk. by apply lookup_delete_Some in Hk as [_ ?].
Qed.

Lemma fire_distinct (i : nat) (s : State) :
  rooms_distinct s → rooms_distinct (fire i s).
Proof.
  unfold fire. destruct (loop s !! i) as [t|]; [|done].
  apply rooms_distinct_unbind; [|by rewrite delayed_delete_heap].
  intros k r.
  unfold _delayed_delete, _delayed_delete_upto, _delayed_delete_body.
  cbn [take foldl].
  destruct (broadcast_rooms_spec
              (delete_ (t_room t) (forget_timer (t_room t) (dequeue i s))))
    as (evs & _ & _ & _ & _ & _ & Hrooms & _).
  destruct (forget_timer_spec (t_room t) (dequeue i s)) as (_ & _ & Hf & _).
  rewrite Hrooms. intros Hk%delete_rooms_sub. by rewrite Hf in Hk.
Qed.

Lemma reachable_distinct (allowed : Op → Prop) (s : State) :
  reachable allowed s → rooms_distinct s.
Proof.
  induction 1 as [w|op s Hs IH Hop].
  - unfold rooms_distinct, create_app, RoomManager_init. simpl. split.
    + intros k r [_ <-]%lookup_singleton_Some.
      rewrite lookup_singleton_eq. by eexists.
    + intros k1 k2 r [<- _]%lookup_singleton_Some [<- _]%lookup_singleton_Some.
      done.
  - destruct op; simpl.
    + by apply create_distinct.
    + by apply delete_distinct.
    + by apply ensure_room_distinct.
    + by apply broadcast_room_distinct.
    + by apply broadcast_rooms_distinct.
    + by apply broadcast_room_distinct.
    + by apply broadcast_room_distinct.
    + by apply user_left_distinct.
    + by apply join_distinct.
    + done.
    + done.
    + by apply fire_distinct.
    + done.
Qed.

(** X13: A broadcast to one room touches no other room: the registry of
    every other room, display names included, is what it was, whichever
    sends failed. *)
Theorem broadcast_room_leaves_other_rooms (allowed : Op → Prop) (s : State)
    (a b message : string) (exclude : option WebSocket) (rb : RoomRef) :
  reachable allowed s →
  rooms (mgr s) !! b = Some rb →
  a ≠ b →
  rooms (mgr (broadcast_room a message exclude s)) !! b = Some rb
  ∧ conns rb (broadcast_room a message exclude s) = conns rb s.
Proof.
  intros Hs Hb Hne.
  destruct (rooms (mgr s) !! a) as [ra|] eqn:Ha.
  - destruct (broadcast_room_spec s a message exclude ra Ha)
      as (evs & _ & _ & _ & _ & Hother & _ & Hrooms & _).
    rewrite Hrooms. split; [done|]. unfold conns. rewrite Hother; [done|].
    intros ->. destruct (reachable_distinct allowed s Hs) as [_ Hinj].
    by pose proof (Hinj a b ra Ha Hb).
  - unfold broadcast_room. by rewrite Ha.
Qed.

(** X14: Deleting a room and creating it again under the same identifier
    binds the identifier to another Room object, newly allocated and
    with an empty registry.  The Room object that was deleted keeps its
    registry as it was, and no identifier of [rooms] is bound to it any
    more. *)
Theorem recreated_room_is_another_object (allowed : Op → Prop) (s : State)
    (x : string) (r : RoomRef) :
  reachable allowed s →
  rooms (mgr s) !! x = Some r →
  x ≠ lobby_id (mgr s) →
  ∃ r',
    (ensure_room x (delete_ x s)).1 = Ok r'
    ∧ r' ≠ r
    ∧ heap s !! r' = None
    ∧ rooms (mgr (ensure_room x (delete_ x s)).2) !! x = Some r'
    ∧ conns r' (ensure_room x (delete_ x s)).2 = []
    ∧ conns r (ensure_room x (delete_ x s)).2 = conns r s
    ∧ (∀ k, rooms (mgr (ensure_room x (delete_ x s)).2) !! k ≠ Some r).
Proof.
  intros Hs Hx Hne.
  destruct (reachable_distinct allowed s Hs) as [Hheap Hinj].
  destruct (delete_spec x s Hne) as (Hrooms & Hl & _ & _ & Hh & _).
  set (s0 := delete_ x s) in *.
  assert (rooms (mgr s0) !! x = None) as Hnone
    by (by rewrite Hrooms, lookup_delete_eq).
  assert (heap s !! fresh (dom (heap s0)) = None) as Hnew.
  { rewrite <- Hh. apply not_elem_of_dom, is_fresh. }
  assert (fresh (dom (heap s0)) ≠ r) as Hfresh.
  { intros Heq. apply Hheap in Hx as [? Hx]. by rewrite <- Heq, Hnew in Hx. }
  exists (fresh (dom (heap s0))).
  unfold ensure_room. rewrite Hnone.
  destruct (decide (x = lobby_id (mgr s0))) as [Heq|_];
    [by rewrite Hl in Heq|].
  unfold create. rewrite bool_decide_eq_false_2 by (by rewrite Hl).
  rewrite bool_decide_eq_false_2 by (rewrite Hnone; by intros [? ?]).
  simpl. set (s1 := set_mgr _ (set_heap _ s0)).
  destruct (broadcast_rooms_spec s1)
    as (evs & _ & _ & _ & _ & _ & Hrooms1 & _ & _ & Hh1 & _).
  unfold getitem, conns. rewrite Hrooms1, Hh1. subst s1. simpl.
  rewrite !lookup_insert_eq. rewrite lookup_insert_ne by done.
  do 5 (split; [done|]). split; [by rewrite Hh|].
  intros k Hk. destruct (decide (k = x)) as [->|Hkx].
  - rewrite lookup_insert_eq in Hk. by simplify_eq.
  - rewrite lookup_insert_ne in Hk by done. rewrite Hrooms in Hk.
    rewrite lookup_delete_ne in Hk by done.
    by pose proof (Hinj k x r Hk Hx).
Qed.

(** ** The user list *)

(** X15: [announce_users] sends every connection of the room the display
    names of the registry as it is when the call starts, in registry
    order, one name per connection: a connection that this very
    broadcast prunes is still named in the list the others receive.
    For an unknown room nothing is sent and nothing changes. *)
Theorem announce_users_sends_names_before_pruning (s : State)
    (room_id : string) :
  (rooms (mgr s) !! room_id = None → announce_users room_id s = s)
  ∧ ∀ r, rooms (mgr s) !! room_id = Some r →
      ∃ evs,
        trace (announce_users room_id s) = trace s ++ evs
        ∧ all_carry (jd (PUsers (Dict.values (conns r s)))) evs
        ∧ (attempts evs).*1 = Dict.keys (conns r s)
        ∧ length (Dict.values (conns r s)) = length (attempts evs)
        ∧ conns r (announce_users room_id s)
          = filter (λ kv, kv.1 ∉ failed evs) (conns r s).
Proof.
  unfold announce_users, users_payload. split.
  - intros Hnone. unfold broadcast_room. by rewrite Hnone.
  - intros r Hr. rewrite Hr.
    destruct (broadcast_room_spec s room_id
                (jd (PUsers (Dict.values (conns r s)))) None r Hr)
      as (evs & Ht & Hc & Ha & Hconns & _).
    assert ((attempts evs).*1 = Dict.keys (conns r s)) as Ha'.
    { rewrite Ha. unfold Dict.keys.
      induction (conns r s).*1 as [|c l IH]; [done|].
      rewrite filter_cons_True by done. by rewrite IH. }
    exists evs. do 3 (split; [done|]). split; [|done].
    unfold Dict.values. rewrite length_fmap.
    rewrite <- (length_fmap fst (attempts evs)), Ha'.
    unfold Dict.keys. by rewrite length_fmap.
Qed.

(** * Coroutines cut at their suspension points and run without
      interruption *)

Lemma run_child_safe_send_text (ws : WebSocket) (message : string) (s : State) :
  run_child message (ChildSend ws) s
  = (ChildDone ws (safe_send_text ws message s).1,
     (safe_send_text ws message s).2).
Proof.
  unfold run_child, safe_send_text. simpl.
  destruct (send_text ws message (world s)) as [[|] w]; simpl; [done|].
  unfold record_io. simpl. by rewrite <- app_assoc.
Qed.

(** The send tasks run one after the other are the gather of the
    uninterrupted coroutine. *)
Lemma run_children_gather (targets : list WebSocket) (message : string)
    (s : State) :
  (run_children message (ChildSend <$> targets) s).2
  = (gather targets message s).2
  ∧ stale_of (run_children message (ChildSend <$> targets) s).1
    = (filter (λ p, is_stale p.2 = true)
         (zip targets (gather targets message s).1)).*1.
Proof.
  revert s. induction targets as [|ws rest IH]; intros s; [done|].
  rewrite fmap_cons. cbn [run_children gather].
  rewrite run_child_safe_send_text.
  destruct (safe_send_text ws message s) as [res s1]. cbn [fst snd].
  destruct (IH s1) as [IH1 IH2].
  destruct (run_children message (ChildSend <$> rest) s1) as [cs s2].
  destruct (gather rest message s1) as [results s3]. cbn [fst snd] in *.
  split; [done|]. cbn [zip zip_with]. rewrite filter_cons. cbn [fst snd].
  unfold stale_of in *. cbn [omap list_omap].
  destruct res; simpl; [done|]. by f_equal.
Qed.

Lemma run_on_done (o : Outcome) : o_task o = None → run_on o = o.
Proof. intros Ho. unfold run_on. by rewrite Ho. Qed.

Lemma run_on_suspended (t : Task) (s : State) :
  run_on (suspended t s) = run_task t s.
Proof. unfold run_on. simpl. by destruct (run_task t s). Qed.

Lemma iter_run_on_succ (n : nat) (o : Outcome) :
  Nat.iter (S n) run_on o = Nat.iter n run_on (run_on o).
Proof. induction n as [|n IH]; [done|]. simpl in *. by rewrite IH. Qed.

Lemma begin_send_multi_run (targets : list WebSocket) (message : string)
    (waiter : Waiter) (continue : list WebSocket → State → Outcome)
    (s : State) (n : nat) (o : Outcome) :
  (∀ children s',
     resume_task (mkTask message children waiter) s'
     = continue (stale_of children) s') →
  o_task o = None →
  Nat.iter n run_on
    (continue (send_multi targets message s).1 (send_multi targets message s).2)
  = o →
  Nat.iter (S n) run_on (begin_send_multi targets message waiter continue s) = o.
Proof.
  intros Hres Ho Hn. destruct targets as [|ws rest].
  - simpl in *. rewrite Hn. by apply run_on_done.
  - rewrite iter_run_on_succ. unfold begin_send_multi.
    rewrite run_on_suspended. unfold run_task. cbn [task_message task_children task_waiter].
    destruct (run_children_gather (ws :: rest) message s) as [H1 H2].
    destruct (run_children message (ChildSend <$> ws :: rest) s) as [cs s1].
    rewrite Hres. unfold send_multi in Hn.
    destruct (gather (ws :: rest) message s) as [results s2].
    cbn [fst snd] in *. by rewrite H2, H1.
Qed.

Lemma ensure_room_resume_done (room_id : string)
    (joining : option (WebSocket * string)) (s : State) :
  o_task (ensure_room_resume room_id joining s) = None.
Proof.
  unfold ensure_room_resume. by destruct (getitem (rooms (mgr s)) room_id).
Qed.

Lemma begin_broadcast_rooms_run (K : AfterRooms) (s : State) :
  run_on (begin_broadcast_rooms K s)
  = match K with
    | ReturnFromRooms => finished (broadcast_rooms s)
    | EnsureRoomReturn room_id joining =>
        ensure_room_resume room_id joining (broadcast_rooms s)
    end.
Proof.
  apply (begin_send_multi_run _ _ _ _ _ 0).
  - done.
  - destruct K; [done|apply ensure_room_resume_done].
  - simpl. unfold after_broadcast_rooms, broadcast_rooms, broadcast_rooms_resume.
    by destruct (send_multi (elements (lobby_clients (mgr s)))
                   (jd (PRooms (list_rooms (mgr s)))) s) as [stale s1].
Qed.

Lemma begin_broadcast_room_run (room_id message : string)
    (exclude : option WebSocket) (K : AfterRoom) (continue : State → Outcome)
    (s : State) (n : nat) (o : Outcome) :
  (∀ s', after_broadcast_room K s' = continue s') →
  o_task o = None →
  Nat.iter n run_on (continue (broadcast_room room_id message exclude s)) = o →
  Nat.iter (S n) run_on
    (begin_broadcast_room room_id message exclude K continue s) = o.
Proof.
  intros HK Ho Hn. unfold begin_broadcast_room. unfold broadcast_room in Hn.
  destruct (rooms (mgr s) !! room_id) as [r|].
  - apply begin_send_multi_run; [|done|].
    + intros children s'. unfold resume_task. simpl. apply HK.
    + unfold broadcast_room_resume.
      by destruct (send_multi (filter (λ c, exclude ≠ Some c)
                                 (Dict.keys (conns r s))) message s)
        as [stale s1].
  - simpl. rewrite Hn. by apply run_on_done.
Qed.

Lemma to_completion_iter (n : nat) (o : Outcome) (s : State) :
  n ≤ 3 → Nat.iter n run_on o = finished s → to_completion o = finished s.
Proof.
  intros Hn Ho. unfold to_completion.
  destruct n as [|[|[|[|n]]]]; simpl in Ho; [ | | | |lia].
  - by rewrite Ho.
  - by rewrite Ho.
  - by rewrite Ho.
  - done.
Qed.

(** Started and run without interruption, an action of the interleaved
    system is the action of the uninterrupted system, and no [KeyError]
    is raised. *)
Lemma start_op_to_completion (op : Op) (s : State) :
  to_completion (start_op op s) = finished (run op s).
Proof.
  destruct op as [id|id|id|id m e| |id|id tx e|id ws u|id ws u|ws|ws|i|w];
    simpl; try done.
  - (* ensure_room *)
    apply (to_completion_iter 1); [lia|]. simpl.
    unfold begin_ensure_room, ensure_room.
    destruct (rooms (mgr s) !! id) as [r|] eqn:Hr; [done|].
    destruct (decide (id = lobby_id (mgr s))) as [Heq|Hne].
    + simpl. unfold ensure_room_resume, getitem. simpl.
      by rewrite lookup_insert_eq.
    + pose proof (ensure_room_uninterrupted id s) as (r & Hok & _).
      unfold ensure_room in Hok. rewrite Hr in Hok.
      rewrite decide_False in Hok by done.
      destruct (create id s) as [b s1]. rewrite begin_broadcast_rooms_run.
      simpl in *. unfold ensure_room_resume. by rewrite Hok.
  - apply (to_completion_iter 1); [lia|].
    by apply begin_broadcast_room_run.
  - apply (to_completion_iter 1); [lia|]. simpl.
    by rewrite begin_broadcast_rooms_run.
  - apply (to_completion_iter 1); [lia|].
    by apply begin_broadcast_room_run.
  - apply (to_completion_iter 1); [lia|].
    by apply begin_broadcast_room_run.
  - (* user_left *)
    apply (to_completion_iter 3); [lia|].
    unfold begin_user_left, user_left.
    destruct (rooms (mgr s) !! id) as [r|]; [|done].
    apply begin_broadcast_room_run; [done|done|].
    unfold user_left_after_status, announce_status.
    set (s2 := broadcast_room id _ None (pop_connection r s ws)).
    destruct (bool_decide (conns r s2 ≠ [])); [|done].
    apply begin_broadcast_room_run; [done|done|].
    simpl. unfold user_left_after_users.
    by rewrite begin_broadcast_rooms_run.
  - (* join *)
    apply (to_completion_iter 1); [lia|]. simpl.
    unfold begin_ensure_room, join, ensure_room.
    destruct (rooms (mgr s) !! id) as [r|] eqn:Hr; [done|].
    destruct (decide (id = lobby_id (mgr s))) as [Heq|Hne].
    + simpl. unfold ensure_room_resume, getitem. simpl.
      by rewrite lookup_insert_eq.
    + pose proof (ensure_room_uninterrupted id s) as (r & Hok & _).
      unfold ensure_room in Hok. rewrite Hr in Hok.
      rewrite decide_False in Hok by done.
      destruct (create id s) as [b s1]. rewrite begin_broadcast_rooms_run.
      simpl in *. unfold ensure_room_resume. by rewrite Hok.
  - (* fire *)
    unfold fire. destruct (loop s !! i) as [t|]; [|done].
    apply (to_completion_iter 1); [lia|]. simpl.
    unfold begin_delayed_delete. by rewrite begin_broadcast_rooms_run.
Qed.

(** ** The uninterrupted runs are among the interleaved ones *)

Lemma run_child_done (message : string) (c : Child) (s : State) :
  is_done (run_child message c s).1 = true.
Proof.
  unfold run_child. destruct c as [ws|ws|ws res]; simpl; [|done|done].
  by destruct (send_text ws message (world s)) as [[|] w].
Qed.

Lemma run_children_done (message : string) (children : list Child) (s : State) :
  forallb is_done (run_children message children s).1 = true.
Proof.
  revert s. induction children as [|c rest IH]; intros s; [done|].
  simpl. pose proof (run_child_done message c s) as Hc.
  destruct (run_child message c s) as [c' s1].
  specialize (IH s1). destruct (run_children message rest s1) as [rest' s2].
  simpl in *. by rewrite Hc, IH.
Qed.

Lemma sys_steps_app (xs ys : list Step) (sys : Sys) :
  sys_steps (xs ++ ys) sys = sys_steps ys (sys_steps xs sys).
Proof. apply foldl_app. Qed.

(** The event loop runs the send tasks of the only suspended coroutine
    one after the other. *)
Lemma advance_children (message : string) (waiter : Waiter)
    (errors : list string) (rest finished_children : list Child) (s : State) :
  ∃ xs,
    Forall (λ x, ∃ i j, x = Advance i j) xs
    ∧ sys_steps xs
        (mkSys s [mkTask message (finished_children ++ rest) waiter] errors)
      = mkSys (run_children message rest s).2
          [mkTask message
             (finished_children ++ (run_children message rest s).1) waiter]
          errors.
Proof.
  revert finished_children s.
  induction rest as [|c rest IH]; intros finished_children s.
  { exists []. split; [constructor|done]. }
  cbn [run_children]. unfold run_child.
  destruct (child_step message c s) as [c1 s1] eqn:H1.
  destruct (child_step message c1 s1) as [c2 s2] eqn:H2.
  destruct (IH (finished_children ++ [c2]) s2) as (xs & Hxs & Hrun).
  destruct (run_children message rest s2) as [rest' s3]. cbn [fst snd] in *.
  exists (Advance 0 (length finished_children)
          :: Advance 0 (length finished_children) :: xs).
  split; [repeat constructor; eauto|].
  cbn [sys_steps foldl sys_step tasks lookup list_lookup st raised
       task_children task_message task_waiter].
  rewrite list_lookup_middle by done. rewrite H1.
  cbn [insert list_insert task_children task_message task_waiter lookup
       list_lookup st tasks raised].
  rewrite insert_app_r_alt by lia. rewrite Nat.sub_diag.
  cbn [insert list_insert].
  rewrite list_lookup_middle by done. rewrite H2.
  cbn [insert list_insert task_children task_message task_waiter].
  rewrite insert_app_r_alt by lia. rewrite Nat.sub_diag.
  cbn [insert list_insert].
  rewrite <- !app_assoc in Hrun. cbn [app] in Hrun. exact Hrun.
Qed.

(** A coroutine that is the only one suspended can run without
    interruption. *)
Lemma run_on_sys_steps (o : Outcome) (errors : list string) :
  ∃ xs,
    Forall (λ x, ∀ op, x ≠ Start op) xs
    ∧ sys_steps xs (settle o [] errors) = settle (run_on o) [] errors.
Proof.
  unfold run_on, settle. destruct (o_task o) as [t|] eqn:Ht.
  2:{ exists []. split; [constructor|]. simpl. by rewrite Ht. }
  destruct t as [message children waiter].
  destruct (advance_children message waiter (errors ++ o_raised o) children []
              (o_state o)) as (xs & Hxs & Hrun).
  exists (xs ++ [Resume 0]). split.
  - apply Forall_app. split; [|by repeat constructor].
    eapply Forall_impl; [exact Hxs|]. simpl. by intros x (i & j & ->) op.
  - rewrite sys_steps_app. cbn [app option_list option_rect] in *.
    rewrite Hrun.
    unfold run_task. cbn [task_message task_children task_waiter].
    pose proof (run_children_done message children (o_state o)) as Hdone.
    destruct (run_children message children (o_state o)) as [cs s1].
    cbn [fst snd sys_steps foldl sys_step tasks lookup list_lookup
         task_children st raised] in *.
    rewrite Hdone. unfold settle. cbn [delete list_delete app o_raised].
    by rewrite app_assoc.
Qed.

Lemma interleaved_steps_allowed (allowed : Step → Sys → Prop) (xs : list Step)
    (sys : Sys) :
  (∀ x y, (∀ op, x ≠ Start op) → allowed x y) →
  Forall (λ x, ∀ op, x ≠ Start op) xs →
  interleaved allowed sys → interleaved allowed (sys_steps xs sys).
Proof.
  intros Hok Hxs. revert sys. induction Hxs as [|x xs Hx Hxs IH]; intros sys Hs;
    [done|].
  simpl. apply IH. constructor; [done|]. by apply Hok.
Qed.

(** Every state the uninterrupted system reaches is a state of the
    interleaved system in which no coroutine is suspended. *)
Lemma reachable_interleaved (permitted : Op → Prop)
    (allowed : Step → Sys → Prop) (s : State) :
  (∀ op sys, permitted op → tasks sys = [] → allowed (Start op) sys) →
  (∀ x sys, (∀ op, x ≠ Start op) → allowed x sys) →
  reachable permitted s →
  ∃ errors, interleaved allowed (mkSys s [] errors).
Proof.
  intros Hstart Hother Hs. induction Hs as [w|op s Hs (errors & IH) Hop].
  { exists []. constructor. }
  exists errors.
  assert (interleaved allowed
            (settle (start_op op s) [] errors)) as H0.
  { apply (interleaved_step allowed (Start op) (mkSys s [] errors)); [done|].
    by apply Hstart. }
  destruct (run_on_sys_steps (start_op op s) errors) as (xs1 & Hx1 & H1).
  destruct (run_on_sys_steps (run_on (start_op op s)) errors) as (xs2 & Hx2 & H2).
  destruct (run_on_sys_steps (run_on (run_on (start_op op s))) errors)
    as (xs3 & Hx3 & H3).
  apply (interleaved_steps_allowed allowed xs1) in H0; [|done|done].
  rewrite H1 in H0.
  apply (interleaved_steps_allowed allowed xs2) in H0; [|done|done].
  rewrite H2 in H0.
  apply (interleaved_steps_allowed allowed xs3) in H0; [|done|done].
  rewrite H3 in H0.
  change (run_on (run_on (run_on (start_op op s))))
    with (to_completion (start_op op s)) in H0.
  rewrite start_op_to_completion in H0. unfold settle in H0. simpl in H0.
  by rewrite app_nil_r in H0.
Qed.

(** * Coroutines interleaved at their suspension points *)

(** ** What one coroutine keeps between two suspensions *)

Lemma keeps_refl (k : string) (s : State) : keeps k s s.
Proof. split; auto. Qed.

Lemma keeps_trans (k : string) (s1 s2 s3 : State) :
  keeps k s1 s2 → keeps k s2 s3 → keeps k s1 s3.
Proof.
  intros [Hr1 Ht1] [Hr2 Ht2]. split; [auto|].
  intros H3. destruct (Ht2 H3) as [H2|?]; [|auto].
  destruct (Ht1 H2) as [?|?]; auto.
Qed.

Lemma keeps_same (k : string) (s s' : State) :
  rooms (mgr s') = rooms (mgr s) →
  deletion_timers (mgr s') = deletion_timers (mgr s) →
  keeps k s s'.
Proof. intros Hr Ht. unfold keeps. rewrite Hr, Ht. auto. Qed.

Lemma extends_keeps (k : string) (s s' : State) : extends s s' → keeps k s s'.
Proof. intros (_ & Hr & Ht). split; auto. Qed.

Lemma broadcast_rooms_resume_keeps (k : string) (stale : list WebSocket)
    (s : State) :
  keeps k s (broadcast_rooms_resume stale s).
Proof.
  destruct (discard_lobby_clients_spec stale s) as (_ & Hr & Ht & _).
  by apply keeps_same.
Qed.

Lemma broadcast_room_resume_keeps (k room_id : string) (r : RoomRef)
    (stale : list WebSocket) (s : State) :
  (room_id = k → is_Some (rooms (mgr s) !! k)) →
  keeps k s (broadcast_room_resume room_id r stale s).
Proof.
  intros Hk. unfold broadcast_room_resume.
  destruct (pop_connections_spec r stale s) as (Hm & _).
  set (s2 := foldl (pop_connection r) s stale) in *.
  destruct (bool_decide (conns r s2 = [])
            && bool_decide (room_id ≠ lobby_id (mgr s2)));
    [|apply keeps_same; by rewrite Hm].
  destruct (bool_decide (is_Some (deletion_timers (mgr s2) !! room_id)));
    [apply keeps_same; by rewrite Hm|].
  split; simpl; rewrite Hm; [done|].
  intros Hs. destruct (decide (room_id = k)) as [Heq|Hne].
  - right. by apply Hk.
  - left. by rewrite lookup_insert_ne in Hs.
Qed.

Lemma keeps_room_finished (k : string) (s s' : State) :
  keeps k s s' → keeps_room k s (finished s').
Proof. intros H. split; [done|]. intros t Ht. discriminate Ht. Qed.

Lemma keeps_room_trans (k : string) (s s1 : State) (o : Outcome) :
  keeps k s s1 → keeps_room k s1 o → keeps_room k s o.
Proof. intros H [H1 H2]. split; [by eapply keeps_trans|done]. Qed.

Lemma begin_send_multi_keeps (k : string) (targets : list WebSocket)
    (message : string) (waiter : Waiter)
    (continue : list WebSocket → State → Outcome) (s : State) :
  (awaits_room k (mkTask message (ChildSend <$> targets) waiter) = true →
   is_Some (rooms (mgr s) !! k)) →
  keeps_room k s (continue [] s) →
  keeps_room k s (begin_send_multi targets message waiter continue s).
Proof.
  intros Hw Hc. destruct targets as [|ws rest]; [done|].
  split; [apply keeps_refl|]. simpl. intros t [= <-]. done.
Qed.

Lemma joined_keeps (k : string) (r : RoomRef)
    (joining : option (WebSocket * string)) (s : State) :
  keeps k s (joined r joining s).
Proof. destruct joining as [[ws username]|]; by apply keeps_same. Qed.

Lemma ensure_room_resume_keeps (k room_id : string)
    (joining : option (WebSocket * string)) (s : State) :
  keeps_room k s (ensure_room_resume room_id joining s).
Proof.
  unfold ensure_room_resume, getitem.
  destruct (rooms (mgr s) !! room_id) as [r|].
  - apply keeps_room_finished, joined_keeps.
  - split; [apply keeps_refl|]. intros t Ht. discriminate Ht.
Qed.

Lemma after_broadcast_rooms_keeps (k : string) (K : AfterRooms)
    (stale : list WebSocket) (s : State) :
  keeps_room k s (after_broadcast_rooms K stale s).
Proof.
  unfold after_broadcast_rooms. destruct K as [|room_id joining].
  - apply keeps_room_finished, broadcast_rooms_resume_keeps.
  - eapply keeps_room_trans;
      [apply broadcast_rooms_resume_keeps|apply ensure_room_resume_keeps].
Qed.

Lemma begin_broadcast_rooms_keeps (k : string) (K : AfterRooms) (s : State) :
  keeps_room k s (begin_broadcast_rooms K s).
Proof.
  apply begin_send_multi_keeps; [|apply after_broadcast_rooms_keeps].
  intros Hw. discriminate Hw.
Qed.

Lemma begin_broadcast_room_keeps (k room_id message : string)
    (exclude : option WebSocket) (K : AfterRoom) (continue : State → Outcome)
    (s : State) :
  (∀ s', keeps_room k s' (continue s')) →
  keeps_room k s (begin_broadcast_room room_id message exclude K continue s).
Proof.
  intros Hc. unfold begin_broadcast_room.
  destruct (rooms (mgr s) !! room_id) as [r|] eqn:Hr; [|apply Hc].
  apply begin_send_multi_keeps.
  - unfold awaits_room. simpl. intros <-%bool_decide_eq_true.
    rewrite Hr. by eexists.
  - eapply keeps_room_trans; [|apply Hc].
    apply broadcast_room_resume_keeps. intros <-. rewrite Hr. by eexists.
Qed.

Lemma user_left_after_status_keeps (k room_id : string) (r : RoomRef)
    (s : State) :
  keeps_room k s (user_left_after_status room_id r s).
Proof.
  unfold user_left_after_status. destruct (bool_decide (conns r s ≠ [])).
  - apply begin_broadcast_room_keeps. intros s'.
    apply begin_broadcast_rooms_keeps.
  - apply keeps_room_finished, keeps_refl.
Qed.

Lemma after_broadcast_room_keeps (k : string) (K : AfterRoom) (s : State) :
  keeps_room k s (after_broadcast_room K s).
Proof.
  destruct K as [|room_id r|]; simpl.
  - apply keeps_room_finished, keeps_refl.
  - apply user_left_after_status_keeps.
  - apply begin_broadcast_rooms_keeps.
Qed.

(** A coroutine that resumes keeps [k], provided that [k] names a room
    if the coroutine is a broadcast to [k]. *)
Lemma resume_task_keeps (k : string) (t : Task) (s : State) :
  (awaits_room k t = true → is_Some (rooms (mgr s) !! k)) →
  keeps_room k s (resume_task t s).
Proof.
  intros Hw. unfold resume_task. unfold awaits_room in Hw.
  destruct (task_waiter t) as [K|room_id r K].
  - apply after_broadcast_rooms_keeps.
  - eapply keeps_room_trans; [|apply after_broadcast_room_keeps].
    apply broadcast_room_resume_keeps. intros Heq. apply Hw.
    by apply bool_decide_eq_true.
Qed.

Lemma begin_ensure_room_keeps (k room_id : string)
    (joining : option (WebSocket * string)) (s : State) :
  keeps_room k s (begin_ensure_room room_id joining s).
Proof.
  unfold begin_ensure_room.
  destruct (rooms (mgr s) !! room_id) as [r|] eqn:Hr.
  - apply keeps_room_finished, joined_keeps.
  - destruct (decide (room_id = lobby_id (mgr s))) as [Heq|Hne].
    + simpl. eapply keeps_room_trans; [|apply ensure_room_resume_keeps].
      split; simpl; [|auto]. intros Hk.
      apply lookup_insert_is_Some'. by right.
    + pose proof (create_extends room_id s) as Hext.
      destruct (create room_id s) as [b s1]. simpl in Hext.
      eapply keeps_room_trans; [by apply extends_keeps|].
      apply begin_broadcast_rooms_keeps.
Qed.

Lemma begin_user_left_keeps (k room_id : string) (ws : WebSocket)
    (username : string) (s : State) :
  keeps_room k s (begin_user_left room_id ws username s).
Proof.
  unfold begin_user_left.
  destruct (rooms (mgr s) !! room_id) as [r|];
    [|apply keeps_room_finished, keeps_refl].
  eapply keeps_room_trans with (s1 := pop_connection r s ws);
    [by apply keeps_same|].
  apply begin_broadcast_room_keeps. intros s'.
  apply user_left_after_status_keeps.
Qed.

(** A timer firing removes the timer record of its room, whatever the
    coroutine does up to its suspension. *)
Lemma begin_delayed_delete_keeps (k room_id : string) (s : State) :
  (is_Some (deletion_timers (mgr (o_state (begin_delayed_delete room_id s))) !! k) →
   k ≠ room_id ∧ is_Some (deletion_timers (mgr s) !! k))
  ∧ (∀ k', k' ≠ room_id →
       rooms (mgr (o_state (begin_delayed_delete room_id s))) !! k'
       = rooms (mgr s) !! k')
  ∧ (room_id = lobby_id (mgr s) ∨ rooms (mgr s) !! room_id = None →
     rooms (mgr (o_state (begin_delayed_delete room_id s))) = rooms (mgr s))
  ∧ ∀ t, o_task (begin_delayed_delete room_id s) = Some t →
         awaits_room k t = false.
Proof.
  unfold begin_delayed_delete.
  destruct (forget_timer_spec room_id s) as (Ht & Hl & Hr & _).
  destruct (delete_frame room_id (forget_timer room_id s)) as (_ & Ht' & Hr').
  set (s1 := delete_ room_id (forget_timer room_id s)) in *.
  assert (rooms (mgr (o_state (begin_broadcast_rooms ReturnFromRooms s1)))
          = rooms (mgr s1)
          ∧ deletion_timers (mgr (o_state (begin_broadcast_rooms ReturnFromRooms s1)))
            = deletion_timers (mgr s1)
          ∧ ∀ t, o_task (begin_broadcast_rooms ReturnFromRooms s1) = Some t →
                 awaits_room k t = false) as (Hr1 & Ht1 & Htask).
  { unfold begin_broadcast_rooms, begin_send_multi.
    destruct (elements (lobby_clients (mgr s1))) as [|ws rest]; simpl.
    - done.
    - do 2 (split; [done|]). by intros t [= <-]. }
  rewrite Hr1, Ht1, Ht', Ht. split; [|split; [|split; [|done]]].
  - intros Hk. destruct (decide (k = room_id)) as [->|Hne].
    + rewrite lookup_delete_eq in Hk. by destruct Hk.
    + by rewrite lookup_delete_ne in Hk.
  - intros k' Hne. rewrite Hr' by done. by rewrite Hr.
  - intros Hnone. subst s1. unfold delete_. rewrite Hl, Hr.
    destruct Hnone as [Heq|Hnone].
    + rewrite bool_decide_eq_false_2 by (by intros ?). simpl. done.
    + rewrite (bool_decide_eq_false_2 (is_Some _))
        by (rewrite Hnone; by intros [? ?]).
      rewrite andb_false_r. done.
Qed.

(** An action that does not remove [k] keeps it up to its first
    suspension. *)
Lemma start_op_keeps (k : string) (op : Op) (s : State) :
  op ≠ OpDelete k →
  (∀ i t, op = OpFire i → loop s !! i = Some t → t_room t ≠ k) →
  keeps_room k s (start_op op s).
Proof.
  intros Hd Hf. destruct op as [id|id|id|id m e| |id|id tx e|id ws u|id ws u|ws|ws|i|w];
    simpl.
  - apply keeps_room_finished, extends_keeps, create_extends.
  - apply keeps_room_finished.
    destruct (delete_frame id s) as (_ & Ht & Hr).
    assert (k ≠ id) as Hne by (intros ->; by destruct Hd).
    split; [by rewrite Hr|]. rewrite Ht. auto.
  - apply begin_ensure_room_keeps.
  - apply begin_broadcast_room_keeps. intros s'.
    apply keeps_room_finished, keeps_refl.
  - apply begin_broadcast_rooms_keeps.
  - apply begin_broadcast_room_keeps. intros s'.
    apply keeps_room_finished, keeps_refl.
  - apply begin_broadcast_room_keeps. intros s'.
    apply keeps_room_finished, keeps_refl.
  - apply begin_user_left_keeps.
  - apply begin_ensure_room_keeps.
  - apply keeps_room_finished. by apply keeps_same.
  - apply keeps_room_finished. by apply keeps_same.
  - destruct (loop s !! i) as [t|] eqn:Hi;
      [|apply keeps_room_finished, keeps_refl].
    specialize (Hf i t eq_refl Hi).
    destruct (begin_delayed_delete_keeps k (t_room t) (dequeue i s))
      as (Ht & Hr & _ & Htask).
    split; [split|].
    + by rewrite Hr.
    + intros Hk. left. by apply Ht.
    + intros t' Ht' Haw. by rewrite (Htask t' Ht') in Haw.
  - apply keeps_room_finished. by apply keeps_same.
Qed.

(** ** The timer records in the interleaved runs *)

Lemma child_step_mgr (message : string) (c : Child) (s : State) :
  mgr (child_step message c s).2 = mgr s.
Proof.
  destruct c as [ws|ws|ws res]; simpl; [|done|done].
  by destruct (send_text ws message (world s)) as [[|] w].
Qed.

Lemma settled_settle (k : string) (s : State) (o : Outcome) (pool : list Task)
    (errors : list string) :
  (is_Some (deletion_timers (mgr s) !! k) → is_Some (rooms (mgr s) !! k)) →
  Forall (λ t, awaits_room k t = true → is_Some (rooms (mgr s) !! k)) pool →
  keeps_room k s o →
  settled k (settle o pool errors).
Proof.
  intros H1 H2 [[Hr Ht] Htask]. split; simpl.
  - intros Hk. destruct (Ht Hk) as [?|?]; auto.
  - apply Forall_app. split.
    + eapply Forall_impl; [exact H2|]. simpl. auto.
    + destruct (o_task o) as [t|]; simpl; [|constructor].
      constructor; [|constructor]. by apply Htask.
Qed.

Lemma existsb_false_Forall {A : Type} (f : A → bool) (l : list A) :
  existsb f l = false → Forall (λ x, f x = false) l.
Proof.
  induction l as [|x l IH]; simpl; [constructor|].
  intros [Hx Hl]%orb_false_iff. constructor; auto.
Qed.

Lemma sys_init_settled (k : string) (w : World) : settled k (sys_init w).
Proof.
  split; simpl; [|constructor]. intros [h Hh].
  by rewrite lookup_empty in Hh.
Qed.

Lemma sys_step_settled (k : string) (x : Step) (sys : Sys) :
  overtakes k x sys = false → settled k sys → settled k (sys_step x sys).
Proof.
  intros Hallowed [H1 H2]. destruct x as [op|i j|i]; simpl.
  - destruct op as [id|id|id|id m e| |id|id tx e|id ws u|id ws u|ws|ws|i|w];
      try (solve [apply (settled_settle k (st sys)); [done|done|];
                  apply start_op_keeps; [done|]; intros ? ? [=]]).
    { (* delete *)
      destruct (decide (id = k)) as [->|Hd].
      2:{ apply (settled_settle k (st sys)); [done|done|].
          apply start_op_keeps; [|intros ? ? [=]]. intros [=]. by destruct Hd. }
      unfold overtakes, removes in Hallowed. simpl in Hallowed.
      rewrite (bool_decide_eq_true_2 (k = k)) in Hallowed by done.
      rewrite andb_true_r in Hallowed.
      destruct (bool_decide (k ≠ lobby_id (mgr (st sys)))
                && bool_decide (is_Some (rooms (mgr (st sys)) !! k))) eqn:Hrem.
      - simpl in Hallowed. apply orb_false_iff in Hallowed as [Hrec Haw].
        apply bool_decide_eq_false in Hrec.
        apply existsb_false_Forall in Haw.
        destruct (delete_frame k (st sys)) as (_ & Ht & _).
        split; simpl.
        + rewrite Ht. intros Hk. by destruct Hrec.
        + rewrite app_nil_r. eapply Forall_impl; [exact Haw|]. simpl.
          intros t Hf Ht'. by rewrite Hf in Ht'.
      - simpl. unfold delete_. rewrite Hrem. split; simpl; [done|].
        by rewrite app_nil_r. }
    (* a timer fires *)
    destruct (loop (st sys) !! i) as [t|] eqn:Hi.
    2:{ apply (settled_settle k (st sys)); [done|done|]. apply start_op_keeps; [done|].
        intros i' t' [= <-] Hi'. by rewrite Hi in Hi'. }
    destruct (decide (t_room t = k)) as [Hk|Hne].
    2:{ apply (settled_settle k (st sys)); [done|done|]. apply start_op_keeps; [done|].
        intros i' t' [= <-] Hi'. rewrite Hi in Hi'. by simplify_eq. }
    simpl. rewrite Hi.
    destruct (begin_delayed_delete_keeps k (t_room t) (dequeue i (st sys)))
      as (Ht & Hr & Hsame & Htask).
    split; simpl.
    + intros Hrec. apply Ht in Hrec as [Hrec _]. by destruct Hrec.
    + apply Forall_app. split.
      * unfold overtakes, removes in Hallowed. simpl in Hallowed.
        rewrite Hi in Hallowed. simpl in Hallowed. rewrite Hk in Hallowed.
        rewrite (bool_decide_eq_true_2 (Some k = Some k)) in Hallowed by done.
        rewrite andb_true_r in Hallowed.
        destruct (bool_decide (k ≠ lobby_id (mgr (st sys)))
                  && bool_decide (is_Some (rooms (mgr (st sys)) !! k))) eqn:Hrem.
        -- simpl in Hallowed. apply existsb_false_Forall in Hallowed.
           eapply Forall_impl; [exact Hallowed|]. simpl.
           intros t' Hf Ht'. by rewrite Hf in Ht'.
        -- rewrite Hsame.
           { eapply Forall_impl; [exact H2|]. simpl. auto. }
           apply andb_false_iff in Hrem as [Hl|Hn].
           ++ left. apply bool_decide_eq_false in Hl. rewrite Hk.
              by apply dec_stable.
           ++ right. apply bool_decide_eq_false in Hn. rewrite Hk.
              simpl. by apply eq_None_not_Some.
      * destruct (o_task _) as [t'|]; simpl; [|constructor].
        constructor; [|constructor]. intros Haw.
        by rewrite (Htask t' eq_refl) in Haw.
  - destruct (tasks sys !! i) as [t|] eqn:Hi; [|done].
    destruct (task_children t !! j) as [c|]; [|done].
    pose proof (child_step_mgr (task_message t) c (st sys)) as Hm.
    destruct (child_step (task_message t) c (st sys)) as [c' s']. simpl in Hm.
    split; simpl; rewrite Hm; [done|].
    apply Forall_insert; [done|].
    exact (Forall_lookup_1 _ _ _ _ H2 Hi).
  - destruct (tasks sys !! i) as [t|] eqn:Hi; [|done].
    destruct (forallb is_done (task_children t)); [|done].
    apply (settled_settle k (st sys)); [done|by apply Forall_delete|].
    apply resume_task_keeps.
    exact (Forall_lookup_1 _ _ _ _ H2 Hi).
Qed.

Lemma interleaved_sys_steps (allowed : Step → Sys → Prop) (xs : list Step)
    (sys : Sys) :
  interleaved allowed sys → all_allowed allowed xs sys →
  interleaved allowed (sys_steps xs sys).
Proof.
  revert sys. induction xs as [|x xs IH]; intros sys Hs Hall; [done|].
  destruct Hall as [Hx Hall]. apply (IH (sys_step x sys)); [|done].
  by constructor.
Qed.

Lemma interleaved_settled (k : string) (sys : Sys) :
  interleaved (λ x y, overtakes k x y = false) sys → settled k sys.
Proof.
  induction 1 as [w|x sys Hs IH Hx].
  - apply sys_init_settled.
  - by apply sys_step_settled.
Qed.

(** With every coroutine run without interruption, only [delete] of the
    identifier itself can leave it with a timer record and no room. *)
Lemma no_orphan_timer_uninterrupted (k : string) (s : State) :
  reachable (λ op, op ≠ OpDelete k) s → ¬ orphan_timer k s.
Proof.
  intros Hs.
  destruct (reachable_interleaved (λ op, op ≠ OpDelete k)
              (λ x y, overtakes k x y = false) s) as (errors & Hi).
  - intros op sys Hop Htasks. unfold overtakes, removes. rewrite Htasks.
    destruct op; simpl; rewrite ?andb_false_r; try done.
    rewrite (bool_decide_eq_false_2 (_ = k)); [by rewrite andb_false_r|].
    intros ->. by destruct Hop.
  - intros x sys Hx. unfold overtakes, removes.
    destruct x as [op|i j|i]; [by destruct (Hx op)| |];
      by rewrite andb_false_r.
  - done.
  - apply interleaved_settled in Hi as [H1 _]. simpl in H1.
    intros [Hnone Hrec]. apply H1 in Hrec. rewrite Hnone in Hrec.
    by destruct Hrec.
Qed.

(** C4 (amended): with the coroutines interleaved at their suspension
    points in any way, a room identifier is never absent from [rooms] and
    a key of [deletion_timers] at once, provided its room is never
    removed by [delete] while it has a timer record, nor removed, by
    [delete] or by its timer firing, while a broadcast to it is
    suspended in its sends. *)
Theorem no_orphan_timer_unless_overtaken (room_id : string) (sys : Sys) :
  interleaved (λ x y, overtakes room_id x y = false) sys →
  ¬ orphan_timer room_id (st sys).
Proof.
  intros Hs. apply interleaved_settled in Hs as [H1 _].
  intros [Hnone Hrec]. apply H1 in Hrec. rewrite Hnone in Hrec. by destruct Hrec.
Qed.

(** ** The lobby and the timers in the interleaved runs *)

Lemma benign_stable (l : string) (s s' : State) :
  benign s s' → stable l s → stable l s'.
Proof.
  intros Hb [Hl Hc]. split; [|by eapply benign_consistent].
  destruct Hb as (Hl' & _). by rewrite Hl'.
Qed.

Lemma broadcast_room_resume_benign (room_id : string) (r : RoomRef)
    (stale : list WebSocket) (s : State) :
  benign s (broadcast_room_resume room_id r stale s).
Proof.
  unfold broadcast_room_resume.
  destruct (pop_connections_spec r stale s) as (Hm & Hloop & _).
  set (s2 := foldl (pop_connection r) s stale) in *.
  destruct (bool_decide (conns r s2 = [])
            && bool_decide (room_id ≠ lobby_id (mgr s2))) eqn:Hc;
    [|apply benign_same; by rewrite ?Hm].
  destruct (bool_decide (is_Some (deletion_timers (mgr s2) !! room_id))) eqn:Ht;
    [apply benign_same; by rewrite ?Hm|].
  apply andb_true_iff in Hc as [_ Hne]. apply bool_decide_eq_true in Hne.
  apply bool_decide_eq_false in Ht. rewrite Hm in Hne, Ht.
  unfold benign. simpl. rewrite Hm, Hloop. do 2 (split; [done|]).
  right. exists room_id, (next_handle s2), (deletion_delay (mgr s)).
  split; [done|]. split; [by apply eq_None_not_Some|]. done.
Qed.

Lemma begin_send_multi_stable (l : string) (targets : list WebSocket)
    (message : string) (waiter : Waiter)
    (continue : list WebSocket → State → Outcome) (s : State) :
  stable l s → stable l (o_state (continue [] s)) →
  stable l (o_state (begin_send_multi targets message waiter continue s)).
Proof. intros Hs Hc. by destruct targets. Qed.

Lemma ensure_room_resume_stable (l room_id : string)
    (joining : option (WebSocket * string)) (s : State) :
  stable l s → stable l (o_state (ensure_room_resume room_id joining s)).
Proof.
  intros Hs. unfold ensure_room_resume.
  destruct (getitem (rooms (mgr s)) room_id) as [r|key]; [|done].
  simpl. eapply benign_stable; [|exact Hs].
  destruct joining as [[ws u]|]; by apply benign_same.
Qed.

Lemma after_broadcast_rooms_stable (l : string) (K : AfterRooms)
    (stale : list WebSocket) (s : State) :
  stable l s → stable l (o_state (after_broadcast_rooms K stale s)).
Proof.
  intros Hs. unfold after_broadcast_rooms.
  assert (stable l (broadcast_rooms_resume stale s)) as H1.
  { eapply benign_stable; [|exact Hs].
    destruct (discard_lobby_clients_spec stale s)
      as (? & ? & ? & _ & _ & ? & _).
    by apply benign_same. }
  destruct K as [|room_id joining]; [done|].
  by apply ensure_room_resume_stable.
Qed.

Lemma begin_broadcast_rooms_stable (l : string) (K : AfterRooms) (s : State) :
  stable l s → stable l (o_state (begin_broadcast_rooms K s)).
Proof.
  intros Hs. apply begin_send_multi_stable; [done|].
  by apply after_broadcast_rooms_stable.
Qed.

Lemma begin_broadcast_room_stable (l room_id message : string)
    (exclude : option WebSocket) (K : AfterRoom) (continue : State → Outcome)
    (s : State) :
  (∀ s', stable l s' → stable l (o_state (continue s'))) →
  stable l s →
  stable l (o_state (begin_broadcast_room room_id message exclude K continue s)).
Proof.
  intros Hc Hs. unfold begin_broadcast_room.
  destruct (rooms (mgr s) !! room_id) as [r|]; [|by apply Hc].
  apply begin_send_multi_stable; [done|]. apply Hc.
  eapply benign_stable; [apply broadcast_room_resume_benign|done].
Qed.

Lemma user_left_after_status_stable (l room_id : string) (r : RoomRef)
    (s : State) :
  stable l s → stable l (o_state (user_left_after_status room_id r s)).
Proof.
  intros Hs. unfold user_left_after_status.
  destruct (bool_decide (conns r s ≠ [])); [|done].
  apply begin_broadcast_room_stable; [|done]. intros s'.
  apply begin_broadcast_rooms_stable.
Qed.

Lemma resume_task_stable (l : string) (t : Task) (s : State) :
  stable l s → stable l (o_state (resume_task t s)).
Proof.
  intros Hs. unfold resume_task.
  destruct (task_waiter t) as [K|room_id r K].
  - by apply after_broadcast_rooms_stable.
  - assert (stable l (broadcast_room_resume room_id r
                        (stale_of (task_children t)) s)) as H1
      by (eapply benign_stable; [apply broadcast_room_resume_benign|done]).
    destruct K as [|id r'|]; simpl.
    + done.
    + by apply user_left_after_status_stable.
    + by apply begin_broadcast_rooms_stable.
Qed.

Lemma begin_ensure_room_stable (l room_id : string)
    (joining : option (WebSocket * string)) (s : State) :
  stable l s → stable l (o_state (begin_ensure_room room_id joining s)).
Proof.
  intros Hs. unfold begin_ensure_room.
  destruct (rooms (mgr s) !! room_id) as [r|].
  - simpl. eapply benign_stable; [|exact Hs].
    destruct joining as [[ws u]|]; by apply benign_same.
  - destruct (decide (room_id = lobby_id (mgr s))) as [Heq|Hne].
    + simpl. apply ensure_room_resume_stable.
      eapply benign_stable; [|exact Hs].
      unfold benign. simpl. split; [done|]. split; [|by left].
      intros _. rewrite lookup_insert_eq. by eexists.
    + pose proof (create_benign room_id s) as Hc.
      destruct (create room_id s) as [b s1]. simpl in Hc.
      apply begin_broadcast_rooms_stable. by eapply benign_stable.
Qed.

Lemma begin_user_left_stable (l room_id : string) (ws : WebSocket)
    (username : string) (s : State) :
  stable l s → stable l (o_state (begin_user_left room_id ws username s)).
Proof.
  intros Hs. unfold begin_user_left.
  destruct (rooms (mgr s) !! room_id) as [r|]; [|done].
  apply begin_broadcast_room_stable.
  - intros s'. apply user_left_after_status_stable.
  - eapply benign_stable; [|exact Hs]. by apply benign_same.
Qed.

Lemma start_op_stable (l : string) (op : Op) (s : State) :
  stable l s → stable l (o_state (start_op op s)).
Proof.
  intros Hs.
  destruct op as [id|id|id|id m e| |id|id tx e|id ws u|id ws u|ws|ws|i|w];
    simpl.
  - eapply benign_stable; [apply create_benign|done].
  - eapply benign_stable; [apply delete_benign|done].
  - by apply begin_ensure_room_stable.
  - by apply begin_broadcast_room_stable.
  - by apply begin_broadcast_rooms_stable.
  - by apply begin_broadcast_room_stable.
  - by apply begin_broadcast_room_stable.
  - by apply begin_user_left_stable.
  - by apply begin_ensure_room_stable.
  - eapply benign_stable; [|exact Hs]. by apply benign_same.
  - eapply benign_stable; [|exact Hs]. by apply benign_same.
  - destruct (loop s !! i) as [t|] eqn:Hi; [|done].
    unfold begin_delayed_delete. apply begin_broadcast_rooms_stable.
    destruct Hs as [Hl Hc].
    pose proof (fire_consistent i s Hc) as Hf.
    pose proof (fire_frame i s) as [Hl' _].
    unfold fire in Hf, Hl'. rewrite Hi in Hf, Hl'.
    unfold _delayed_delete, _delayed_delete_upto, _delayed_delete_body in Hf, Hl'.
    cbn [take foldl] in Hf, Hl'.
    set (s1 := delete_ (t_room t) (forget_timer (t_room t) (dequeue i s))) in *.
    destruct (broadcast_rooms_spec s1)
      as (evs & _ & _ & _ & _ & Hlb & Hr & Ht & _ & _ & Hloop & _).
    apply (benign_stable l (broadcast_rooms s1)).
    + by apply benign_same.
    + split; [|done]. by rewrite Hl'.
  - eapply benign_stable; [|exact Hs]. by apply benign_same.
Qed.

Lemma sys_step_stable (l : string) (x : Step) (sys : Sys) :
  stable l (st sys) → stable l (st (sys_step x sys)).
Proof.
  intros Hs. destruct x as [op|i j|i]; simpl.
  - by apply start_op_stable.
  - destruct (tasks sys !! i) as [t|]; [|done].
    destruct (task_children t !! j) as [c|]; [|done].
    destruct c as [ws|ws|ws res]; simpl; [| |done].
    + destruct (send_text ws (task_message t) (world (st sys))) as [[|] w];
        simpl; (eapply benign_stable; [|exact Hs]); by apply benign_same.
    + eapply benign_stable; [|exact Hs]. by apply benign_same.
  - destruct (tasks sys !! i) as [t|]; [|done].
    destruct (forallb is_done (task_children t)); [|done].
    by apply resume_task_stable.
Qed.

Lemma interleaved_stable (allowed : Step → Sys → Prop) (sys : Sys) :
  interleaved allowed sys → stable LOBBY_ID (st sys).
Proof.
  induction 1 as [w|x sys Hs IH Hx]; [|by apply sys_step_stable].
  split; [done|]. apply (reachable_consistent (λ _, True)). constructor.
Qed.

(** X17: With the coroutines of the manager interleaved at their
    suspension points in any way, explicit deletes and timer firings at
    any moment included: the lobby is a key of [rooms] and has no timer
    record; no room has two pending deletion callbacks; and the keys of
    [deletion_timers] are exactly the rooms with a pending callback.  In
    particular a timer record whose room is gone still has its pending
    callback. *)
Theorem interleaved_timers_consistent (allowed : Step → Sys → Prop) (sys : Sys) :
  interleaved allowed sys →
  lobby_id (mgr (st sys)) = LOBBY_ID
  ∧ is_Some (rooms (mgr (st sys)) !! LOBBY_ID)
  ∧ deletion_timers (mgr (st sys)) !! LOBBY_ID = None
  ∧ NoDup (t_room <$> loop (st sys))
  ∧ (∀ k, is_Some (deletion_timers (mgr (st sys)) !! k)
          ↔ k ∈ t_room <$> loop (st sys))
  ∧ (∀ k, orphan_timer k (st sys) → k ∈ t_room <$> loop (st sys)).
Proof.
  intros Hs. destruct (interleaved_stable allowed sys Hs)
    as (Hl & I1 & I2 & I3 & I4).
  rewrite Hl in I1, I4. do 5 (split; [done|]).
  intros k [_ Hrec]. by apply I3.
Qed.

(** ** Sends and closes in the interleaved runs *)

























(** ** [ensure_room] across its suspension *)

(** X8: [ensure_room] raises nothing before its suspension.  It suspends
    only for an identifier that is neither a key of [rooms] nor the
    lobby, when there are lobby subscribers: the room is created and the
    coroutine waits in the directory broadcast.  When it does not
    suspend, the identifier is bound when it returns.  When it resumes,
    [self.rooms[room_id]] raises [KeyError] exactly if the identifier is
    no longer a key of [rooms] at that moment, which is the case when the
    room was deleted or its timer fired during the suspension; [rooms]
    is not changed by the resumption. *)
Theorem ensure_room_raises_iff_unbound_at_resume (room_id : string)
    (joining : option (WebSocket * string)) :
  (∀ s,
     o_raised (begin_ensure_room room_id joining s) = []
     ∧ (o_task (begin_ensure_room room_id joining s) = None →
        is_Some (rooms (mgr (o_state (begin_ensure_room room_id joining s)))
                   !! room_id))
     ∧ (∀ t, o_task (begin_ensure_room room_id joining s) = Some t →
         rooms (mgr s) !! room_id = None
         ∧ room_id ≠ lobby_id (mgr s)
         ∧ elements (lobby_clients (mgr s)) ≠ []
         ∧ task_waiter t = InBroadcastRooms (EnsureRoomReturn room_id joining)
         ∧ task_children t = ChildSend <$> elements (lobby_clients (mgr s))
         ∧ is_Some (rooms (mgr (o_state (begin_ensure_room room_id joining s)))
                      !! room_id)))
  ∧ (∀ t s,
       task_waiter t = InBroadcastRooms (EnsureRoomReturn room_id joining) →
       o_task (resume_task t s) = None
       ∧ rooms (mgr (o_state (resume_task t s))) = rooms (mgr s)
       ∧ o_raised (resume_task t s)
         = match rooms (mgr s) !! room_id with
           | Some _ => []
           | None => [room_id]
           end).
Proof.
  split.
  - intros s. unfold begin_ensure_room.
    destruct (rooms (mgr s) !! room_id) as [r|] eqn:Hr.
    { simpl. split; [done|]. split; [|done]. intros _.
      destruct joining as [[ws u]|]; simpl; rewrite Hr; by eexists. }
    destruct (decide (room_id = lobby_id (mgr s))) as [Heq|Hne].
    { unfold ensure_room_resume, getitem. simpl. rewrite lookup_insert_eq.
      simpl. split; [done|]. split; [|done]. intros _.
      destruct joining as [[ws u]|]; simpl; rewrite Heq, lookup_insert_eq;
        by eexists. }
    unfold create. rewrite bool_decide_eq_false_2 by done.
    rewrite bool_decide_eq_false_2 by (rewrite Hr; by intros [? ?]).
    simpl. unfold begin_broadcast_rooms, begin_send_multi. simpl.
    destruct (elements (lobby_clients (mgr s))) as [|c l] eqn:Hl.
    + unfold after_broadcast_rooms, ensure_room_resume, getitem. simpl.
      rewrite lookup_insert_eq. simpl. split; [done|]. split; [|done].
      intros _. destruct joining as [[ws u]|]; simpl; rewrite lookup_insert_eq;
        by eexists.
    + simpl. split; [done|]. split; [done|]. intros t [= <-]. simpl.
      do 5 (split; [done|]). rewrite lookup_insert_eq. by eexists.
  - intros t s Hw. unfold resume_task. rewrite Hw.
    unfold after_broadcast_rooms, ensure_room_resume, getitem.
    destruct (discard_lobby_clients_spec (stale_of (task_children t)) s)
      as (_ & Hr & _).
    unfold broadcast_rooms_resume. rewrite Hr.
    destruct (rooms (mgr s) !! room_id) as [r|]; simpl; [|done].
    split; [done|]. split; [|done].
    destruct joining as [[ws u]|]; simpl; done.
Qed.

End Manager.

(** * The model at work

    The properties above applied to runs in the [Sample] environment. *)

Abbreviation play :=
  (run_all Sample.send_text Sample.close Sample.utc_ts Sample.jd).
Abbreviation boot :=
  (create_app Sample.ROOM_DELETION_DELAY ([] : Sample.World)).
Abbreviation sample_reachable :=
  (reachable Sample.send_text Sample.close Sample.utc_ts Sample.jd
     Sample.ROOM_DELETION_DELAY).

Abbreviation isteps :=
  (sys_steps (Delay := nat) Sample.send_text Sample.close Sample.utc_ts Sample.jd).
Abbreviation iboot :=
  (sys_init Sample.ROOM_DELETION_DELAY ([] : Sample.World)).

Ltac compute_decide := apply (bool_decide_unpack _); vm_compute; exact I.

(** The directory is sorted and leaves the lobby out. *)
Example list_rooms_sorted_without_lobby :
  list_rooms (mgr (play [OpCreate "b"; OpCreate "a"] boot)) = ["a"; "b"].
Proof. vm_compute. reflexivity. Qed.

(** The last connection leaves room abc: the departure finds the room
    empty and schedules its deletion; once the timer has fired the room
    is gone and the subscriber of the feed is sent an empty directory. *)
Example last_leave_then_timer :
  loop (play [OpSubscribe 9%positive; OpJoin "abc" 1%positive "alice";
              OpUserLeft "abc" 1%positive "alice"] boot)
  = [mkTimer 0 Sample.ROOM_DELETION_DELAY "abc"]
  ∧ exists_ (mgr (play [OpSubscribe 9%positive; OpJoin "abc" 1%positive "alice";
                        OpUserLeft "abc" 1%positive "alice"; OpFire 0] boot))
      "abc" = false
  ∧ trace (play [OpSubscribe 9%positive; OpJoin "abc" 1%positive "alice";
                 OpUserLeft "abc" 1%positive "alice"; OpFire 0] boot)
    = [EvSend 9%positive "rooms:abc;" true; EvSend 9%positive "rooms:" true].
Proof. vm_compute. done. Qed.

(** Room abc holds alice (connection 1) and bob (connection 2); bob's
    connection was closed behind the scenes.  A broadcast reaches alice
    and removes bob. *)
Lemma broadcast_room_keeps_delivered_drops_failed_witness :
  ∃ evs,
    trace (broadcast_room Sample.send_text Sample.close "abc" "hi" None
             (play [OpJoin "abc" 1%positive "alice";
                    OpJoin "abc" 2%positive "bob";
                    OpEnvironment [2%positive]] boot))
    = evs
    ∧ 1%positive ∈ delivered evs
    ∧ 2%positive ∈ failed evs
    ∧ conns 2%positive
        (broadcast_room Sample.send_text Sample.close "abc" "hi" None
           (play [OpJoin "abc" 1%positive "alice";
                  OpJoin "abc" 2%positive "bob";
                  OpEnvironment [2%positive]] boot))
      = [(1%positive, "alice")].
Proof.
  destruct (broadcast_room_keeps_delivered_drops_failed
              Sample.send_text Sample.close
              (play [OpJoin "abc" 1%positive "alice";
                     OpJoin "abc" 2%positive "bob";
                     OpEnvironment [2%positive]] boot)
              "abc" "hi" None 2%positive)
    as (evs & Ht & _ & _ & _ & Hc & _).
  - vm_compute. reflexivity.
  - unfold Dict.wf. compute_decide.
  - exists evs. vm_compute in Ht. subst evs.
    split; [vm_compute; reflexivity|].
    split; [compute_decide|]. split; [compute_decide|].
    rewrite Hc. vm_compute. reflexivity.
Defined.

(** Room a was created, found empty by a broadcast (a timer is now
    pending), and then joined by alice; connection 9 subscribed to the
    directory feed.  The timer fires all the same: the record and the
    occupied room are gone, and the subscriber is sent a directory
    without a. *)
Lemma timer_fire_order_witness :
  conns 2%positive
    (play [OpCreate "a"; OpBroadcastRoom "a" "hi" None;
           OpJoin "a" 1%positive "alice"; OpSubscribe 9%positive] boot)
  = [(1%positive, "alice")]
  ∧ deletion_timers
      (mgr (fire Sample.send_text Sample.close Sample.jd 0
              (play [OpCreate "a"; OpBroadcastRoom "a" "hi" None;
                     OpJoin "a" 1%positive "alice"; OpSubscribe 9%positive]
                 boot))) !! "a" = None
  ∧ rooms
      (mgr (fire Sample.send_text Sample.close Sample.jd 0
              (play [OpCreate "a"; OpBroadcastRoom "a" "hi" None;
                     OpJoin "a" 1%positive "alice"; OpSubscribe 9%positive]
                 boot))) !! "a" = None
  ∧ trace (fire Sample.send_text Sample.close Sample.jd 0
             (play [OpCreate "a"; OpBroadcastRoom "a" "hi" None;
                    OpJoin "a" 1%positive "alice"; OpSubscribe 9%positive]
                boot))
    = [EvSend 9%positive "rooms:" true].
Proof.
  destruct (timer_fire_order Sample.send_text Sample.close Sample.jd
              (play [OpCreate "a"; OpBroadcastRoom "a" "hi" None;
                     OpJoin "a" 1%positive "alice"; OpSubscribe 9%positive]
                 boot)
              0 (mkTimer 0 Sample.ROOM_DELETION_DELAY "a"))
    as (_ & _ & _ & evs & _ & _ & _ & _ & Htimers & Hrooms & _).
  - vm_compute. reflexivity.
  - simpl. compute_decide.
  - split; [vm_compute; reflexivity|].
    rewrite Htimers, Hrooms. simpl. rewrite !lookup_delete_eq.
    do 2 (split; [reflexivity|]). vm_compute. reflexivity.
Defined.



(** C4 (as stated, refuted): room a is created, found empty by a
    broadcast, and explicitly deleted.  The identifier is then absent
    from [rooms] and still a key of [deletion_timers], while its timer
    waits in the event loop. *)
Lemma orphan_timer_after_delete :
  sample_reachable (λ _, True)
    (play [OpCreate "a"; OpBroadcastRoom "a" "hi" None; OpDelete "a"] boot)
  ∧ orphan_timer "a"
      (play [OpCreate "a"; OpBroadcastRoom "a" "hi" None; OpDelete "a"] boot)
  ∧ loop (play [OpCreate "a"; OpBroadcastRoom "a" "hi" None; OpDelete "a"]
            boot)
    = [mkTimer 0 Sample.ROOM_DELETION_DELAY "a"].
Proof.
  split; [|split].
  - apply reachable_run_all; [constructor|]. by repeat constructor.
  - split; [vm_compute; reflexivity|]. exists 0. vm_compute. reflexivity.
  - vm_compute. reflexivity.
Qed.

(** Alice is in room a and a broadcast to the room is suspended in its
    send while room b is deleted; the broadcast resumes, alice leaves,
    the timer of room a fires with no broadcast to a suspended, and the
    directory broadcast that follows is suspended and resumes.  Before,
    in between and after, a is not left with a timer record and no
    room. *)
Lemma no_orphan_timer_unless_overtaken_witness :
  ¬ orphan_timer "a"
      (st (isteps [Start (OpJoin "a" 1%positive "alice");
                   Start (OpSubscribe 9%positive);
                   Start (OpCreate "b");
                   Start (OpBroadcastRoom "a" "hi" None);
                   Start (OpDelete "b")] iboot))
  ∧ ¬ orphan_timer "a"
        (st (isteps [Start (OpJoin "a" 1%positive "alice");
                     Start (OpSubscribe 9%positive);
                     Start (OpCreate "b");
                     Start (OpBroadcastRoom "a" "hi" None);
                     Start (OpDelete "b");
                     Advance 0 0; Resume 0;
                     Start (OpUserLeft "a" 1%positive "alice");
                     Start (OpFire 0);
                     Advance 0 0; Resume 0] iboot)).
Proof.
  split.
  - apply (no_orphan_timer_unless_overtaken
             Sample.send_text Sample.close Sample.utc_ts Sample.jd
             Sample.ROOM_DELETION_DELAY "a").
    apply interleaved_sys_steps; [constructor|]. vm_compute. repeat split.
  - apply (no_orphan_timer_unless_overtaken
             Sample.send_text Sample.close Sample.utc_ts Sample.jd
             Sample.ROOM_DELETION_DELAY "a").
    apply interleaved_sys_steps; [constructor|]. vm_compute. repeat split.
Defined.

(** The run of the witness: the timer of room a was scheduled by the
    departure of alice and has fired, and nothing is suspended any
    more. *)
Example timer_fires_with_no_broadcast_suspended :
  rooms (mgr (st (isteps [Start (OpJoin "a" 1%positive "alice");
                          Start (OpSubscribe 9%positive);
                          Start (OpCreate "b");
                          Start (OpBroadcastRoom "a" "hi" None);
                          Start (OpDelete "b");
                          Advance 0 0; Resume 0;
                          Start (OpUserLeft "a" 1%positive "alice")] iboot)))
    !! "a" = Some 2%positive
  ∧ loop (st (isteps [Start (OpJoin "a" 1%positive "alice");
                      Start (OpSubscribe 9%positive);
                      Start (OpCreate "b");
                      Start (OpBroadcastRoom "a" "hi" None);
                      Start (OpDelete "b");
                      Advance 0 0; Resume 0;
                      Start (OpUserLeft "a" 1%positive "alice")] iboot))
    = [mkTimer 0 Sample.ROOM_DELETION_DELAY "a"]
  ∧ isteps [Start (OpJoin "a" 1%positive "alice");
            Start (OpSubscribe 9%positive);
            Start (OpCreate "b");
            Start (OpBroadcastRoom "a" "hi" None);
            Start (OpDelete "b");
            Advance 0 0; Resume 0;
            Start (OpUserLeft "a" 1%positive "alice");
            Start (OpFire 0);
            Advance 0 0; Resume 0] iboot
    = mkSys
        (mkState
           (mkManager "lobby" {[ "lobby" := 1%positive ]} {[ 9%positive ]} ∅
              Sample.ROOM_DELETION_DELAY)
           {[ 1%positive := Room_init; 2%positive := Room_init;
              3%positive := Room_init ]}
           [] 1 []
           [EvSend 1%positive "hi" true; EvSend 9%positive "rooms:" true])
        [] [].
Proof.
  split; [vm_compute; reflexivity|]. split; [vm_compute; reflexivity|].
  vm_compute. reflexivity.
Qed.

(** The explicit delete of a room that has a timer record is one of the
    two removals the invariant excludes. *)
Example delete_with_timer_record_overtakes :
  overtakes "a" (Start (OpDelete "a"))
    (isteps [Start (OpCreate "a"); Start (OpBroadcastRoom "a" "hi" None)] iboot)
  = true
  ∧ st (isteps [Start (OpCreate "a"); Start (OpBroadcastRoom "a" "hi" None);
                Start (OpDelete "a")] iboot)
    = play [OpCreate "a"; OpBroadcastRoom "a" "hi" None; OpDelete "a"] boot.
Proof. split; vm_compute; reflexivity. Qed.

(** Room a is deleted while a broadcast to a is suspended in its send to
    alice, whose connection is closed behind the scenes, and a has no
    timer record.  The resumed broadcast schedules a deletion for the
    identifier that is no longer in [rooms]. *)
Example orphan_timer_after_delete_overtakes_broadcast :
  overtakes "a" (Start (OpDelete "a"))
    (isteps [Start (OpJoin "a" 1%positive "alice");
             Start (OpEnvironment [1%positive]);
             Start (OpBroadcastRoom "a" "hi" None)] iboot) = true
  ∧ deletion_timers
      (mgr (st (isteps [Start (OpJoin "a" 1%positive "alice");
                        Start (OpEnvironment [1%positive]);
                        Start (OpBroadcastRoom "a" "hi" None)] iboot)))
    = ∅
  ∧ orphan_timer "a"
      (st (isteps [Start (OpJoin "a" 1%positive "alice");
                   Start (OpEnvironment [1%positive]);
                   Start (OpBroadcastRoom "a" "hi" None);
                   Start (OpDelete "a");
                   Advance 0 0; Advance 0 0; Resume 0] iboot)).
Proof.
  split; [vm_compute; reflexivity|]. split; [vm_compute; reflexivity|].
  split; [vm_compute; reflexivity|]. exists 0. vm_compute. reflexivity.
Qed.

(** The timer of room a fires while a broadcast to a is suspended in its
    send to alice, whose connection is closed behind the scenes.  When
    the broadcast resumes it prunes alice, finds its Room empty and
    schedules a deletion: a is absent from [rooms] and a key of
    [deletion_timers], and no [delete] was called. *)
Example orphan_timer_after_overtaken_broadcast :
  overtakes "a" (Start (OpFire 0))
    (isteps [Start (OpCreate "a");
             Start (OpBroadcastRoom "a" "x" None);
             Start (OpJoin "a" 1%positive "alice");
             Start (OpEnvironment [1%positive]);
             Start (OpBroadcastRoom "a" "hi" None)] iboot) = true
  ∧ orphan_timer "a"
      (st (isteps [Start (OpCreate "a");
                   Start (OpBroadcastRoom "a" "x" None);
                   Start (OpJoin "a" 1%positive "alice");
                   Start (OpEnvironment [1%positive]);
                   Start (OpBroadcastRoom "a" "hi" None);
                   Start (OpFire 0);
                   Advance 0 0; Advance 0 0; Resume 0] iboot))
  ∧ loop (st (isteps [Start (OpCreate "a");
                      Start (OpBroadcastRoom "a" "x" None);
                      Start (OpJoin "a" 1%positive "alice");
                      Start (OpEnvironment [1%positive]);
                      Start (OpBroadcastRoom "a" "hi" None);
                      Start (OpFire 0);
                      Advance 0 0; Advance 0 0; Resume 0] iboot))
    = [mkTimer 1 Sample.ROOM_DELETION_DELAY "a"].
Proof.
  split; [vm_compute; reflexivity|]. split; [|vm_compute; reflexivity].
  split; [vm_compute; reflexivity|]. exists 1. vm_compute. reflexivity.
Qed.

(** The four answers of [create_error] in the initial state and after
    room a was created. *)
Lemma create_error_precedence_witness :
  create_error (mgr boot) (Some "") = Some "bad_room"
  ∧ create_error (mgr boot) (Some "lobby") = Some "reserved"
  ∧ create_error (mgr (play [OpCreate "a"] boot)) (Some "a")
    = Some "room_exists"
  ∧ create_error (mgr boot) (Some "a") = None.
Proof.
  split; [|split; [|split]].
  - apply (proj1 (create_error_precedence (mgr boot) (Some ""))).
    by right.
  - apply (proj2 (create_error_precedence (mgr boot) (Some "lobby"))
             "lobby"); [reflexivity|compute_decide|reflexivity].
  - apply (proj2 (create_error_precedence
                    (mgr (play [OpCreate "a"] boot)) (Some "a")) "a");
      [reflexivity|compute_decide|compute_decide|].
    exists 2%positive. vm_compute. reflexivity.
  - apply (proj2 (create_error_precedence (mgr boot) (Some "a")) "a");
      [reflexivity|compute_decide|compute_decide|].
    vm_compute. reflexivity.
Defined.

(** Connection 2 is closed behind the scenes: of the three sends the
    one to connection 2 is the one [send_text] fails, and connection 2
    is what [send_multi] returns. *)
Lemma send_multi_returns_exactly_failed_witness :
  (send_multi Sample.send_text Sample.close
     [1%positive; 2%positive; 3%positive] "hi"
     (play [OpEnvironment [2%positive]] boot)).1 = [2%positive]
  ∧ (∃ w w', Sample.send_text 2%positive "hi" w = (false, w'))
  ∧ ∃ evs,
      replay Sample.send_text Sample.close [2%positive] evs = Some [2%positive]
      ∧ attempts evs
        = [(1%positive, true); (2%positive, false); (3%positive, true)].
Proof.
  destruct (send_multi_returns_exactly_failed Sample.send_text Sample.close
              [1%positive; 2%positive; 3%positive] "hi"
              (play [OpEnvironment [2%positive]] boot))
    as (evs & Hio & Hr & Hc & Ha & Hst & Hiff & Hnet).
  assert ((send_multi Sample.send_text Sample.close
             [1%positive; 2%positive; 3%positive] "hi"
             (play [OpEnvironment [2%positive]] boot)).1 = [2%positive]) as Hret
    by (vm_compute; reflexivity).
  split; [exact Hret|]. split.
  - apply Hnet, Hiff. rewrite Hret. by apply list_elem_of_singleton.
  - exists evs. split; [exact Hr|].
    destruct Hio as (_ & _ & _ & _ & Ht). vm_compute in Ht.
    by rewrite <- Ht.
Defined.

(** C7 (as stated, refuted): a manager whose lobby identifier is the
    empty string answers [bad_room], not [reserved], for the lobby
    identifier. *)
Lemma create_error_empty_lobby_not_reserved :
  "" = lobby_id (mgr (RoomManager_init Sample.ROOM_DELETION_DELAY ""
                        ([] : Sample.World)))
  ∧ create_error (mgr (RoomManager_init Sample.ROOM_DELETION_DELAY ""
                         ([] : Sample.World))) (Some "")
    = Some "bad_room"
  ∧ ¬ (create_error (mgr (RoomManager_init Sample.ROOM_DELETION_DELAY ""
                            ([] : Sample.World))) (Some "")
       = Some "reserved"
       ↔ "" = lobby_id (mgr (RoomManager_init Sample.ROOM_DELETION_DELAY ""
                               ([] : Sample.World)))).
Proof.
  split; [reflexivity|]. split; [reflexivity|].
  intros Hiff. by pose proof (proj2 Hiff eq_refl).
Qed.

(** With the lobby of the application, and also for the empty identifier
    with a manager whose lobby is not empty. *)
Lemma create_error_reserved_iff_lobby_witness :
  (create_error (mgr (play [OpCreate "a"] boot)) (Some "lobby")
   = Some "reserved"
   ↔ "lobby" = lobby_id (mgr (play [OpCreate "a"] boot)))
  ∧ (create_error (mgr (play [OpCreate "a"] boot)) (Some "a")
     = Some "reserved"
     ↔ "a" = lobby_id (mgr (play [OpCreate "a"] boot)))
  ∧ (create_error (mgr (play [OpCreate "a"] boot)) (Some "")
     = Some "reserved"
     ↔ "" = lobby_id (mgr (play [OpCreate "a"] boot))).
Proof.
  split; [|split].
  - apply (proj2 (create_error_reserved_iff_lobby
                    (mgr (play [OpCreate "a"] boot)) "lobby")).
    intros [Hr _]. discriminate Hr.
  - apply (proj2 (create_error_reserved_iff_lobby
                    (mgr (play [OpCreate "a"] boot)) "a")).
    intros [Hr _]. discriminate Hr.
  - apply (proj2 (create_error_reserved_iff_lobby
                    (mgr (play [OpCreate "a"] boot)) "")).
    intros [_ Hl]. vm_compute in Hl. discriminate Hl.
Defined.

Lemma create_lobby_fails_novel_succeeds_witness :
  create "lobby" boot = (false, boot)
  ∧ ∃ r s',
      create "a" boot = (true, s')
      ∧ heap boot !! r = None
      ∧ conns r s' = []
      ∧ rooms (mgr s') = <[ "a" := r ]> (rooms (mgr boot))
      ∧ exists_ (mgr s') "a" = true.
Proof.
  destruct (create_lobby_fails_novel_succeeds boot) as [Hlobby Hnovel].
  split; [exact Hlobby|].
  destruct (Hnovel "a") as (r & s' & H1 & H2 & _ & H4 & H5 & H6 & _).
  - compute_decide.
  - vm_compute. reflexivity.
  - exists r, s'. done.
Defined.

Lemma ensure_room_twice_same_room_witness :
  (ensure_room Sample.send_text Sample.close Sample.jd "a"
     (play [OpCreate "a"; OpSubscribe 9%positive] boot)).1
  = Ok 2%positive
  ∧ (ensure_room Sample.send_text Sample.close Sample.jd "a"
       (ensure_room Sample.send_text Sample.close Sample.jd "a"
          (play [OpCreate "a"; OpSubscribe 9%positive] boot)).2).1
    = Ok 2%positive
  ∧ trace
      (ensure_room Sample.send_text Sample.close Sample.jd "a"
         (ensure_room Sample.send_text Sample.close Sample.jd "a"
            (play [OpCreate "a"; OpSubscribe 9%positive] boot)).2).2
    = trace
        (ensure_room Sample.send_text Sample.close Sample.jd "a"
           (play [OpCreate "a"; OpSubscribe 9%positive] boot)).2.
Proof.
  destruct (ensure_room_twice_same_room
              Sample.send_text Sample.close Sample.jd
              (play [OpCreate "a"; OpSubscribe 9%positive] boot)
              "a" 2%positive)
    as (H1 & H2 & _ & H4).
  - vm_compute. reflexivity.
  - done.
Defined.

Lemma broadcast_room_absent_noop_witness :
  broadcast_room Sample.send_text Sample.close "ghost" "hi" None
    (play [OpJoin "abc" 1%positive "alice"] boot)
  = play [OpJoin "abc" 1%positive "alice"] boot.
Proof.
  apply (broadcast_room_absent_noop Sample.send_text Sample.close
           (play [OpJoin "abc" 1%positive "alice"] boot)
           "ghost" "hi" None).
  vm_compute. reflexivity.
Defined.

(** * Static files with a cache header *)

Lemma cache_header_truthy (cache_seconds : Z) :
  CachedStaticFiles.truthy (CachedStaticFiles.cache_header cache_seconds)
  = bool_decide (0 < cache_seconds)%Z.
Proof.
  unfold CachedStaticFiles.cache_header.
  destruct (bool_decide (0 < cache_seconds)%Z); [|done].
  simpl. first [done | by apply bool_decide_eq_true].
Qed.
(** X16: [get_response] never changes the status code and never removes,
    reorders or overwrites a header.  It returns the response as it got
    it when caching is off ([cache_seconds] not positive), when the
    status is 400 or more, or when a cache-control header is already
    there; otherwise it appends one cache-control header carrying
    [cache_seconds].  Applying it twice is applying it once. *)
Theorem get_response_cache_policy (cache_seconds : Z)
    (response : CachedStaticFiles.Response) :
  CachedStaticFiles.status_code
    (CachedStaticFiles.get_response cache_seconds response)
  = CachedStaticFiles.status_code response
  ∧ ((cache_seconds ≤ 0)%Z
     ∨ (400 ≤ CachedStaticFiles.status_code response)%Z
     ∨ "cache-control" ∈ (CachedStaticFiles.headers response).*1 →
     CachedStaticFiles.get_response cache_seconds response = response)
  ∧ ((0 < cache_seconds)%Z →
     (CachedStaticFiles.status_code response < 400)%Z →
     "cache-control" ∉ (CachedStaticFiles.headers response).*1 →
     CachedStaticFiles.headers
       (CachedStaticFiles.get_response cache_seconds response)
     = CachedStaticFiles.headers response
       ++ [("cache-control", "public, max-age=" +:+ pretty cache_seconds)])
  ∧ CachedStaticFiles.get_response cache_seconds
      (CachedStaticFiles.get_response cache_seconds response)
    = CachedStaticFiles.get_response cache_seconds response.
Proof.
  unfold CachedStaticFiles.get_response. rewrite cache_header_truthy.
  unfold CachedStaticFiles.cache_header, CachedStaticFiles.setdefault.
  change (CachedStaticFiles.lower "Cache-Control") with "cache-control".
  destruct response as [code hs]. cbn [CachedStaticFiles.status_code CachedStaticFiles.headers].
  destruct (bool_decide (0 < cache_seconds)%Z) eqn:Hpos.
  2: { apply bool_decide_eq_false in Hpos. cbn [andb].
       split; [done|]. split; [done|]. split; [intros ?; exfalso; lia|]. done. }
  apply bool_decide_eq_true in Hpos. cbn [andb default].
  destruct (bool_decide (code < 400)%Z) eqn:Hcode.
  2: { pose proof Hcode as Hcode'. apply bool_decide_eq_false in Hcode.
       split; [done|]. split; [done|]. split; [intros _ ?; exfalso; lia|].
       cbn [CachedStaticFiles.status_code]. by rewrite Hcode'. }
  pose proof Hcode as Hb. apply bool_decide_eq_true in Hcode.
  cbn [CachedStaticFiles.status_code CachedStaticFiles.headers].
  rewrite ?Hb.
  destruct (bool_decide ("cache-control" ∈ hs.*1)) eqn:Hin.
  - apply bool_decide_eq_true in Hin.
    split; [done|]. split; [done|]. split; [by intros _ _ ?|].
    by rewrite bool_decide_eq_true_2.
  - apply bool_decide_eq_false in Hin.
    split; [done|]. split; [intros [?|[?|?]]; [exfalso; lia|exfalso; lia|done]|].
    split; [done|].
    rewrite bool_decide_eq_true_2; [done|].
    rewrite fmap_app. apply elem_of_app. right. by apply list_elem_of_singleton.
Qed.

(** An hour of caching on a found file, and none on a missing one. *)
Example get_response_one_hour :
  CachedStaticFiles.get_response 3600
    (CachedStaticFiles.mkResponse 200 [("content-type", "text/html")])
  = CachedStaticFiles.mkResponse 200
      [("content-type", "text/html"); ("cache-control", "public, max-age=3600")]
  ∧ CachedStaticFiles.get_response 3600 (CachedStaticFiles.mkResponse 404 [])
    = CachedStaticFiles.mkResponse 404 [].
Proof. vm_compute. done. Qed.

(** * Further runs in the sample environment *)

(** Bob is alone in room abc and his connection is closed: the broadcast
    prunes him and schedules the deletion of the room. *)
Lemma broadcast_room_schedules_deletion_witness :
  deletion_timers
    (mgr (broadcast_room Sample.send_text Sample.close "abc" "hi" None
            (play [OpJoin "abc" 2%positive "bob"; OpEnvironment [2%positive]]
               boot))) !! "abc" = Some 0
  ∧ loop (broadcast_room Sample.send_text Sample.close "abc" "hi" None
            (play [OpJoin "abc" 2%positive "bob"; OpEnvironment [2%positive]]
               boot))
    = [mkTimer 0 Sample.ROOM_DELETION_DELAY "abc"].
Proof.
  destruct (broadcast_room_schedules_deletion Sample.send_text Sample.close
              (play [OpJoin "abc" 2%positive "bob"; OpEnvironment [2%positive]]
                 boot)
              "abc" "hi" None 2%positive) as [Hsched _].
  - vm_compute. reflexivity.
  - destruct Hsched as (Ht & Hl & _).
    + split; [vm_compute; reflexivity|]. split; [compute_decide|].
      vm_compute. reflexivity.
    + rewrite Ht, Hl. split; [|vm_compute; reflexivity].
      by rewrite lookup_insert_eq.
Defined.

Lemma user_left_removes_connection_witness :
  (1%positive
   ∉ Dict.keys
       (conns 2%positive
          (user_left Sample.send_text Sample.close Sample.utc_ts Sample.jd
             "abc" 1%positive "alice"
             (play [OpJoin "abc" 1%positive "alice";
                    OpJoin "abc" 2%positive "bob"] boot))))
  ∧ rooms
      (mgr (user_left Sample.send_text Sample.close Sample.utc_ts Sample.jd
              "abc" 1%positive "alice"
              (play [OpJoin "abc" 1%positive "alice";
                     OpJoin "abc" 2%positive "bob"] boot)))
    = rooms (mgr (play [OpJoin "abc" 1%positive "alice";
                        OpJoin "abc" 2%positive "bob"] boot)).
Proof.
  destruct (user_left_removes_connection
              Sample.send_text Sample.close Sample.utc_ts Sample.jd
              (play [OpJoin "abc" 1%positive "alice";
                     OpJoin "abc" 2%positive "bob"] boot)
              "abc" 1%positive "alice" 2%positive)
    as (Hgone & _ & _ & Hrooms & _).
  - vm_compute. reflexivity.
  - done.
Defined.

(** Alice is alone in room abc and connection 9 follows the directory:
    when alice leaves nothing is sent, and the deletion is scheduled. *)
Lemma user_left_last_occupant_is_silent_witness :
  trace (user_left Sample.send_text Sample.close Sample.utc_ts Sample.jd
           "abc" 1%positive "alice"
           (play [OpSubscribe 9%positive; OpJoin "abc" 1%positive "alice"] boot))
  = trace (play [OpSubscribe 9%positive; OpJoin "abc" 1%positive "alice"] boot)
  ∧ loop (user_left Sample.send_text Sample.close Sample.utc_ts Sample.jd
            "abc" 1%positive "alice"
            (play [OpSubscribe 9%positive; OpJoin "abc" 1%positive "alice"] boot))
    = [mkTimer 0 Sample.ROOM_DELETION_DELAY "abc"].
Proof.
  destruct (user_left_last_occupant_is_silent
              Sample.send_text Sample.close Sample.utc_ts Sample.jd
              (play [OpSubscribe 9%positive; OpJoin "abc" 1%positive "alice"] boot)
              "abc" 1%positive "alice" 2%positive)
    as (Ht & _ & _ & _ & _ & Hsched & _).
  - vm_compute. reflexivity.
  - intros c Hc.
    assert (Dict.keys
              (conns 2%positive
                 (play [OpSubscribe 9%positive; OpJoin "abc" 1%positive "alice"]
                    boot)) = [1%positive]) as Hkeys by (vm_compute; reflexivity).
    rewrite Hkeys in Hc. by apply list_elem_of_singleton in Hc.
  - split; [exact Ht|]. destruct Hsched as [_ Hl].
    + compute_decide.
    + vm_compute. reflexivity.
    + rewrite Hl. vm_compute. reflexivity.
Defined.

(** Deleting the lobby and broadcasting to the empty lobby leave it in
    place, without a timer. *)
Lemma lobby_always_exists_witness :
  exists_ (mgr (play [OpCreate "a"; OpDelete "lobby";
                      OpBroadcastRoom "lobby" "hi" None] boot)) LOBBY_ID = true
  ∧ deletion_timers
      (mgr (play [OpCreate "a"; OpDelete "lobby";
                  OpBroadcastRoom "lobby" "hi" None] boot)) !! LOBBY_ID = None.
Proof.
  destruct (lobby_always_exists
              Sample.send_text Sample.close Sample.utc_ts Sample.jd
              Sample.ROOM_DELETION_DELAY (λ _, True)
              (play [OpCreate "a"; OpDelete "lobby";
                     OpBroadcastRoom "lobby" "hi" None] boot))
    as (_ & He & Ht & _).
  - apply reachable_run_all; [constructor|]. by repeat constructor.
  - done.
Defined.

(** Two broadcasts to the empty room a queue one callback, and the
    explicit delete leaves both the callback and its record. *)
Lemma one_pending_timer_per_room_witness :
  NoDup (t_room <$> loop (play [OpCreate "a"; OpBroadcastRoom "a" "x" None;
                                OpBroadcastRoom "a" "y" None; OpDelete "a"] boot))
  ∧ ∀ k,
      is_Some (deletion_timers
                 (mgr (play [OpCreate "a"; OpBroadcastRoom "a" "x" None;
                             OpBroadcastRoom "a" "y" None; OpDelete "a"] boot))
               !! k)
      ↔ k ∈ t_room <$> loop (play [OpCreate "a"; OpBroadcastRoom "a" "x" None;
                                   OpBroadcastRoom "a" "y" None; OpDelete "a"]
                               boot).
Proof.
  apply (one_pending_timer_per_room
           Sample.send_text Sample.close Sample.utc_ts Sample.jd
           Sample.ROOM_DELETION_DELAY (λ _, True)).
  apply reachable_run_all; [constructor|]. by repeat constructor.
Defined.

(** Alice is in room a and bob in room b, both connections closed: a
    broadcast to a prunes alice and leaves bob where he is. *)
Lemma broadcast_room_leaves_other_rooms_witness :
  conns 2%positive
    (broadcast_room Sample.send_text Sample.close "a" "hi" None
       (play [OpJoin "a" 1%positive "alice"; OpJoin "b" 2%positive "bob";
              OpEnvironment [1%positive; 2%positive]] boot))
  = []
  ∧ conns 3%positive
      (broadcast_room Sample.send_text Sample.close "a" "hi" None
         (play [OpJoin "a" 1%positive "alice"; OpJoin "b" 2%positive "bob";
                OpEnvironment [1%positive; 2%positive]] boot))
    = [(2%positive, "bob")].
Proof.
  destruct (broadcast_room_leaves_other_rooms
              Sample.send_text Sample.close Sample.utc_ts Sample.jd
              Sample.ROOM_DELETION_DELAY (λ _, True)
              (play [OpJoin "a" 1%positive "alice"; OpJoin "b" 2%positive "bob";
                     OpEnvironment [1%positive; 2%positive]] boot)
              "a" "b" "hi" None 3%positive) as [_ Hc].
  - apply reachable_run_all; [constructor|]. by repeat constructor.
  - vm_compute. reflexivity.
  - done.
  - split; [vm_compute; reflexivity|]. rewrite Hc. vm_compute. reflexivity.
Defined.

(** Room a with alice is deleted and asked for again: the new room is
    another object, empty; alice is still in the old registry, which no
    identifier is bound to. *)
Lemma recreated_room_is_another_object_witness :
  (ensure_room Sample.send_text Sample.close Sample.jd "a"
     (delete_ "a" (play [OpJoin "a" 1%positive "alice"] boot))).1
  = Ok 3%positive
  ∧ conns 2%positive
      (ensure_room Sample.send_text Sample.close Sample.jd "a"
         (delete_ "a" (play [OpJoin "a" 1%positive "alice"] boot))).2
    = [(1%positive, "alice")]
  ∧ ∀ k,
      rooms (mgr (ensure_room Sample.send_text Sample.close Sample.jd "a"
                    (delete_ "a" (play [OpJoin "a" 1%positive "alice"] boot))).2)
        !! k ≠ Some 2%positive.
Proof.
  destruct (recreated_room_is_another_object
              Sample.send_text Sample.close Sample.utc_ts Sample.jd
              Sample.ROOM_DELETION_DELAY (λ _, True)
              (play [OpJoin "a" 1%positive "alice"] boot) "a" 2%positive)
    as (r' & _ & _ & _ & _ & _ & Hold & Hunbound).
  - apply reachable_run_all; [constructor|]. by repeat constructor.
  - vm_compute. reflexivity.
  - compute_decide.
  - split; [vm_compute; reflexivity|]. split; [|exact Hunbound].
    rewrite Hold. vm_compute. reflexivity.
Defined.

(** Alice and bob are in room abc and bob's connection is closed: the
    user list that alice receives still names bob, and bob is pruned. *)
Lemma announce_users_sends_names_before_pruning_witness :
  ∃ evs,
    all_carry "users:alice;bob;" evs
    ∧ (attempts evs).*1 = [1%positive; 2%positive]
    ∧ conns 2%positive
        (announce_users Sample.send_text Sample.close Sample.jd "abc"
           (play [OpJoin "abc" 1%positive "alice";
                  OpJoin "abc" 2%positive "bob";
                  OpEnvironment [2%positive]] boot))
      = [(1%positive, "alice")].
Proof.
  destruct (proj2 (announce_users_sends_names_before_pruning
                     Sample.send_text Sample.close Sample.jd
                     (play [OpJoin "abc" 1%positive "alice";
                            OpJoin "abc" 2%positive "bob";
                            OpEnvironment [2%positive]] boot) "abc")
              2%positive)
    as (evs & Ht & Hc & Ha & _ & Hconns).
  - vm_compute. reflexivity.
  - exists evs. split; [exact Hc|]. split; [exact Ha|].
    vm_compute. reflexivity.
Defined.

(** Connection 9 follows the directory and room a is asked for:
    [ensure_room] creates it and waits for the directory broadcast.  When
    room a is deleted meanwhile, the resumed [ensure_room] raises
    [KeyError]; undisturbed, it raises nothing. *)
Lemma ensure_room_raises_iff_unbound_at_resume_witness :
  raised (isteps [Start (OpSubscribe 9%positive);
                  Start (OpEnsureRoom "a");
                  Start (OpDelete "a");
                  Advance 0 0; Resume 0] iboot) = ["a"]
  ∧ raised (isteps [Start (OpSubscribe 9%positive);
                    Start (OpEnsureRoom "a");
                    Advance 0 0; Resume 0] iboot) = [].
Proof.
  split.
  - destruct (proj2 (ensure_room_raises_iff_unbound_at_resume
                       Sample.jd "a" None)
                (mkTask "rooms:a;" [ChildDone 9%positive true]
                   (InBroadcastRooms (EnsureRoomReturn "a" None)))
                (st (isteps [Start (OpSubscribe 9%positive);
                             Start (OpEnsureRoom "a");
                             Start (OpDelete "a");
                             Advance 0 0] iboot))
                eq_refl) as (_ & _ & Hraised).
    transitivity
      (o_raised
         (resume_task Sample.jd
            (mkTask "rooms:a;" [ChildDone 9%positive true]
               (InBroadcastRooms (EnsureRoomReturn "a" None)))
            (st (isteps [Start (OpSubscribe 9%positive);
                         Start (OpEnsureRoom "a");
                         Start (OpDelete "a");
                         Advance 0 0] iboot)))).
    + vm_compute. reflexivity.
    + rewrite Hraised. vm_compute. reflexivity.
  - destruct (proj2 (ensure_room_raises_iff_unbound_at_resume
                       Sample.jd "a" None)
                (mkTask "rooms:a;" [ChildDone 9%positive true]
                   (InBroadcastRooms (EnsureRoomReturn "a" None)))
                (st (isteps [Start (OpSubscribe 9%positive);
                             Start (OpEnsureRoom "a");
                             Advance 0 0] iboot))
                eq_refl) as (_ & _ & Hraised).
    transitivity
      (o_raised
         (resume_task Sample.jd
            (mkTask "rooms:a;" [ChildDone 9%positive true]
               (InBroadcastRooms (EnsureRoomReturn "a" None)))
            (st (isteps [Start (OpSubscribe 9%positive);
                         Start (OpEnsureRoom "a");
                         Advance 0 0] iboot)))).
    + vm_compute. reflexivity.
    + rewrite Hraised. vm_compute. reflexivity.
Defined.

(** The same with a timer: room a was deleted while its timer was
    pending, and the timer fires while [ensure_room] waits with the room
    it created under the same identifier. *)
Example ensure_room_key_error_after_timer :
  isteps [Start (OpCreate "a");
          Start (OpBroadcastRoom "a" "x" None);
          Start (OpDelete "a");
          Start (OpSubscribe 9%positive);
          Start (OpEnsureRoom "a")] iboot
  = mkSys
      (mkState
         (mkManager "lobby" {[ "lobby" := 1%positive; "a" := 3%positive ]}
            {[ 9%positive ]} {[ "a" := 0 ]} Sample.ROOM_DELETION_DELAY)
         {[ 1%positive := Room_init; 2%positive := Room_init;
            3%positive := Room_init ]}
         [mkTimer 0 Sample.ROOM_DELETION_DELAY "a"] 1 [] [])
      [mkTask "rooms:a;" [ChildSend 9%positive]
         (InBroadcastRooms (EnsureRoomReturn "a" None))]
      []
  ∧ raised (isteps [Start (OpCreate "a");
                    Start (OpBroadcastRoom "a" "x" None);
                    Start (OpDelete "a");
                    Start (OpSubscribe 9%positive);
                    Start (OpEnsureRoom "a");
                    Start (OpFire 0);
                    Advance 0 0; Resume 0] iboot) = ["a"].
Proof. split; vm_compute; reflexivity. Qed.

(** The timer of room a fired while a broadcast to a was suspended, and
    the resumed broadcast scheduled a new one: the record of the absent
    room has its pending callback, and it is the only callback. *)
Lemma interleaved_timers_consistent_witness :
  "a" ∈ t_room <$> loop (st (isteps [Start (OpCreate "a");
                                     Start (OpBroadcastRoom "a" "x" None);
                                     Start (OpJoin "a" 1%positive "alice");
                                     Start (OpEnvironment [1%positive]);
                                     Start (OpBroadcastRoom "a" "hi" None);
                                     Start (OpFire 0);
                                     Advance 0 0; Advance 0 0; Resume 0] iboot))
  ∧ NoDup (t_room <$> loop (st (isteps [Start (OpCreate "a");
                                        Start (OpBroadcastRoom "a" "x" None);
                                        Start (OpJoin "a" 1%positive "alice");
                                        Start (OpEnvironment [1%positive]);
                                        Start (OpBroadcastRoom "a" "hi" None);
                                        Start (OpFire 0);
                                        Advance 0 0; Advance 0 0; Resume 0]
                                   iboot))).
Proof.
  destruct (interleaved_timers_consistent
              Sample.send_text Sample.close Sample.utc_ts Sample.jd
              Sample.ROOM_DELETION_DELAY (λ _ _, True)
              (isteps [Start (OpCreate "a");
                       Start (OpBroadcastRoom "a" "x" None);
                       Start (OpJoin "a" 1%positive "alice");
                       Start (OpEnvironment [1%positive]);
                       Start (OpBroadcastRoom "a" "hi" None);
                       Start (OpFire 0);
                       Advance 0 0; Advance 0 0; Resume 0] iboot))
    as (_ & _ & _ & Hnd & _ & Horphan).
  - apply interleaved_sys_steps; [constructor|]. simpl. repeat split.
  - split; [|exact Hnd]. apply Horphan.
    split; [vm_compute; reflexivity|]. exists 1. vm_compute. reflexivity.
Defined.

